(** * The RAG pipeline of the campus-safety assistant

  A shallow embedding of [backend/services/ragService.ts] (class
  [RAGService]) and of the chat controller
  ([backend/controllers/chatController.ts], revisions 20260214171145 and
  20260214100540 of the editor history), with the properties the
  specification states about them.

  Layout: JavaScript strings, the effect monad (a world that survives
  exceptions, outcomes of the remote services given by oracles), the data
  model, the service, the controller, then the theorems. *)

From Stdlib Require Import List String Ascii NArith ZArith Arith Bool Lia DecimalString Floats
  Permutation.
Import ListNotations.
Local Open Scope list_scope.

(* ================================================================== *)
(** ** JavaScript strings *)
(* ================================================================== *)

(** A JavaScript string is a sequence of UTF-16 code units; [length],
  [substring] and [trim] all count code units. *)
Module JsString.

Definition t : Type := list N.

(** An ASCII literal of the source text. *)
Definition lit (s : string) : t := map N_of_ascii (list_ascii_of_string s).

Definition length (s : t) : nat := List.length s.

(** ECMAScript [WhiteSpace] and [LineTerminator] code points, the
    characters [String.prototype.trim] removes. *)
Definition isWhiteSpace (c : N) : bool :=
  ((9 <=? c) && (c <=? 13) || (c =? 32) || (c =? 160) || (c =? 5760)
   || (8192 <=? c) && (c <=? 8202) || (c =? 8232) || (c =? 8233)
   || (c =? 8239) || (c =? 8287) || (c =? 12288) || (c =? 65279))%N.

Fixpoint trimStart (s : t) : t :=
  match s with
  | [] => []
  | c :: r => if isWhiteSpace c then trimStart r else s
  end.

Definition trimEnd (s : t) : t := rev (trimStart (rev s)).

Definition trim (s : t) : t := trimEnd (trimStart s).

(** [s.substring(a, b)]: both indices are clamped to the length and
    swapped when [a > b]. *)
Definition substring (s : t) (a b : nat) : t :=
  let a' := Nat.min a (length s) in
  let b' := Nat.min b (length s) in
  firstn (Nat.max a' b' - Nat.min a' b') (skipn (Nat.min a' b') s).

(** Decimal rendering of a non-negative integer in a template literal. *)
Definition ofNat (n : nat) : t := lit (NilZero.string_of_uint (Nat.to_uint n)).

(** [Array.prototype.join]. *)
Fixpoint join (sep : t) (parts : list t) : t :=
  match parts with
  | [] => []
  | [p] => p
  | p :: rest => p ++ sep ++ join sep rest
  end.

Definition isEmpty (s : t) : bool :=
  match s with [] => true | _ => false end.

(** [a === b] on strings. *)
Fixpoint eqb (a b : t) : bool :=
  match a, b with
  | [], [] => true
  | x :: a', y :: b' => (x =? y)%N && eqb a' b'
  | _, _ => false
  end.

(** [needle] occurs in [s] starting at its first code unit. *)
Fixpoint startsWith (needle s : t) : bool :=
  match needle, s with
  | [], _ => true
  | _ :: _, [] => false
  | a :: n', b :: s' => (a =? b)%N && startsWith n' s'
  end.

(** [s.includes(needle)]. *)
Fixpoint includes (needle s : t) : bool :=
  startsWith needle s ||
  match s with
  | [] => false
  | _ :: s' => includes needle s'
  end.

End JsString.

Abbreviation jsstring := JsString.t.
Arguments JsString.lit : simpl never.
Notation "'js' s" := (JsString.lit s%string) (at level 9, s at level 0, only parsing).

(* ================================================================== *)
(** ** Outcomes and the effect monad *)
(* ================================================================== *)

(** A thrown error: its [message], and whether it carries a [response]
    (an HTTP error of axios does, [new Error(...)] does not). *)
Record Error : Type := mkError { message : jsstring; response : bool }.

(** [new Error(message)]. *)
Definition newError (message : jsstring) : Error := mkError message false.

(** What an awaited call yields: a value, or a thrown error. *)
Inductive Outcome (A : Type) : Type :=
| Ok (a : A)
| Throw (e : Error).
Arguments Ok {A} a.
Arguments Throw {A} e.

Definition isOk {A} (o : Outcome A) : bool :=
  match o with Ok _ => true | Throw _ => false end.

(* ================================================================== *)
(** ** Data model, world and services *)
(* ================================================================== *)

(** JavaScript numbers are IEEE 754 doubles. Embeddings are only stored
    and passed on; a similarity is tested for truthiness, multiplied by
    100 and rendered. *)
Definition number : Set := float.

(** Truthiness of a number: false exactly for [0], [-0] and [NaN]. *)
Definition truthy (x : number) : bool :=
  negb (PrimFloat.eqb x 0%float || PrimFloat.is_nan x).

(** One chunk as [chunkText] of [utils/textProcessing] returns it: the
    controller reads [chunk.text] and [chunk.index]. *)
Record Chunk : Type := mkChunk { text : jsstring; index : nat }.

Section Pipeline.

(** [x.toFixed(digits)], the decimal rendering of a number. *)
Variable toFixed : number -> nat -> jsstring.

(** [utils/textProcessing] is imported by the service and the
    controller; its three functions are taken as they are called. *)
Variable cleanText : jsstring -> jsstring.
Variable chunkText : jsstring -> nat -> nat -> list Chunk.
Variable truncateText : jsstring -> nat -> jsstring.

(** *** Documents, conversations, messages *)

(** A stored document ([IDocument]); object ids are natural numbers.
    [parentDocumentId], [chunkIndex] and [chunkCount] are kept as they
    are given to [DocumentModel.create]. *)
Record Doc : Type := mkDoc {
  _id : nat;
  title : jsstring;
  content : jsstring;
  category : jsstring;
  tags : list jsstring;
  embedding : list number;
  uploadedBy : jsstring;
  isPublic : bool;
  isChunk : bool;
  parentDocumentId : option nat;
  chunkIndex : option nat;
  chunkCount : option nat
}.

(** A retrieval result, [IDocument & { similarity?: number }]. *)
Record Hit : Type := mkHit { doc : Doc; similarity : option number }.

Definition scored (p : Doc * number) : Hit := mkHit (fst p) (Some (snd p)).
Definition unscored (d : Doc) : Hit := mkHit d None.

Record Conversation : Type := mkConversation {
  conv_id : nat;
  conv_user : jsstring;
  conv_title : jsstring;
  lastMessage : jsstring
}.

Inductive Role : Type := user_role | model_role.

Record Chat : Type := mkChat {
  chat_user : jsstring;
  chat_conversation : option nat;
  role : Role;
  chat_text : jsstring
}.

(** *** Remote responses *)

(** The body of the embedding provider's reply
    ([VoyageEmbeddingResponse]); every level may be missing. *)
Record VoyageItem : Type := mkVoyageItem { item_embedding : option (list number) }.
Record VoyageEmbeddingResponse : Type := mkVoyageBody { data : option (list VoyageItem) }.
Record AxiosResponse : Type := mkAxios { response_data : option VoyageEmbeddingResponse }.

(** *** The world *)

Inductive DbOp : Type :=
| DocumentCreate | DocumentFindById | DocumentDeleteMany | DocumentDeleteOne
| ConversationFindOne | ConversationSave | ConversationCreate
| ChatCreate.

(** Everything observable outside the process, in order: the calls to
    the providers and to the database, and the [console.error] lines.
    [console.log] lines and the [timestamp] of a reply are left out. *)
Inductive Event : Type :=
| HttpEmbedding (input : jsstring)
| HttpGenerate (prompt : jsstring)
| AtlasVectorSearch (limit : nat)
| AtlasTextSearch (query : jsstring) (limit : nat)
| Db (op : DbOp)
| ConsoleError (label : jsstring).

(** A chunk task of [processAndSaveDocument] between its two halves:
    the callback of [chunks.map] has run up to its [await], and the rest
    of it runs when the reply to its embedding request arrives. The
    record holds what the callback closes over, and the clock at which
    the request went out ([None] when no request was made). *)
Record ChunkJob : Type := mkChunkJob {
  job_title : jsstring;
  job_userId : jsstring;
  job_category : option jsstring;
  job_tags : option (list jsstring);
  job_parent : nat;
  job_count : nat;
  job_chunk : Chunk;
  job_index : nat;
  job_sent : option nat
}.

(** The trace, the three collections of the database with the next
    object id, and the chunk tasks that are still running although the
    request that started them is over ([Promise.all] rejects at the first
    failure and stops no sibling). *)
Record World : Type := mkWorld {
  trace : list Event;
  documents : list Doc;
  conversations : list Conversation;
  chats : list Chat;
  nextId : nat;
  inFlight : list ChunkJob
}.

(** The clock: the number of events so far. *)
Definition clock (w : World) : nat := List.length (trace w).

(** The environment decides how each remote call ends; the first
    argument of every oracle is the clock at the call, so the same call
    may end differently each time. It also decides in which order
    tasks that are under way at the same time get on: [arrival t n] is
    the position, counted modulo [n], of the one that is heard of next
    among [n] tasks waiting at clock [t]. *)
Record Env : Type := mkEnv {
  voyageApiKey : jsstring;
  geminiApiKey : jsstring;
  voyage : nat -> jsstring -> Outcome AxiosResponse;
  atlasVectorSearch : nat -> list number -> nat -> Outcome (list (Doc * number));
  atlasFindSimilar : nat -> jsstring -> nat -> Outcome (list Doc);
  gemini : nat -> jsstring -> Outcome jsstring;
  dbError : nat -> option Error;
  arrival : nat -> nat -> nat
}.

Variable env : Env.

(** *** The monad: a world threaded through, exceptions that keep it *)

Definition M (A : Type) : Type := World -> Outcome A * World.

Definition ret {A} (a : A) : M A := fun w => (Ok a, w).

Definition bind {A B} (m : M A) (k : A -> M B) : M B :=
  fun w =>
    match m w with
    | (Ok a, w') => k a w'
    | (Throw e, w') => (Throw e, w')
    end.

Definition throw {A} (e : Error) : M A := fun w => (Throw e, w).

(** [try { m } catch (e) { h e }]. *)
Definition tryCatch {A} (m : M A) (h : Error -> M A) : M A :=
  fun w =>
    match m w with
    | (Ok a, w') => (Ok a, w')
    | (Throw e, w') => h e w'
    end.

Definition now : M nat := fun w => (Ok (clock w), w).

Definition emit (e : Event) : M unit :=
  fun w => (Ok tt, mkWorld (trace w ++ [e]) (documents w) (conversations w)
                           (chats w) (nextId w) (inFlight w)).

Definition liftOutcome {A} (o : Outcome A) : M A := fun w => (o, w).

Definition getWorld : M World := fun w => (Ok w, w).

Definition modify (f : World -> World) : M unit := fun w => (Ok tt, f w).

Notation "x <- m ;; k" := (bind m (fun x => k))
  (at level 61, m at next level, right associativity).
Notation "m ;;; k" := (bind m (fun _ => k))
  (at level 61, right associativity).

(** The marks that open the error lines of the source: a cross mark
    (U+274C), and a warning sign with its variation selector (U+26A0,
    U+FE0F). *)
Definition cross : jsstring := [10060%N].
Definition warning : jsstring := [9888%N; 65039%N].

(** [console.error(label, ...)]: only error lines are traced. *)
Definition consoleError (label : jsstring) : M unit := emit (ConsoleError label).

(** Calls made one after the other, each run as far as it goes by
    itself: what [array.map] does with an [async] callback, whose calls
    each return at their first [await]. *)
Fixpoint inTurn {A} (calls : list (M A)) : M (list A) :=
  match calls with
  | [] => ret []
  | call :: rest => a <- call ;; l <- inTurn rest ;; ret (a :: l)
  end.

(** [array.map((x, index) => f(x, index))]. *)
Fixpoint mapiFrom {A B} (f : A -> nat -> B) (i : nat) (l : list A) : list B :=
  match l with
  | [] => []
  | x :: r => f x i :: mapiFrom f (S i) r
  end.

Definition mapi {A B} (f : A -> nat -> B) (l : list A) : list B := mapiFrom f 0 l.

(** *** Remote calls *)

(** [axios.post('https://api.voyageai.com/v1/embeddings', ...)]. *)
Definition axiosPost (input : jsstring) : M AxiosResponse :=
  t <- now ;; emit (HttpEmbedding input) ;;; liftOutcome (voyage env t input).

(** [DocumentModel.vectorSearch]: every result carries a similarity. *)
Definition DocumentModel_vectorSearch (e : list number) (limit : nat) : M (list Hit) :=
  t <- now ;; emit (AtlasVectorSearch limit) ;;;
  r <- liftOutcome (atlasVectorSearch env t e limit) ;;
  ret (map scored r).

(** [DocumentModel.findSimilar]: plain documents, as revision
    20260214100540 declares what it returns ([Promise<IDocument[]>]). *)
Definition DocumentModel_findSimilar (query : jsstring) (limit : nat) : M (list Hit) :=
  t <- now ;; emit (AtlasTextSearch query limit) ;;;
  r <- liftOutcome (atlasFindSimilar env t query limit) ;;
  ret (map unscored r).

(** [model.generateContent(prompt)], then [result.response.text()]. *)
Definition generateContent (prompt : jsstring) : M jsstring :=
  t <- now ;; emit (HttpGenerate prompt) ;;; liftOutcome (gemini env t prompt).

(** One database round trip: it throws when the environment says so. *)
Definition dbCall (op : DbOp) : M unit :=
  t <- now ;; emit (Db op) ;;;
  match dbError env t with
  | Some e => throw e
  | None => ret tt
  end.

(* ------------------------------------------------------------------ *)
(** *** [RAGService] (backend/services/ragService.ts) *)
(* ------------------------------------------------------------------ *)

(** [response.data?.data?.[0]?.embedding], when truthy (an array always
    is, the empty one too). *)
Definition firstEmbedding (response : AxiosResponse) : option (list number) :=
  match response_data response with
  | Some body =>
      match data body with
      | Some (item :: _) => item_embedding item
      | _ => None
      end
  | None => None
  end.

Definition generateEmbedding (text : jsstring) : M (option (list number)) :=
  tryCatch
    (if JsString.isEmpty (voyageApiKey env) then ret None
     else
       response <- axiosPost text ;;
       match firstEmbedding response with
       | Some e => ret (Some e)
       | None => ret None
       end)
    (fun error =>
       consoleError (cross ++ js " Error generating embedding:") ;;; ret None).

(** [generateEmbedding] up to its [await]: with a key the request goes
    out, and the clock of the request is kept. *)
Definition sendEmbeddingRequest (text : jsstring) : M (option nat) :=
  if JsString.isEmpty (voyageApiKey env) then ret None
  else t <- now ;; emit (HttpEmbedding text) ;;; ret (Some t).

(** [generateEmbedding] from its [await] on, when the reply to the
    request sent at clock [sent] is there. *)
Definition receiveEmbedding (text : jsstring) (sent : option nat)
  : M (option (list number)) :=
  match sent with
  | None => ret None
  | Some t =>
      tryCatch
        (response <- liftOutcome (voyage env t text) ;;
         match firstEmbedding response with
         | Some e => ret (Some e)
         | None => ret None
         end)
        (fun error =>
           consoleError (cross ++ js " Error generating embedding:") ;;; ret None)
  end.

(** How the first half of [searchDocuments] ends: with an early
    [return results], or by falling through with the local [results]. *)
Inductive Flow (A : Type) : Type :=
| Return (a : A)
| Continue (results : A).
Arguments Return {A} a.
Arguments Continue {A} results.

Definition searchDocuments (query : jsstring) (embedding : option (list number))
  (limit : nat) : M (list Hit) :=
  let results : list Hit := [] in
  flow <- match embedding with
          | Some ((_ :: _) as e) =>
              tryCatch
                (results <- DocumentModel_vectorSearch e limit ;;
                 if 0 <? List.length results then ret (Return results)
                 else ret (Continue results))
                (fun error =>
                   consoleError
                     (warning
                      ++ js " Vector search failed, falling back to text search:") ;;;
                   ret (Continue results))
          | _ => ret (Continue results)
          end ;;
  match flow with
  | Return results => ret results
  | Continue results =>
      tryCatch
        (DocumentModel_findSimilar query limit)
        (fun error => consoleError (cross ++ js " Text search failed:") ;;; ret results)
  end.

Definition newline : jsstring := [10%N].
Definition quote : jsstring := [34%N].

(** One entry of [context.map((doc, index) => ...)] in [generateAnswer]. *)
Definition renderDocument (h : Hit) (index : nat) : jsstring :=
  let info :=
    match similarity h with
    | Some s =>
        if truthy s
        then js " (Relevance: " ++ toFixed (PrimFloat.mul s 100%float) 1 ++ js "%)"
        else []
    | None => []
    end in
  js "Document " ++ JsString.ofNat (index + 1) ++ js ": " ++ title (doc h) ++ info
  ++ newline ++ js "Content: " ++ truncateText (content (doc h)) 1000.

Definition noDocumentsText : jsstring :=
  js "No specific documents found in the database.".

Definition contextText (context : list Hit) : jsstring :=
  if 0 <? List.length context
  then JsString.join (newline ++ newline) (mapi renderDocument context)
  else noDocumentsText.

Definition systemLine : jsstring :=
  js "System: You are " ++ quote ++ [4824%N; 4709%N] ++ js " AI" ++ quote
  ++ js " (Zeb AI), the smart campus safety assistant for ASTU. Answer concisely and professionally.".

Definition instructionsLine : jsstring :=
  js "Instructions: Use the CONTEXT DOCUMENTS to answer the USER QUESTION. If you must use general knowledge, clearly state it's general advice. If this is an active emergency, give emergency contacts and safety guidance. Do NOT fabricate ASTU-specific facts. Cite document titles when possible.".

Definition buildPrompt (question : jsstring) (context : list Hit) : jsstring :=
  JsString.join (newline ++ newline)
    [ systemLine;
      instructionsLine;
      js "CONTEXT DOCUMENTS:" ++ newline ++ contextText context;
      js "USER QUESTION:" ++ newline ++ question ].

Definition generationFailed : Error :=
  newError (js "Failed to generate response from AI service.").

Definition generateAnswer (question : jsstring) (context : list Hit) : M jsstring :=
  tryCatch
    (let prompt := buildPrompt question context in
     text <- generateContent prompt ;;
     if JsString.isEmpty text || (JsString.length (JsString.trim text) =? 0)
     then throw (newError (js "Model returned an empty response"))
     else ret (JsString.trim text))
    (fun error =>
       consoleError (cross ++ js " Error generating AI response:") ;;;
       throw generationFailed).

Record RAGResponse : Type := mkRAGResponse {
  answer : jsstring;
  relevantDocs : list Hit
}.

Definition processQuestion (question : jsstring) : M RAGResponse :=
  embedding <- generateEmbedding question ;;
  relevantDocs <- searchDocuments question embedding 3 ;;
  answer <- generateAnswer question relevantDocs ;;
  ret (mkRAGResponse answer relevantDocs).


(* ------------------------------------------------------------------ *)
(** *** The stores behind the Mongoose models *)
(* ------------------------------------------------------------------ *)

Definition setDocuments (ds : list Doc) (w : World) : World :=
  mkWorld (trace w) ds (conversations w) (chats w) (nextId w) (inFlight w).

Definition setConversations (cs : list Conversation) (w : World) : World :=
  mkWorld (trace w) (documents w) cs (chats w) (nextId w) (inFlight w).

Definition setChats (ms : list Chat) (w : World) : World :=
  mkWorld (trace w) (documents w) (conversations w) ms (nextId w) (inFlight w).

(** A fresh object id. *)
Definition freshId : M nat :=
  fun w => (Ok (nextId w),
            mkWorld (trace w) (documents w) (conversations w) (chats w) (S (nextId w))
                    (inFlight w)).

(** [DocumentModel.create({ ... })]: the fields without the id. *)
Definition DocumentModel_create (fields : nat -> Doc) : M Doc :=
  dbCall DocumentCreate ;;;
  id <- freshId ;;
  modify (fun w => setDocuments (documents w ++ [fields id]) w) ;;;
  ret (fields id).

(** [DocumentModel.findById(id)]. *)
Definition DocumentModel_findById (id : nat) : M (option Doc) :=
  dbCall DocumentFindById ;;;
  w <- getWorld ;;
  ret (find (fun d => _id d =? id) (documents w)).

Definition isChunkOf (id : nat) (d : Doc) : bool :=
  match parentDocumentId d with
  | Some p => p =? id
  | None => false
  end.

(** [DocumentModel.deleteMany({ parentDocumentId: id })]. *)
Definition DocumentModel_deleteMany (id : nat) : M unit :=
  dbCall DocumentDeleteMany ;;;
  modify (fun w => setDocuments (filter (fun d => negb (isChunkOf id d)) (documents w)) w).

(** [document.deleteOne()]. *)
Definition deleteOne (document : Doc) : M unit :=
  dbCall DocumentDeleteOne ;;;
  modify (fun w => setDocuments (filter (fun d => negb (_id d =? _id document)) (documents w)) w).

(** [Conversation.findOne({ _id: id, user })]. *)
Definition Conversation_findOne (id : nat) (user : jsstring) : M (option Conversation) :=
  dbCall ConversationFindOne ;;;
  w <- getWorld ;;
  ret (find (fun c => (conv_id c =? id) && JsString.eqb (conv_user c) user) (conversations w)).

(** [conversation.save()]. *)
Definition save (conversation : Conversation) : M unit :=
  dbCall ConversationSave ;;;
  modify (fun w =>
    setConversations
      (map (fun c => if conv_id c =? conv_id conversation then conversation else c)
           (conversations w)) w).

(** [Conversation.create({ user, title, lastMessage })]. *)
Definition Conversation_create (user title last : jsstring) : M Conversation :=
  dbCall ConversationCreate ;;;
  id <- freshId ;;
  let c := mkConversation id user title last in
  modify (fun w => setConversations (conversations w ++ [c]) w) ;;;
  ret c.

(** [Chat.create({ user, conversation, role, text })]. *)
Definition Chat_create (user : jsstring) (conversation : option nat) (r : Role)
  (body : jsstring) : M unit :=
  dbCall ChatCreate ;;;
  modify (fun w => setChats (chats w ++ [mkChat user conversation r body]) w).

(* ------------------------------------------------------------------ *)
(** *** The chat controller (revision 20260214171145) *)
(* ------------------------------------------------------------------ *)

Record User : Type := mkUser { user_id : jsstring; email : jsstring }.

(** A value of the JSON body of a request, as far as the handlers look
    at it: a string, or a value of another kind, of which only the
    truthiness is tested (what an array or an object holds is never
    read). *)
Inductive JsonValue : Type :=
| JsonString (s : jsstring)
| JsonNumber (x : number)
| JsonBool (b : bool)
| JsonNull
| JsonArray
| JsonObject.

(** [req.user] and the two fields read from [req.body]. *)
Record AskRequest : Type := mkAskRequest {
  ask_user : option User;
  ask_question : option JsonValue;
  ask_conversationId : option nat
}.

(** One entry of [sources] in the reply. *)
Record Source : Type := mkSource {
  source_id : nat;
  source_title : jsstring;
  source_category : jsstring;
  source_similarity : option number;
  source_isChunk : bool;
  source_chunkIndex : option nat
}.

Definition toSource (h : Hit) : Source :=
  mkSource (_id (doc h)) (title (doc h)) (category (doc h)) (similarity h)
           (isChunk (doc h)) (chunkIndex (doc h)).

(** The JSON body of a reply, without [success]. *)
Inductive Payload : Type :=
| Failure (msg : jsstring) (error : option jsstring)
| Answered (question answer : jsstring) (conversationId : option nat)
           (sources : list Source)
| Done (msg : jsstring).

(** [res.status(status).json({ success, ... })]. *)
Record Response : Type := mkResponse {
  status : nat;
  success : bool;
  payload : Payload
}.

(** [!v]: a value is falsy when it is the empty string, [0], [NaN],
    [false] or [null]. *)
Definition falsy (v : JsonValue) : bool :=
  match v with
  | JsonString s => JsString.isEmpty s
  | JsonNumber x => negb (truthy x)
  | JsonBool b => negb b
  | JsonNull => true
  | JsonArray | JsonObject => false
  end.

(** The [TypeError] of [question.trim()] on a value that has no [trim]. *)
Definition trimIsNotAFunction : Error :=
  newError (js "question.trim is not a function").

(** [!question || question.trim().length === 0]: only a string has
    [trim], so a value of another kind that is not falsy throws. *)
Definition questionMissing (question : option JsonValue) : Outcome bool :=
  match question with
  | None => Ok true
  | Some (JsonString q) =>
      Ok (JsString.isEmpty q || (JsString.length (JsString.trim q) =? 0))
  | Some v => if falsy v then Ok true else Throw trimIsNotAFunction
  end.

(** The question once it passed that test: it is a string then. *)
Definition questionText (question : option JsonValue) : jsstring :=
  match question with
  | Some (JsonString q) => q
  | _ => []
  end.

(** [question.length > 50 ? question.substring(0, 47) + '...' : question]. *)
Definition conversationTitle (question : jsstring) : jsstring :=
  if 50 <? JsString.length question
  then JsString.substring question 0 47 ++ js "..."
  else question.

Definition setLastMessage (c : Conversation) (m : jsstring) : Conversation :=
  mkConversation (conv_id c) (conv_user c) (conv_title c) m.

(** The block under [// Handle Conversation], the same in both
    revisions: look the conversation up when an id came with the request
    and refresh its [lastMessage]; create one when none was found. It
    yields the [conversationId] of the reply. *)
Definition handleConversation (user : jsstring) (reqConversationId : option nat)
  (question answer : jsstring) : M (option nat) :=
  let conversationId := reqConversationId in
  conversation <-
    match conversationId with
    | Some cid =>
        found <- Conversation_findOne cid user ;;
        match found with
        | Some c =>
            let c' := setLastMessage c (JsString.substring answer 0 100) in
            save c' ;;; ret (Some c')
        | None => ret None
        end
    | None => ret None
    end ;;
  match conversation with
  | Some _ => ret conversationId
  | None =>
      let title := conversationTitle question in
      c <- Conversation_create user title (JsString.substring answer 0 100) ;;
      ret (Some (conv_id c))
  end.

(** The two writes under [// Save to Chat History], with their handler. *)
Definition saveChatHistory (user : jsstring) (conversationId : option nat)
  (question answer : jsstring) : M unit :=
  tryCatch
    (Chat_create user conversationId user_role question ;;;
     Chat_create user conversationId model_role answer)
    (fun dbError => consoleError (cross ++ js " Error saving chat history:")).

Definition askQuestion (req : AskRequest) : M Response :=
  tryCatch
    (match ask_user req with
     | None => ret (mkResponse 401 false (Failure (js "Not authorized") None))
     | Some user =>
         missing <- liftOutcome (questionMissing (ask_question req)) ;;
         if missing
         then ret (mkResponse 400 false (Failure (js "Please provide a question") None))
         else
           let question := questionText (ask_question req) in
           r <- processQuestion question ;;
           match r with
           | mkRAGResponse answer relevantDocs =>
               conversationId <-
                 handleConversation (user_id user) (ask_conversationId req)
                                    question answer ;;
               saveChatHistory (user_id user) conversationId question answer ;;;
               ret (mkResponse 200 true
                      (Answered question answer conversationId
                                (map toSource relevantDocs)))
           end
     end)
    (fun err =>
       consoleError (cross ++ js " Chat error:") ;;;
       ret (mkResponse 500 false
              (Failure (js "Error processing your question") (Some (message err))))).


(** What [processAndSaveDocument] returns: [chunksCreated] only when the
    document was split. *)
Record IngestResult : Type := mkIngestResult {
  result_id : nat;
  result_title : jsstring;
  result_category : jsstring;
  chunksCreated : option nat
}.

(** [{ id: d._id, title: d.title, category: d.category, chunksCreated }]. *)
Definition summary (d : Doc) (created : option nat) : IngestResult :=
  mkIngestResult (_id d) (title d) (category d) created.

(** [category || 'other'] (the parameter defaults to ['other'] too). *)
Definition categoryOrOther (category : option jsstring) : jsstring :=
  match category with
  | Some c => if JsString.isEmpty c then js "other" else c
  | None => js "other"
  end.

(** [tags || []]. *)
Definition tagsOrNone (tags : option (list jsstring)) : list jsstring :=
  match tags with
  | Some l => l
  | None => []
  end.

(** [embedding || []]. *)
Definition embeddingOrNone (embedding : option (list number)) : list number :=
  match embedding with
  | Some e => e
  | None => []
  end.

(** The title of chunk [i] of [n]: [`${title} (Chunk ${i + 1}/${n})`]. *)
Definition chunkTitle (title : jsstring) (i n : nat) : jsstring :=
  title ++ js " (Chunk " ++ JsString.ofNat (i + 1) ++ js "/" ++ JsString.ofNat n ++ js ")".

(** The object given to [DocumentModel.create] for the parent of a split
    document: no embedding, [chunkCount] set. *)
Definition parentRecord (title cleanedContent userId : jsstring)
  (category : option jsstring) (tags : option (list jsstring)) (count id : nat) : Doc :=
  mkDoc id title cleanedContent (categoryOrOther category) (tagsOrNone tags)
        [] userId true false None None (Some count).

(** The object given to [DocumentModel.create] for chunk number [i]. *)
Definition chunkRecord (title userId : jsstring) (category : option jsstring)
  (tags : option (list jsstring)) (parent count : nat) (chunk : Chunk) (i : nat)
  (embedding : option (list number)) (id : nat) : Doc :=
  mkDoc id (chunkTitle title i count) (text chunk) (categoryOrOther category)
        (tagsOrNone tags) (embeddingOrNone embedding) userId true true
        (Some parent) (Some (index chunk)) (Some count).

(** The object given to [DocumentModel.create] for a document stored
    whole. *)
Definition singleRecord (title cleanedContent userId : jsstring)
  (category : option jsstring) (tags : option (list jsstring))
  (embedding : option (list number)) (id : nat) : Doc :=
  mkDoc id title cleanedContent (categoryOrOther category) (tagsOrNone tags)
        (embeddingOrNone embedding) userId true false None None None.

(** The callback of [chunks.map(async (chunk, index) => ...)] up to its
    [await]: [generateEmbedding] is entered and sends its request. *)
Definition startChunkTask (title userId : jsstring) (category : option jsstring)
  (tags : option (list jsstring)) (parent count : nat) (chunk : Chunk) (i : nat)
  : M ChunkJob :=
  sent <- sendEmbeddingRequest (text chunk) ;;
  ret (mkChunkJob title userId category tags parent count chunk i sent).

(** The rest of the callback, run when the reply is there:
    [generateEmbedding] returns and the chunk is written. *)
Definition finishChunkTask (job : ChunkJob) : M Doc :=
  embedding <- receiveEmbedding (text (job_chunk job)) (job_sent job) ;;
  DocumentModel_create
    (chunkRecord (job_title job) (job_userId job) (job_category job) (job_tags job)
                 (job_parent job) (job_count job) (job_chunk job) (job_index job)
                 embedding).

(** The callback run in one go, as when nothing else is under way. *)
Definition chunkTask (title userId : jsstring) (category : option jsstring)
  (tags : option (list jsstring)) (parent count : nat) (chunk : Chunk) (i : nat) : M Doc :=
  job <- startChunkTask title userId category tags parent count chunk i ;;
  finishChunkTask job.

(** The position of the task that is heard of next among [n] that are
    under way. Each waits for the reply to its embedding request and then
    for the database; which one gets there first is for the environment
    to decide. *)
Definition heardNext (t n : nat) : nat := arrival env t n mod n.

Definition removeAt {A} (i : nat) (l : list A) : list A := firstn i l ++ skipn (S i) l.

Definition setInFlight (jobs : list ChunkJob) (w : World) : World :=
  mkWorld (trace w) (documents w) (conversations w) (chats w) (nextId w) jobs.

(** [await Promise.all(chunkPromises)] on tasks that have all started:
    they finish one by one as they are heard of. The first rejection
    resumes the caller with its error at once; the tasks not heard of by
    then stay in flight. [fuel] bounds the number of tasks. *)
Fixpoint settleAll (fuel : nat) (waiting : list ChunkJob) : M unit :=
  match fuel with
  | 0 => ret tt
  | S fuel' =>
      t <- now ;;
      let i := heardNext t (List.length waiting) in
      match nth_error waiting i with
      | None => ret tt
      | Some job =>
          let others := removeAt i waiting in
          tryCatch
            (finishChunkTask job ;;; ret tt)
            (fun e => modify (fun w => setInFlight (inFlight w ++ others) w) ;;; throw e) ;;;
          settleAll fuel' others
      end
  end.

Definition promiseAll (chunkPromises : list ChunkJob) : M unit :=
  settleAll (List.length chunkPromises) chunkPromises.

(** A task in flight is heard of and finishes. Nobody awaits it any
    more: when its write fails the rejection goes unnoticed. *)
Definition settleInFlight : M unit :=
  w <- getWorld ;;
  let i := heardNext (clock w) (List.length (inFlight w)) in
  match nth_error (inFlight w) i with
  | None => ret tt
  | Some job =>
      modify (setInFlight (removeAt i (inFlight w))) ;;;
      tryCatch (finishChunkTask job ;;; ret tt) (fun e => ret tt)
  end.

Definition processAndSaveDocument (title content userId : jsstring)
  (category : option jsstring) (tags : option (list jsstring)) : M IngestResult :=
  let cleanedContent := cleanText content in
  let needsChunking := 2000 <? JsString.length cleanedContent in
  if needsChunking then
    let chunks := chunkText cleanedContent 1000 200 in
    parentDoc <- DocumentModel_create
                   (parentRecord title cleanedContent userId category tags
                                 (List.length chunks)) ;;
    chunkPromises <-
      inTurn (mapi (startChunkTask title userId category tags (_id parentDoc)
                                   (List.length chunks))
                   chunks) ;;
    promiseAll chunkPromises ;;;
    ret (summary parentDoc (Some (List.length chunks)))
  else
    embedding <- generateEmbedding cleanedContent ;;
    document <- DocumentModel_create
                  (singleRecord title cleanedContent userId category tags embedding) ;;
    ret (summary document None).

(** [processAndSaveDocument] of a document that is split, as far as its
    [await Promise.all(chunkPromises)]: the parent is written and every
    chunk task has sent its request. While the handler waits there the
    tasks are in flight and the server takes other requests; what the
    handler does once it is resumed touches no store. *)
Definition processAndSaveDocument_upToAwait (title content userId : jsstring)
  (category : option jsstring) (tags : option (list jsstring)) : M unit :=
  let cleanedContent := cleanText content in
  let chunks := chunkText cleanedContent 1000 200 in
  parentDoc <- DocumentModel_create
                 (parentRecord title cleanedContent userId category tags
                               (List.length chunks)) ;;
  chunkPromises <-
    inTurn (mapi (startChunkTask title userId category tags (_id parentDoc)
                                 (List.length chunks))
                 chunks) ;;
  modify (fun w => setInFlight (inFlight w ++ chunkPromises) w).

Record DeleteRequest : Type := mkDeleteRequest {
  delete_user : option User;
  delete_id : nat
}.

(** [!document.isChunk && document.chunkCount && document.chunkCount > 0]. *)
Definition isParentWithChunks (document : Doc) : bool :=
  negb (isChunk document) &&
  match chunkCount document with
  | Some n => 0 <? n
  | None => false
  end.

Definition deleteDocument (req : DeleteRequest) : M Response :=
  tryCatch
    (let id := delete_id req in
     match delete_user req with
     | None => ret (mkResponse 401 false (Failure (js "Not authorized") None))
     | Some _ =>
         document <- DocumentModel_findById id ;;
         match document with
         | None => ret (mkResponse 404 false (Failure (js "Document not found") None))
         | Some document =>
             (if isParentWithChunks document
              then DocumentModel_deleteMany id
              else ret tt) ;;;
             deleteOne document ;;;
             ret (mkResponse 200 true (Done (js "Document deleted successfully")))
         end
     end)
    (fun err =>
       consoleError (cross ++ js " Delete document error:") ;;;
       ret (mkResponse 500 false
              (Failure (js "Error deleting document") (Some (message err))))).


(* ------------------------------------------------------------------ *)
(** *** The chat controller, revision 20260214100540

    The earlier revision carries its own pipeline instead of calling
    [RAGService]. *)
(* ------------------------------------------------------------------ *)

Definition generateEmbedding_rev100540 (text : jsstring) : M (option (list number)) :=
  tryCatch
    (response <- axiosPost text ;;
     match response_data response with
     | Some body =>
         match data body with
         | Some (item :: _) =>
             match item_embedding item with
             | Some embedding => ret (Some embedding)
             | None =>
                 (* [embedding.length] of [undefined] in the log line *)
                 throw (newError (js "Cannot read properties of undefined"))
             end
         | _ => throw (newError (js "Invalid response from Voyage AI"))
         end
     | None => throw (newError (js "Invalid response from Voyage AI"))
     end)
    (fun err =>
       consoleError (cross ++ js " Error generating embedding:") ;;;
       (if response err then consoleError (js "Voyage AI API error:") else ret tt) ;;;
       ret None).

Definition findRelevantDocumentsByEmbedding (queryEmbedding : list number)
  (limit : nat) : M (list Hit) :=
  tryCatch
    (DocumentModel_vectorSearch queryEmbedding limit)
    (fun error =>
       consoleError (cross ++ js " Error in findRelevantDocumentsByEmbedding:") ;;; ret []).

Definition findRelevantDocuments (query : jsstring) (limit : nat) : M (list Hit) :=
  tryCatch
    (found <- DocumentModel_findSimilar query limit ;;
     if 0 <? List.length found then ret found else ret [])
    (fun error => consoleError (cross ++ js " Error finding relevant documents:") ;;; ret []).

(** One pass of [context.forEach((doc, index) => contextText += ...)]. *)
Definition renderDocument_rev100540 (h : Hit) (index : nat) : jsstring :=
  let similarityInfo :=
    match similarity h with
    | Some s =>
        if truthy s
        then js " (Relevance: " ++ toFixed (PrimFloat.mul s 100%float) 1 ++ js "%)"
        else []
    | None => []
    end in
  let contentPreview := truncateText (content (doc h)) 500 in
  newline ++ JsString.ofNat (index + 1) ++ js ". " ++ title (doc h) ++ similarityInfo
  ++ newline ++ contentPreview ++ newline.

Definition contextText_rev100540 (context : list Hit) : jsstring :=
  if 0 <? List.length context
  then newline ++ newline ++ js "Relevant Information from Campus Safety Documents:"
       ++ newline ++ List.concat (mapi renderDocument_rev100540 context)
  else [].

(** The text of the two [promptParts], in order. *)
Definition buildPrompt_rev100540 (question : jsstring) (context : list Hit) : jsstring :=
  let contextText := contextText_rev100540 context in
  (if JsString.isEmpty contextText then []
   else newline ++ newline ++ js "CONTEXT:" ++ newline ++ contextText)
  ++ newline ++ newline ++ js "STUDENT QUESTION: " ++ question.

Definition generateAIResponse (question : jsstring) (context : list Hit) : M jsstring :=
  tryCatch
    (if JsString.isEmpty (geminiApiKey env)
     then throw (newError (js "GEMINI_API_KEY is missing from environment variables"))
     else generateContent (buildPrompt_rev100540 question context))
    (fun err =>
       consoleError (cross ++ js " ERROR in generateAIResponse:") ;;;
       consoleError (js "   Message:") ;;;
       ret (js "(DEBUG MODE) Error generating response: " ++ message err
            ++ js ". Please check backend logs for details.")).

(** [question.length > 1000]. *)
Definition questionTooLong (question : jsstring) : bool :=
  1000 <? JsString.length question.

Definition askQuestion_rev100540 (req : AskRequest) : M Response :=
  tryCatch
    (match ask_user req with
     | None => ret (mkResponse 401 false (Failure (js "Not authorized") None))
     | Some user =>
         missing <- liftOutcome (questionMissing (ask_question req)) ;;
         if missing
         then ret (mkResponse 400 false (Failure (js "Please provide a question") None))
         else
           let question := questionText (ask_question req) in
           if questionTooLong question
           then ret (mkResponse 400 false
                       (Failure (js "Question is too long (max 1000 characters)") None))
           else
             queryEmbedding <- generateEmbedding_rev100540 question ;;
             relevantDocs <-
               match queryEmbedding with
               | Some ((_ :: _) as e) => findRelevantDocumentsByEmbedding e 3
               | _ => findRelevantDocuments question 3
               end ;;
             aiResponse <- generateAIResponse question relevantDocs ;;
             conversationId <-
               handleConversation (user_id user) (ask_conversationId req)
                                  question aiResponse ;;
             saveChatHistory (user_id user) conversationId question aiResponse ;;;
             ret (mkResponse 200 true
                    (Answered question aiResponse conversationId
                              (map toSource relevantDocs)))
     end)
    (fun err =>
       consoleError (cross ++ js " Chat error:") ;;;
       ret (mkResponse 500 false
              (Failure (js "Error processing your question") (Some (message err))))).


(* ------------------------------------------------------------------ *)
(** *** The other handlers of the controller (revision 20260214171145)

    [uploadDocument], [uploadFile], [getChatHistory], [getConversations],
    [getConversationMessages] and [deleteConversation]. *)
(* ------------------------------------------------------------------ *)

(** The reply of a handler that may carry data: the status, then the
    keys [success], [message], [error] and [data] of the JSON body, the
    last three when present. *)
Record Reply (A : Type) : Type := mkReply {
  reply_status : nat;
  reply_success : bool;
  reply_message : option jsstring;
  reply_error : option jsstring;
  reply_data : option A
}.
#[global] Arguments mkReply {A} _ _ _ _ _.
#[global] Arguments reply_status {A} _.
#[global] Arguments reply_success {A} _.
#[global] Arguments reply_message {A} _.
#[global] Arguments reply_error {A} _.
#[global] Arguments reply_data {A} _.

(** [!x] for a field that is a string when it is there. *)
Definition absent (x : option jsstring) : bool :=
  match x with
  | None => true
  | Some s => JsString.isEmpty s
  end.

(** [a || b] on strings. *)
Definition orElse (a : option jsstring) (b : jsstring) : jsstring :=
  match a with
  | Some s => if JsString.isEmpty s then b else s
  | None => b
  end.

(** [req.user] and the fields [uploadDocument] reads from [req.body]. *)
Record UploadRequest : Type := mkUploadRequest {
  upload_user : option User;
  upload_title : option jsstring;
  upload_content : option jsstring;
  upload_category : option jsstring;
  upload_tags : option (list jsstring)
}.

Definition uploadDocument (req : UploadRequest) : M (Reply IngestResult) :=
  tryCatch
    (match upload_user req with
     | None => ret (mkReply 401 false (Some (js "Not authorized")) None None)
     | Some user =>
         if absent (upload_title req) || absent (upload_content req)
         then ret (mkReply 400 false (Some (js "Please provide title and content"))
                           None None)
         else
           let title := match upload_title req with Some s => s | None => [] end in
           let content := match upload_content req with Some s => s | None => [] end in
           result <- processAndSaveDocument title content (user_id user)
                       (upload_category req) (upload_tags req) ;;
           ret (mkReply 201 true (Some (js "Document uploaded successfully")) None
                        (Some result))
     end)
    (fun err =>
       consoleError (cross ++ js " Document upload error:") ;;;
       ret (mkReply 500 false (Some (js "Error uploading document"))
                    (Some (message err)) None)).

(** [req.file] as the upload middleware leaves it. *)
Record UploadedFile : Type := mkUploadedFile {
  originalname : jsstring;
  mimetype : option jsstring;
  buffer : option (list Byte.byte)
}.

Record FileRequest : Type := mkFileRequest {
  file_user : option User;
  file : option UploadedFile;
  file_title : option jsstring;
  file_category : option jsstring;
  file_tags : option (list jsstring)
}.

(** [!file.buffer || file.buffer.length === 0]. *)
Definition bufferEmpty (b : option (list Byte.byte)) : bool :=
  match b with
  | Some (_ :: _) => false
  | _ => true
  end.

(** [extractTextFromFile] of [utils/textProcessing], taken as it is
    called: from the buffer and the type of the file to its text, or an
    exception. *)
Variable extractTextFromFile : option (list Byte.byte) -> jsstring -> Outcome jsstring.

Definition uploadFile (req : FileRequest) : M (Reply IngestResult) :=
  tryCatch
    (match file_user req with
     | None => ret (mkReply 401 false (Some (js "Not authorized")) None None)
     | Some user =>
         match file req with
         | None => ret (mkReply 400 false (Some (js "Please upload a file")) None None)
         | Some file =>
             (if bufferEmpty (buffer file)
              then consoleError (cross ++ js " File buffer is empty!")
              else ret tt) ;;;
             content <- liftOutcome
                          (extractTextFromFile (buffer file)
                             (orElse (mimetype file) (originalname file))) ;;
             if JsString.isEmpty content || (JsString.length (JsString.trim content) =? 0)
             then ret (mkReply 400 false
                         (Some (js "Could not extract text from the uploaded file"))
                         None None)
             else
               let title := orElse (file_title req) (originalname file) in
               result <- processAndSaveDocument title content (user_id user)
                           (file_category req) (file_tags req) ;;
               ret (mkReply 201 true
                      (Some (js "File uploaded and processed successfully")) None
                      (Some result))
         end
     end)
    (fun error =>
       consoleError (cross ++ js " File upload error:") ;;;
       ret (mkReply 500 false (Some (js "Error processing uploaded file"))
                    (Some (message error)) None)).

(** The queries of the reading handlers and the two deletes of
    [deleteConversation]. The trace does not record them; each throws
    when [queryError] says so at the clock of the call. *)
Inductive Query : Type :=
| ChatFind | ChatDeleteMany | ConversationFind | ConversationDeleteOne.

Variable queryError : Query -> nat -> option Error.

Definition queryCall (q : Query) : M unit :=
  t <- now ;;
  match queryError q t with
  | Some e => throw e
  | None => ret tt
  end.

(** [.sort({ timestamp: 1 })] on messages and [.sort({ updatedAt: -1 })]
    on conversations. Neither field is kept in the stores here, so the
    two orders are taken as given. *)
Variable byTimestamp : list Chat -> list Chat.
Variable byUpdatedAt : list Conversation -> list Conversation.

(** [Chat.find(filter).sort({ timestamp: 1 })], with [.limit(n)] when
    there is one. *)
Definition Chat_find (p : Chat -> bool) (limit : option nat) : M (list Chat) :=
  queryCall ChatFind ;;;
  w <- getWorld ;;
  let sorted := byTimestamp (filter p (chats w)) in
  ret (match limit with
       | Some n => firstn n sorted
       | None => sorted
       end).

(** [Conversation.find({ user }).sort({ updatedAt: -1 })]. *)
Definition Conversation_find (user : jsstring) : M (list Conversation) :=
  queryCall ConversationFind ;;;
  w <- getWorld ;;
  ret (byUpdatedAt (filter (fun c => JsString.eqb (conv_user c) user) (conversations w))).

(** The filter [{ conversation: id }] on messages. *)
Definition inConversation (id : nat) (m : Chat) : bool :=
  match chat_conversation m with
  | Some c => c =? id
  | None => false
  end.



(** One entry of [messages] in a reply: the role and the text (the
    timestamp is left out). *)
Record MessageView : Type := mkMessageView { view_role : Role; view_text : jsstring }.

Definition toView (m : Chat) : MessageView := mkMessageView (role m) (chat_text m).

Definition getChatHistory (user : option User) : M (Reply (list MessageView)) :=
  tryCatch
    (match user with
     | None => ret (mkReply 401 false (Some (js "Not authorized")) None None)
     | Some user =>
         history <- Chat_find (fun m => JsString.eqb (chat_user m) (user_id user))
                              (Some 50) ;;
         ret (mkReply 200 true None None (Some (map toView history)))
     end)
    (fun err =>
       consoleError (cross ++ js " Get history error:") ;;;
       ret (mkReply 500 false (Some (js "Error fetching chat history"))
                    (Some (message err)) None)).

Definition getConversations (user : option User) : M (Reply (list Conversation)) :=
  tryCatch
    (match user with
     | None => ret (mkReply 401 false (Some (js "Not authorized")) None None)
     | Some user =>
         conversations <- Conversation_find (user_id user) ;;
         ret (mkReply 200 true None None (Some conversations))
     end)
    (fun err =>
       consoleError (cross ++ js " Get conversations error:") ;;;
       ret (mkReply 500 false (Some (js "Failed to access " ++ [4824%N; 4709%N] ++ js " AI"))
                    (Some (message err)) None)).

(** [req.user] and [req.params.id] of the two conversation routes. *)
Record ConversationRequest : Type := mkConversationRequest {
  conversation_user : option User;
  conversation_id : nat
}.

Definition getConversationMessages (req : ConversationRequest)
  : M (Reply (list MessageView)) :=
  tryCatch
    (match conversation_user req with
     | None => ret (mkReply 401 false (Some (js "Not authorized")) None None)
     | Some user =>
         let id := conversation_id req in
         conversation <- Conversation_findOne id (user_id user) ;;
         match conversation with
         | None => ret (mkReply 404 false (Some (js "Conversation not found")) None None)
         | Some _ =>
             messages <- Chat_find (inConversation id) None ;;
             ret (mkReply 200 true None None (Some (map toView messages)))
         end
     end)
    (fun err =>
       consoleError (cross ++ js " Get conversation messages error:") ;;;
       ret (mkReply 500 false (Some (js "Error fetching messages"))
                    (Some (message err)) None)).


(* ------------------------------------------------------------------ *)
(** *** Earlier revisions of the service

    [GeminiService] (services/geminiService.ts, revision
    20260214193255), and [RAGService] in revisions 20260214184200 and
    20260214175556 of services/ragService.ts. *)
(* ------------------------------------------------------------------ *)

(** [GeminiService.generateContent]: the model is not there when the key
    is missing; an error of the provider is replaced by one of two fixed
    errors. *)
Definition GeminiService_generateContent (prompt : jsstring) : M jsstring :=
  if JsString.isEmpty (geminiApiKey env)
  then throw (newError (js "Gemini model is not initialized (missing API key)."))
  else
    tryCatch
      (generateContent prompt)
      (fun error =>
         consoleError (cross ++ js " Gemini API Error:") ;;;
         if JsString.includes (js "404") (message error)
         then throw (newError
                       (js "Model gemini-2.5-flash not found. Ensure your API Key supports it."))
         else throw (newError (js "Failed to generate content from Gemini."))).

Definition generateEmbedding_rev184200 (text : jsstring) : M (option (list number)) :=
  tryCatch
    (if JsString.isEmpty (voyageApiKey env)
     then consoleError (cross ++ js " Voyage API Key missing.") ;;; ret None
     else
       response <- axiosPost text ;;
       match firstEmbedding response with
       | Some e => ret (Some e)
       | None => ret None
       end)
    (fun error =>
       consoleError (cross ++ js " Error generating embedding:") ;;; ret None).

Definition contextText_rev184200 (context : list Hit) : jsstring :=
  if 0 <? List.length context
  then JsString.join (newline ++ newline) (mapi renderDocument context)
  else js "No specific documents found in the database. Answer based on general safety knowledge.".

(** The template literal of the prompt, line by line. *)
Definition buildPrompt_rev184200 (question : jsstring) (context : list Hit) : jsstring :=
  js "You are " ++ quote ++ [4824%N; 4709%N] ++ js " AI" ++ quote
  ++ js " (Zeb AI), the smart campus safety assistant for ASTU." ++ newline
  ++ newline
  ++ js "CONTEXT DOCUMENTS:" ++ newline
  ++ contextText_rev184200 context ++ newline
  ++ newline
  ++ js "USER QUESTION:" ++ newline
  ++ question ++ newline
  ++ newline
  ++ js "INSTRUCTIONS:" ++ newline
  ++ js "1. Answer strictly based on the provided context if possible." ++ newline
  ++ js "2. If the answer is not in the context, state that you don't have that information in your internal records, but provide general safety advice if applicable."
  ++ newline
  ++ js "3. Be professional and concise." ++ newline.

Definition apology_rev184200 : jsstring :=
  js "I apologize, I am unable to generate a response at this time due to a service error.".

(** [generateAnswer] of revision 20260214184200. The service it calls is
    imported from [./geminiService]; its [generateContent] is an
    argument here. *)
Definition generateAnswer_rev184200 (geminiService_generateContent : jsstring -> M jsstring)
  (question : jsstring) (context : list Hit) : M jsstring :=
  let prompt := buildPrompt_rev184200 question context in
  tryCatch
    (geminiService_generateContent prompt)
    (fun err =>
       consoleError (cross ++ js " Failed to generate answer:") ;;;
       ret apology_rev184200).

Definition processQuestion_rev184200 (geminiService_generateContent : jsstring -> M jsstring)
  (question : jsstring) : M RAGResponse :=
  embedding <- generateEmbedding_rev184200 question ;;
  relevantDocs <- searchDocuments question embedding 3 ;;
  answer <- generateAnswer_rev184200 geminiService_generateContent question relevantDocs ;;
  ret (mkRAGResponse answer relevantDocs).

(** One entry of [context.map((doc, index) => ...)] in revision
    20260214175556. *)
Definition renderDocument_rev175556 (h : Hit) (index : nat) : jsstring :=
  let similarityInfo :=
    match similarity h with
    | Some s =>
        if truthy s
        then js " (Relevance: " ++ toFixed (PrimFloat.mul s 100%float) 1 ++ js "%)"
        else []
    | None => []
    end in
  let safeContent := truncateText (content (doc h)) 1500 in
  js "SOURCE DOCUMENT " ++ JsString.ofNat (index + 1) ++ js ":" ++ newline
  ++ js "Title: " ++ title (doc h) ++ newline
  ++ js "Category: " ++ category (doc h) ++ similarityInfo ++ newline
  ++ js "Content:" ++ newline
  ++ safeContent ++ newline
  ++ js "--------------------------------".

Definition contextText_rev175556 (context : list Hit) : jsstring :=
  if 0 <? List.length context
  then JsString.join (newline ++ newline) (mapi renderDocument_rev175556 context)
  else js "No specific internal documents found. Answer based on general safety knowledge if applicable, but disclaim that it might not be ASTU specific.".

Definition buildPrompt_rev175556 (question : jsstring) (context : list Hit) : jsstring :=
  js "You are " ++ quote ++ [4824%N; 4709%N] ++ js " AI" ++ quote
  ++ js " (Zeb AI), the specialized campus safety assistant for ASTU (Addis Science and Technology University)."
  ++ newline
  ++ newline
  ++ js "YOUR GOAL: Provide accurate, helpful, and safety-focused answers to students and staff."
  ++ newline
  ++ newline
  ++ js "CONTEXT:" ++ newline
  ++ contextText_rev175556 context ++ newline
  ++ newline
  ++ js "USER QUESTION:" ++ newline
  ++ question ++ newline
  ++ newline
  ++ js "INSTRUCTIONS:" ++ newline
  ++ js "1. USE THE CONTEXT: Base your answer primarily on the provided " ++ quote
  ++ js "SOURCE DOCUMENT" ++ quote ++ js " sections." ++ newline
  ++ js "2. CITATIONS: When using information from a document, mention its title (e.g., "
  ++ quote ++ js "According to the 'Fire Safety Protocol'..." ++ quote ++ js ")." ++ newline
  ++ js "3. NO CONTEXT: If the provided documents do not contain the answer, say " ++ quote
  ++ js "I couldn't find specific information about that in my internal database," ++ quote
  ++ js " and then provide a general responsible safety answer if possible, or advise contacting Campus Security."
  ++ newline
  ++ js "4. EMERGENCY: If the query indicates an immediate threat (fire, assault, medical), IGNORE context and IMMEDIATELY provide emergency instructions and numbers (ASTU Security, Ambulance, Police)."
  ++ newline
  ++ js "5. TONE: Professional, reassuring, and concise. Avoid Markdown formatting for headers unless necessary. Use bullet points for steps."
  ++ newline
  ++ js "6. LANGUAGE: Answer in the same language as the user's question (English or Amharic)."
  ++ newline.

(** [generateAnswer] of revision 20260214175556: [this.genAI] is null
    when the key is missing. *)
Definition generateAnswer_rev175556 (question : jsstring) (context : list Hit) : M jsstring :=
  if JsString.isEmpty (geminiApiKey env)
  then ret (js "system: I cannot answer right now because the AI service is not configured (Missing API Key).")
  else
    tryCatch
      (let prompt := buildPrompt_rev175556 question context in
       text <- generateContent prompt ;;
       if JsString.isEmpty text
       then ret (js "I apologize, but I couldn't generate a response at this time.")
       else ret text)
      (fun error =>
         consoleError (cross ++ js " Gemini generation error:") ;;;
         ret (js "I encountered an error while processing your request. Please try again later or contact support.")).

(* ================================================================== *)
(** ** Vocabulary of the properties *)
(* ================================================================== *)

(** What the text-search path alone yields when called at clock [t]. *)
Definition textSearchAt (t : nat) (query : jsstring) (limit : nat) : list Hit :=
  match atlasFindSimilar env t query limit with
  | Ok found => map unscored found
  | Throw _ => []
  end.

(** Vector search gives nothing at clock [t]: no usable embedding, an
    empty result, or an exception. *)
Definition vectorUnavailable (t : nat) (embedding : option (list number))
  (limit : nat) : bool :=
  match embedding with
  | Some ((_ :: _) as e) =>
      match atlasVectorSearch env t e limit with
      | Ok (_ :: _) => false
      | _ => true
      end
  | _ => true
  end.

(** The clock at which the fallback query is sent: after the vector
    query, and after the error line when that query threw. *)
Definition fallbackClock (t : nat) (embedding : option (list number))
  (limit : nat) : nat :=
  match embedding with
  | Some ((_ :: _) as e) =>
      match atlasVectorSearch env t e limit with
      | Ok _ => t + 1
      | Throw _ => t + 2
      end
  | _ => t
  end.

(** [x] occurs in [s] as a contiguous run of code units. *)
Definition occursIn (x s : jsstring) : Prop :=
  exists before after, s = before ++ x ++ after.

(** The trace of [w'] continues the trace of [w]. *)
Definition extends (w w' : World) : Prop :=
  exists events, trace w' = trace w ++ events.

(** A world that only gained the events [events]. *)
Definition logged (events : list Event) (w : World) : World :=
  mkWorld (trace w ++ events) (documents w) (conversations w) (chats w) (nextId w)
          (inFlight w).

(** A computation that touches no store: whatever it yields, the world
    it leaves is the one it found plus some events. *)
Definition onlyLogs {A} (m : M A) : Prop :=
  forall w, exists o events, m w = (o, logged events w).

(** A computation that touches no store and never throws. *)
Definition quietTotal {A} (m : M A) : Prop :=
  forall w, exists a events, m w = (Ok a, logged events w).

(** What the embedding call made at clock [t] comes to. *)
Definition embeddingAt (t : nat) (text : jsstring) : option (list number) :=
  if JsString.isEmpty (voyageApiKey env) then None
  else match voyage env t text with
       | Ok response => firstEmbedding response
       | Throw _ => None
       end.

(** The record [d] holds what the embedding provider replied to the
    request for [text] made at clock [t]: the first embedding of the
    reply as it came, or none when there is no key, when the call threw
    or when the reply carries no embedding. *)
Definition holdsEmbeddingOf (t : nat) (text : jsstring) (d : Doc) : Prop :=
  (forall response e,
     JsString.isEmpty (voyageApiKey env) = false ->
     voyage env t text = Ok response -> firstEmbedding response = Some e ->
     embedding d = e)
  /\ (JsString.isEmpty (voyageApiKey env) = true -> embedding d = [])
  /\ (forall err, voyage env t text = Throw err -> embedding d = [])
  /\ (forall response,
        voyage env t text = Ok response -> firstEmbedding response = None ->
        embedding d = []).

(** The generation provider is of no use: the call threw, or the text is
    empty or blank. *)
Definition generationFails (o : Outcome jsstring) : bool :=
  match o with
  | Throw _ => true
  | Ok text => JsString.isEmpty text || (JsString.length (JsString.trim text) =? 0)
  end.

(** A call to the generation provider. *)
Definition isGenerate (e : Event) : bool :=
  match e with
  | HttpGenerate _ => true
  | _ => false
  end.

(** One of the two message writes issued from [w] throws. *)
Definition chatWriteFails (w : World) : bool :=
  match dbError env (clock w) with
  | Some _ => true
  | None =>
      match dbError env (S (clock w)) with
      | Some _ => true
      | None => false
      end
  end.

Definition chatHistoryLabel : jsstring := cross ++ js " Error saving chat history:".

(** The conversation [handleConversation] creates under a fresh id. *)
Definition newConversation (fresh : nat) (user question answer : jsstring) : Conversation :=
  mkConversation fresh user (conversationTitle question)
                 (JsString.substring answer 0 100).

(** [w'] is [w] with the documents [docs] appended, one fresh id each,
    and a longer trace. *)
Definition appended (docs : list Doc) (w w' : World) : Prop :=
  documents w' = documents w ++ docs
  /\ conversations w' = conversations w
  /\ chats w' = chats w
  /\ nextId w' = nextId w + List.length docs
  /\ clock w <= clock w'.

(** A computation that never touches the documents or the tasks in
    flight, and never takes an id back. *)
Definition keepsDocuments {A} (m : M A) : Prop :=
  forall w o w', m w = (o, w') ->
    documents w' = documents w /\ nextId w <= nextId w' /\ inFlight w' = inFlight w.

(** Ids are below the next fresh one, parents too, and whatever is
    pointed at as a parent, by a chunk in the store or by a task in
    flight, is a non-chunk document with a positive [chunkCount]. *)
Definition wellFormed (w : World) : Prop :=
  (forall d, In d (documents w) -> _id d < nextId w)
  /\ (forall d p, In d (documents w) -> parentDocumentId d = Some p -> p < nextId w)
  /\ (forall c d, In c (documents w) -> In d (documents w) ->
        parentDocumentId c = Some (_id d) -> isParentWithChunks d = true)
  /\ (forall job, In job (inFlight w) -> job_parent job < nextId w)
  /\ (forall job d, In job (inFlight w) -> In d (documents w) ->
        _id d = job_parent job -> isParentWithChunks d = true).

(** What an ingestion does to the store, whole or as far as its
    [await]: it adds documents under fresh ids, of which those that point
    at a parent point at the first, and leaves tasks in flight for that
    parent only, which is in the store then with a positive
    [chunkCount]. *)
Definition grows (w w' : World) : Prop :=
  exists docs left,
    documents w' = documents w ++ docs
    /\ inFlight w' = inFlight w ++ left
    /\ nextId w' = nextId w + List.length docs
    /\ (forall d, In d docs -> nextId w <= _id d < nextId w')
    /\ (forall d q, In d docs -> parentDocumentId d = Some q ->
          q = nextId w /\ q < _id d)
    /\ (forall job, In job left -> job_parent job = nextId w)
    /\ ((exists d, In d docs /\ parentDocumentId d <> None) \/ left <> [] ->
        forall p, In p docs -> _id p = nextId w -> isParentWithChunks p = true)
    /\ (left <> [] -> docs <> []).

Definition emptyWorld : World := mkWorld [] [] [] [] 0 [].

(** One step of the server: a handler runs from its request to its
    reply, or an upload that is split runs as far as its
    [await Promise.all], or a task in flight finishes. *)
Inductive step : World -> World -> Prop :=
| step_upload (w w' : World) (title body userId : jsstring)
    (category : option jsstring) (tags : option (list jsstring))
    (o : Outcome IngestResult) :
    processAndSaveDocument title body userId category tags w = (o, w') -> step w w'
| step_delete (w w' : World) (req : DeleteRequest) (o : Outcome Response) :
    deleteDocument req w = (o, w') -> step w w'
| step_ask (w w' : World) (req : AskRequest) (o : Outcome Response) :
    askQuestion req w = (o, w') -> step w w'
| step_ask_rev100540 (w w' : World) (req : AskRequest) (o : Outcome Response) :
    askQuestion_rev100540 req w = (o, w') -> step w w'
| step_inFlight (w w' : World) (o : Outcome unit) :
    settleInFlight w = (o, w') -> step w w'
| step_upload_waits (w w' : World) (title body userId : jsstring)
    (category : option jsstring) (tags : option (list jsstring)) (o : Outcome unit) :
    (2000 <? JsString.length (cleanText body)) = true ->
    processAndSaveDocument_upToAwait title body userId category tags w = (o, w') ->
    step w w'.

(** The worlds that come after [w0], any number of steps later. *)
Inductive after (w0 : World) : World -> Prop :=
| after_start : after w0 w0
| after_step (w w' : World) : after w0 w -> step w w' -> after w0 w'.

(** The worlds the server can be in, starting from an empty database. *)
Definition reachable : World -> Prop := after emptyWorld.

(** No task of the document [id] is in flight. *)
Definition settled (id : nat) (w : World) : Prop :=
  forall job, In job (inFlight w) -> job_parent job <> id.

(** The document [id] is gone for good: the id is used up, no document
    carries it or points at it, and no task in flight will write a chunk
    of it. *)
Definition gone (id : nat) (w : World) : Prop :=
  id < nextId w
  /\ (forall d, In d (documents w) -> _id d <> id /\ parentDocumentId d <> Some id)
  /\ settled id w.

(** The reply to the request sent at clock [sent], as
    [generateEmbedding] reads it. *)
Definition replyTo (sent : option nat) (text : jsstring) : option (list number) :=
  match sent with
  | None => None
  | Some t =>
      match voyage env t text with
      | Ok response => firstEmbedding response
      | Throw _ => None
      end
  end.

(** The record a task in flight writes under the id [id]. *)
Definition jobRecord (job : ChunkJob) (id : nat) : Doc :=
  chunkRecord (job_title job) (job_userId job) (job_category job) (job_tags job)
              (job_parent job) (job_count job) (job_chunk job) (job_index job)
              (replyTo (job_sent job) (text (job_chunk job))) id.

(** The task of chunk number [i], its request sent at clock [t] when
    there is a key. *)
Definition jobOf (title userId : jsstring) (category : option jsstring)
  (tags : option (list jsstring)) (parent count : nat) (t : nat) (chunk : Chunk) (i : nat)
  : ChunkJob :=
  mkChunkJob title userId category tags parent count chunk i
             (if JsString.isEmpty (voyageApiKey env) then None else Some (t + i)).

(** What a successful [deleteDocument] leaves. *)
Definition afterDelete (id : nat) (document : Doc) (ds : list Doc) : list Doc :=
  filter (fun d => negb (_id d =? _id document))
         (if isParentWithChunks document
          then filter (fun d => negb (isChunkOf id d)) ds
          else ds).

(** An event that is neither the embedding call nor the vector query. *)
Definition usesNoEmbedding (e : Event) : Prop :=
  match e with
  | HttpEmbedding _ | AtlasVectorSearch _ => False
  | _ => True
  end.

(** An event that is not a text search. *)
Definition notTextSearch (e : Event) : Prop :=
  match e with
  | AtlasTextSearch _ _ => False
  | _ => True
  end.

(** Every event a computation adds satisfies [P]. *)
Definition emitsOnly {A} (P : Event -> Prop) (m : M A) : Prop :=
  forall w o w', m w = (o, w') ->
    exists events, trace w' = trace w ++ events /\ Forall P events.

(** Conversation ids are distinct and below the next fresh id. *)
Definition conversationsWellFormed (w : World) : Prop :=
  NoDup (map conv_id (conversations w))
  /\ forall c, In c (conversations w) -> conv_id c < nextId w.

(** The two messages of one exchange, as [saveChatHistory] writes them. *)
Definition exchange (user : jsstring) (cid : option nat) (question answer : jsstring)
  : list Chat :=
  [mkChat user cid user_role question; mkChat user cid model_role answer].

(** The text revision 20260214100540 answers with when generation
    fails with message [m]. *)
Definition debugText (m : jsstring) : jsstring :=
  js "(DEBUG MODE) Error generating response: " ++ m
  ++ js ". Please check backend logs for details.".

(** A text that is empty or white space only:
    [!s || s.trim().length === 0]. *)
Definition blank (s : jsstring) : bool :=
  JsString.isEmpty s || (JsString.length (JsString.trim s) =? 0).

(* ================================================================== *)
(** ** Sample data

    One choice for the functions of [utils/textProcessing] and for
    [toFixed], a document, and a few environments, for the runs at the
    end. *)
(* ================================================================== *)

Definition sampleClean (s : jsstring) : jsstring := JsString.trim s.

(** Windows of [size] code units, each starting [step] after the last. *)
Fixpoint windows (fuel : nat) (s : jsstring) (size step i : nat) : list Chunk :=
  match fuel, s with
  | 0, _ => []
  | _, [] => []
  | S fuel', _ => mkChunk (firstn size s) i :: windows fuel' (skipn step s) size step (S i)
  end.

Definition sampleChunkText (s : jsstring) (size overlap : nat) : list Chunk :=
  windows (JsString.length s) s size (size - overlap) 0.

Definition sampleTruncate (s : jsstring) (n : nat) : jsstring :=
  if n <? JsString.length s then firstn n s ++ js "..." else s.

(** [n] in decimal, padded with zeros to [width] digits. *)
Definition padded (width : nat) (n : Z) : jsstring :=
  let digits := JsString.ofNat (Z.to_nat n) in
  repeat 48%N (width - JsString.length digits) ++ digits.

(** [toFixed] for magnitudes below 10^21: the integer nearest to
    [|x| * 10^digits], the larger one on a tie, with the point before its
    last [digits] digits and the sign in front. *)
Definition sampleToFixed (x : number) (digits : nat) : jsstring :=
  let scale := (10 ^ Z.of_nat digits)%Z in
  let render (n : Z) :=
    JsString.ofNat (Z.to_nat (n / scale))
    ++ (if digits =? 0 then [] else js "." ++ padded digits (n mod scale)) in
  let magnitude (m : positive) (e : Z) :=
    if (0 <=? e)%Z then render (Z.pos m * 2 ^ e * scale)%Z
    else render ((2 * Z.pos m * scale + 2 ^ (- e)) / (2 * 2 ^ (- e)))%Z in
  match Prim2SF x with
  | S754_zero _ => render 0%Z
  | S754_finite false m e => magnitude m e
  | S754_finite true m e => js "-" ++ magnitude m e
  | S754_infinity false => js "Infinity"
  | S754_infinity true => js "-Infinity"
  | S754_nan => js "NaN"
  end.

Definition sampleDoc : Doc :=
  mkDoc 7 (js "Emergency contacts") (js "Call campus security at 0911.")
        (js "health") [] [1%float; 2%float; 3%float] (js "admin") true false
        None None None.

Definition sampleUser : User := mkUser (js "u1") (js "student@astu.edu.et").

(** A reply of the embedding provider carrying a vector of three
    numbers. *)
Definition threeNumbers : AxiosResponse :=
  mkAxios (Some (mkVoyageBody (Some [mkVoyageItem (Some [1%float; 2%float; 3%float])]))).

Definition down {A} (reason : string) : Outcome A := Throw (newError (js reason)).

(** Every service answers. *)
Definition envUp : Env :=
  mkEnv (js "voyage-key") (js "gemini-key")
        (fun _ _ => Ok threeNumbers)
        (fun _ _ _ => Ok [(sampleDoc, 0.875%float)])
        (fun _ _ _ => Ok [sampleDoc])
        (fun _ _ => Ok (js "Call 0911."))
        (fun _ => None)
        (fun _ _ => 0).

(** The embedding provider is down. *)
Definition envEmbeddingDown : Env :=
  mkEnv (js "voyage-key") (js "gemini-key")
        (fun _ _ => down "503")
        (fun _ _ _ => Ok [(sampleDoc, 0.875%float)])
        (fun _ _ _ => Ok [sampleDoc])
        (fun _ _ => Ok (js "Call 0911."))
        (fun _ => None)
        (fun _ _ => 0).

(** Vector search raises; text search answers. *)
Definition envVectorDown : Env :=
  mkEnv (js "voyage-key") (js "gemini-key")
        (fun _ _ => Ok threeNumbers)
        (fun _ _ _ => down "index missing")
        (fun _ _ _ => Ok [sampleDoc])
        (fun _ _ => Ok (js "Call 0911."))
        (fun _ => None)
        (fun _ _ => 0).

(** The generation provider is out of quota for the call made at clock
    2, the generation call of a first ask request, and answers at every
    other moment. *)
Definition envQuotaOnce : Env :=
  mkEnv (js "voyage-key") (js "gemini-key")
        (fun _ _ => Ok threeNumbers)
        (fun _ _ _ => Ok [(sampleDoc, 0.875%float)])
        (fun _ _ _ => Ok [sampleDoc])
        (fun t _ => if t =? 2 then down "429 quota exceeded" else Ok (js "Call 0911."))
        (fun _ => None)
        (fun _ _ => 0).

(** The embedding provider fails the request sent at clock 2, in an
    upload that is split the request of the second chunk, and answers
    every other one. *)
Definition envEmbeddingOnceDown : Env :=
  mkEnv (js "voyage-key") (js "gemini-key")
        (fun t _ => if t =? 2 then down "503" else Ok threeNumbers)
        (fun _ _ _ => Ok [(sampleDoc, 0.875%float)])
        (fun _ _ _ => Ok [sampleDoc])
        (fun _ _ => Ok (js "Call 0911."))
        (fun _ => None)
        (fun _ _ => 0).


(** The database refuses the one write made at clock 4: in an upload
    split into three chunks, the write of the first chunk record. *)
Definition envChunkWriteFails : Env :=
  mkEnv (js "voyage-key") (js "gemini-key")
        (fun _ _ => Ok threeNumbers)
        (fun _ _ _ => Ok [(sampleDoc, 0.875%float)])
        (fun _ _ _ => Ok [sampleDoc])
        (fun _ _ => Ok (js "Call 0911."))
        (fun t => if t =? 4 then Some (newError (js "write conflict")) else None)
        (fun _ _ => 0).

(** The database refuses every call. *)
Definition envDatabaseDown : Env :=
  mkEnv (js "voyage-key") (js "gemini-key")
        (fun _ _ => Ok threeNumbers)
        (fun _ _ _ => Ok [(sampleDoc, 0.875%float)])
        (fun _ _ _ => Ok [sampleDoc])
        (fun _ _ => Ok (js "Call 0911."))
        (fun _ => Some (newError (js "connection lost")))
        (fun _ _ => 0).

(** The database fails from the fifth event on: in an ask request with
    no conversation id that is the first message write. *)
Definition envChatWritesFail : Env :=
  mkEnv (js "voyage-key") (js "gemini-key")
        (fun _ _ => Ok threeNumbers)
        (fun _ _ _ => Ok [(sampleDoc, 0.875%float)])
        (fun _ _ _ => Ok [sampleDoc])
        (fun _ _ => Ok (js "Call 0911."))
        (fun t => if 4 <=? t then Some (newError (js "connection lost")) else None)
        (fun _ _ => 0).

Definition ask (q : jsstring) : AskRequest :=
  mkAskRequest (Some sampleUser) (Some (JsonString q)) None.

(** A body whose [question] is the number 42. *)
Definition askNumber : AskRequest :=
  mkAskRequest (Some sampleUser) (Some (JsonNumber 42%float)) None.

Definition deleteParent : DeleteRequest := mkDeleteRequest (Some sampleUser) 0.

Definition shortQuestion : jsstring := js "Where is the clinic?".

(** 63 code units. *)
Definition longQuestion : jsstring :=
  js "What should I do when I see smoke in the dormitory at midnight?".

(** 1001 code units. *)
Definition oversizedQuestion : jsstring := repeat 97%N 1001.

(** 2001 code units. *)
Definition largeBody : jsstring := repeat 98%N 2001.

Definition smallBody : jsstring := js "Fire exits are at both ends of every floor.".

(** [sampleDoc] filed under another category. *)
Definition sampleDocRefiled : Doc :=
  mkDoc 7 (js "Emergency contacts") (js "Call campus security at 0911.")
        (js "security") [] [1%float; 2%float; 3%float] (js "admin") true false
        None None None.

(** The embedding provider's key is not set. *)
Definition envNoVoyageKey : Env :=
  mkEnv [] (js "gemini-key")
        (fun _ _ => Ok threeNumbers)
        (fun _ _ _ => Ok [(sampleDoc, 0.875%float)])
        (fun _ _ _ => Ok [sampleDoc])
        (fun _ _ => Ok (js "  Call 0911.  "))
        (fun _ => None)
        (fun _ _ => 0).

(** The database accepts the first write and refuses every later one. *)
Definition envWritesFailAfterFirst : Env :=
  mkEnv (js "voyage-key") (js "gemini-key")
        (fun _ _ => Ok threeNumbers)
        (fun _ _ _ => Ok [(sampleDoc, 0.875%float)])
        (fun _ _ _ => Ok [sampleDoc])
        (fun _ _ => Ok (js "Call 0911."))
        (fun t => if 1 <=? t then Some (newError (js "connection lost")) else None)
        (fun _ _ => 0).

(** Vector search finds nothing. *)
Definition envVectorEmpty : Env :=
  mkEnv (js "voyage-key") (js "gemini-key")
        (fun _ _ => Ok threeNumbers)
        (fun _ _ _ => Ok [])
        (fun _ _ _ => Ok [sampleDoc])
        (fun _ _ => Ok (js "Call 0911."))
        (fun _ => None)
        (fun _ _ => 0).

(** A store with one conversation of another user. *)
Definition otherConversation : Conversation :=
  mkConversation 0 (js "u2") (js "Lost card") (js "Go to the registrar.").

Definition worldWithOther : World := mkWorld [] [] [otherConversation] [] 1 [].

(** [sampleUser] asks under the id of the other user's conversation. *)
Definition askUnderOther : AskRequest :=
  mkAskRequest (Some sampleUser) (Some (JsonString shortQuestion)) (Some 0).

(** The text of a file is its bytes read as code units; a type that
    holds "pdf" is not read. *)
Definition sampleExtract (b : option (list Byte.byte)) (type : jsstring) : Outcome jsstring :=
  if JsString.includes (js "pdf") type then down "no pdf reader"
  else Ok (match b with
           | Some bytes => map (fun x => N.of_nat (Byte.to_nat x)) bytes
           | None => []
           end).

(** No query fails; messages and conversations come in the order of the
    store. *)
Definition noQueryError (q : Query) (t : nat) : option Error := None.
Definition inStoreOrder {A} (l : list A) : list A := l.

Definition notesFile : UploadedFile :=
  mkUploadedFile (js "notes.txt") (Some (js "text/plain"))
                 (Some [Byte.x46; Byte.x69; Byte.x72; Byte.x65]).

Definition uploadNotes : FileRequest :=
  mkFileRequest (Some sampleUser) (Some notesFile) None (Some (js "fire")) None.

Definition uploadHandbook : UploadRequest :=
  mkUploadRequest (Some sampleUser) (Some (js "Handbook")) (Some largeBody) None None.

(** The store after two users asked one question each. *)
Definition twoUsers : World :=
  mkWorld []
    []
    [mkConversation 0 (js "u1") (js "Where is the clinic?") (js "Block B.");
     mkConversation 1 (js "u2") (js "Lost card") (js "Go to the registrar.")]
    [mkChat (js "u1") (Some 0) user_role (js "Where is the clinic?");
     mkChat (js "u1") (Some 0) model_role (js "Block B.");
     mkChat (js "u2") (Some 1) user_role (js "Lost card");
     mkChat (js "u2") (Some 1) model_role (js "Go to the registrar.")]
    2 [].

(** The generation provider does not know the model. *)
Definition envModelUnknown : Env :=
  mkEnv (js "voyage-key") (js "gemini-key")
        (fun _ _ => Ok threeNumbers)
        (fun _ _ _ => Ok [(sampleDoc, 0.875%float)])
        (fun _ _ _ => Ok [sampleDoc])
        (fun _ _ => down "[404 Not Found] models/gemini-2.5-flash is not found")
        (fun _ => None)
        (fun _ _ => 0).

(* ================================================================== *)
(** ** Properties *)
(* ================================================================== *)

(** Running a computation: unfold the monad down to the world. *)
Ltac run :=
  unfold consoleError, axiosPost, DocumentModel_vectorSearch,
    DocumentModel_findSimilar, generateContent, dbCall in *;
  unfold bind, ret, throw, tryCatch, now, emit, liftOutcome, getWorld, modify,
    freshId, clock, setDocuments, setConversations, setChats in *;
  cbn [trace documents conversations chats nextId inFlight fst snd] in *.

Lemma length_snoc {A} (l : list A) (x : A) : List.length (l ++ [x]) = S (List.length l).
Proof. rewrite length_app. simpl. lia. Qed.

(* ------------------------------------------------------------------ *)
(** *** Retrieval *)
(* ------------------------------------------------------------------ *)

(** C1. [searchDocuments] never raises. When the embedding is missing or
    empty, or vector search returns nothing or raises, the result is
    exactly what text search returns at that moment, every hit without a
    similarity; otherwise it is exactly the vector result. The two are
    never mixed, and when text search raises too the result is empty. *)
Theorem searchDocuments_strict_fallback :
  forall (query : jsstring) (embedding : option (list number)) (limit : nat) (w : World),
  exists (hits : list Hit) (w' : World),
    searchDocuments query embedding limit w = (Ok hits, w')
    /\ (vectorUnavailable (clock w) embedding limit = true ->
        hits = textSearchAt (fallbackClock (clock w) embedding limit) query limit
        /\ Forall (fun h => similarity h = None) hits
        /\ (isOk (atlasFindSimilar env (fallbackClock (clock w) embedding limit)
                    query limit) = false -> hits = []))
    /\ (vectorUnavailable (clock w) embedding limit = false ->
        exists e found,
          embedding = Some e
          /\ atlasVectorSearch env (clock w) e limit = Ok found
          /\ hits = map scored found
          /\ ~ In (AtlasTextSearch query limit) (skipn (clock w) (trace w'))).
Proof.
  intros query embedding limit w.
  assert (Hunscored : forall t, Forall (fun h : Hit => similarity h = None)
                                  (textSearchAt t query limit)).
  { intro t. unfold textSearchAt. destruct (atlasFindSimilar env t query limit).
    - apply Forall_forall. intros h Hin. apply in_map_iff in Hin.
      destruct Hin as [d [<- _]]. reflexivity.
    - constructor. }
  assert (Hempty : forall t, isOk (atlasFindSimilar env t query limit) = false ->
                             textSearchAt t query limit = []).
  { intros t Ht. unfold textSearchAt.
    destruct (atlasFindSimilar env t query limit); [discriminate | reflexivity]. }
  unfold searchDocuments, vectorUnavailable, fallbackClock, textSearchAt in *.
  destruct w as [tr ds cs ms nid fl].
  destruct embedding as [[|x e]|].
  - (* an empty embedding *)
    run.
    destruct (atlasFindSimilar env (List.length tr) query limit) eqn:Ht;
      eexists; eexists; (split; [reflexivity|]); split; try discriminate;
      intros _; specialize (Hunscored (List.length tr));
      specialize (Hempty (List.length tr)); rewrite Ht in *; auto.
  - (* a usable embedding *)
    run.
    destruct (atlasVectorSearch env (List.length tr) (x :: e) limit)
      as [[|v vs]|err] eqn:Hv; cbn.
    + rewrite length_snoc, Nat.add_1_r.
      destruct (atlasFindSimilar env (S (List.length tr)) query limit) eqn:Ht;
        eexists; eexists; (split; [reflexivity|]); split; try discriminate;
        intros _; specialize (Hunscored (S (List.length tr)));
        specialize (Hempty (S (List.length tr))); rewrite Ht in *; auto.
    + eexists; eexists; split; [reflexivity|]. split; [discriminate|].
      intros _. exists (x :: e), (v :: vs). repeat split; try assumption.
      unfold clock. cbn [trace]. rewrite skipn_app, skipn_all, Nat.sub_diag. cbn.
      intros [H|[]]. discriminate H.
    + rewrite !length_snoc.
      replace (List.length tr + 2) with (S (S (List.length tr))) by lia.
      destruct (atlasFindSimilar env (S (S (List.length tr))) query limit) eqn:Ht;
        eexists; eexists; (split; [reflexivity|]); split; try discriminate;
        intros _; specialize (Hunscored (S (S (List.length tr))));
        specialize (Hempty (S (S (List.length tr)))); rewrite Ht in *; auto.
  - (* no embedding *)
    run.
    destruct (atlasFindSimilar env (List.length tr) query limit) eqn:Ht;
      eexists; eexists; (split; [reflexivity|]); split; try discriminate;
      intros _; specialize (Hunscored (List.length tr));
      specialize (Hempty (List.length tr)); rewrite Ht in *; auto.
Qed.


(* ------------------------------------------------------------------ *)
(** *** Prompt construction *)
(* ------------------------------------------------------------------ *)

Lemma occursIn_refl (s : jsstring) : occursIn s s.
Proof. exists [], []. cbn. now rewrite app_nil_r. Qed.

Lemma occursIn_app_l (x s extra : jsstring) : occursIn x s -> occursIn x (extra ++ s).
Proof.
  intros [b [a ->]]. exists (extra ++ b), a. now rewrite <- app_assoc.
Qed.

Lemma occursIn_app_r (x s extra : jsstring) : occursIn x s -> occursIn x (s ++ extra).
Proof.
  intros [b [a ->]]. exists b, (a ++ extra). now rewrite <- !app_assoc.
Qed.

Lemma occursIn_trans (x y s : jsstring) : occursIn x y -> occursIn y s -> occursIn x s.
Proof.
  intros [b [a ->]] [b' [a' ->]]. exists (b' ++ b), (a ++ a').
  now rewrite <- !app_assoc.
Qed.

Lemma occursIn_join (sep p : jsstring) (parts : list jsstring) :
  In p parts -> occursIn p (JsString.join sep parts).
Proof.
  induction parts as [|q rest IH]; [intros []|].
  intros [->|Hin].
  - destruct rest as [|r rest]; cbn.
    + apply occursIn_refl.
    + apply occursIn_app_r, occursIn_refl.
  - destruct rest as [|r rest]; [destruct Hin|].
    change (JsString.join sep (q :: r :: rest))
      with (q ++ sep ++ JsString.join sep (r :: rest)).
    apply occursIn_app_l, occursIn_app_l, IH, Hin.
Qed.

Lemma nth_error_mapiFrom {A B} (f : A -> nat -> B) (l : list A) (k i : nat) :
  nth_error (mapiFrom f k l) i = option_map (fun x => f x (k + i)) (nth_error l i).
Proof.
  revert k i. induction l as [|x r IH]; intros k [|i]; cbn; try reflexivity.
  - now rewrite Nat.add_0_r.
  - rewrite IH. now replace (S k + i) with (k + S i) by lia.
Qed.

Lemma length_mapiFrom {A B} (f : A -> nat -> B) (l : list A) (k : nat) :
  List.length (mapiFrom f k l) = List.length l.
Proof. revert k. induction l; intro k; cbn; [reflexivity | now rewrite IHl]. Qed.

(** C7, as the code has it. The prompt [generateAnswer] sends holds the
    context text; with no context that text is the fixed sentence "No
    specific documents found in the database.", and otherwise document
    [i] of the context appears in it as one block: the number [i + 1],
    the title, the relevance (absent when the hit has no similarity), and
    the body only as [truncateText] leaves it under a budget of 1000. The
    category is no part of the block. *)
Theorem generateAnswer_prompt_rendering :
  forall (question : jsstring) (context : list Hit),
    (forall w, exists o w',
        generateAnswer question context w = (o, w')
        /\ nth_error (trace w') (clock w) = Some (HttpGenerate (buildPrompt question context)))
    /\ occursIn (contextText context) (buildPrompt question context)
    /\ contextText [] = js "No specific documents found in the database."
    /\ (forall i h, nth_error context i = Some h ->
          occursIn (renderDocument h i) (contextText context)
          /\ exists info,
               renderDocument h i =
                 js "Document " ++ JsString.ofNat (i + 1) ++ js ": " ++ title (doc h)
                 ++ info ++ newline ++ js "Content: "
                 ++ truncateText (content (doc h)) 1000
               /\ (similarity h = None -> info = [])
               /\ (forall s, similarity h = Some s -> truthy s = false -> info = [])
               /\ (forall s, similarity h = Some s -> truthy s = true ->
                     info = js " (Relevance: "
                            ++ toFixed (PrimFloat.mul s 100%float) 1 ++ js "%)"))
    /\ (forall d d' s i, title d = title d' -> content d = content d' ->
          renderDocument (mkHit d s) i = renderDocument (mkHit d' s) i).
Proof.
  intros question context. split; [|split; [|split; [reflexivity|split]]].
  - intros [tr ds cs ms nid fl]. unfold generateAnswer. run.
    destruct (gemini env (List.length tr) (buildPrompt question context))
      as [text|err]; cbn.
    + destruct (JsString.isEmpty text || (JsString.length (JsString.trim text) =? 0));
        cbn; eexists; eexists; (split; [reflexivity|]); cbn;
        rewrite ?nth_error_app1 by (rewrite ?length_snoc; lia);
        now rewrite nth_error_app2, Nat.sub_diag by lia.
    + eexists; eexists; (split; [reflexivity|]); cbn.
      rewrite nth_error_app1 by (rewrite length_snoc; lia).
      now rewrite nth_error_app2, Nat.sub_diag by lia.
  - unfold buildPrompt.
    eapply occursIn_trans; [|apply occursIn_join; right; right; left; reflexivity].
    apply occursIn_app_l, occursIn_app_l, occursIn_refl.
  - intros i h Hnth. split.
    + unfold contextText.
      assert (Hlen : i < List.length context) by (apply nth_error_Some; congruence).
      destruct context as [|h0 rest]; [cbn in Hlen; lia|].
      cbn [List.length Nat.ltb Nat.leb].
      apply occursIn_join. apply nth_error_In with (n := i).
      unfold mapi. rewrite nth_error_mapiFrom, Hnth. reflexivity.
    + unfold renderDocument.
      destruct (similarity h) as [s|] eqn:Hs.
      * destruct (truthy s) eqn:Ht.
        -- eexists. split; [reflexivity|]. split; [discriminate|]. split.
           ++ intros s' Heq Ht'. inversion Heq; subst. congruence.
           ++ intros s' Heq _. now inversion Heq.
        -- exists []. split; [reflexivity|]. split; [discriminate|]. split.
           ++ reflexivity.
           ++ intros s' Heq Ht'. inversion Heq; subst. congruence.
      * exists []. split; [reflexivity|]. split; [reflexivity|].
        split; discriminate.
  - intros d d' s i Htitle Hcontent. unfold renderDocument. cbn.
    now rewrite Htitle, Hcontent.
Qed.


(* ------------------------------------------------------------------ *)
(** *** What each stage leaves behind *)
(* ------------------------------------------------------------------ *)

Lemma extends_clock (w w' : World) : extends w w' -> clock w <= clock w'.
Proof. intros [e H]. unfold clock. rewrite H, length_app. lia. Qed.

Create HintDb stages.

Lemma logged_extends (events : list Event) (w : World) : extends w (logged events w).
Proof. now exists events. Qed.

Lemma logged_nil (w : World) : logged [] w = w.
Proof. destruct w. unfold logged. cbn. now rewrite app_nil_r. Qed.

Lemma logged_logged (e1 e2 : list Event) (w : World) :
  logged e2 (logged e1 w) = logged (e1 ++ e2) w.
Proof. unfold logged. cbn. now rewrite app_assoc. Qed.

Lemma clock_logged (events : list Event) (w : World) :
  clock (logged events w) = clock w + List.length events.
Proof. unfold clock, logged. cbn. now rewrite length_app. Qed.

(** Sequencing, one step at a time. *)
Lemma bind_ok {A B} (m : M A) (k : A -> M B) (w w1 : World) (a : A) :
  m w = (Ok a, w1) -> bind m k w = k a w1.
Proof. intro H. unfold bind. now rewrite H. Qed.

Lemma bind_throw {A B} (m : M A) (k : A -> M B) (w w1 : World) (e : Error) :
  m w = (Throw e, w1) -> bind m k w = (Throw e, w1).
Proof. intro H. unfold bind. now rewrite H. Qed.

Lemma tryCatch_ok {A} (m : M A) (h : Error -> M A) (w w1 : World) (a : A) :
  m w = (Ok a, w1) -> tryCatch m h w = (Ok a, w1).
Proof. intro H. unfold tryCatch. now rewrite H. Qed.

Lemma tryCatch_throw {A} (m : M A) (h : Error -> M A) (w w1 : World) (e : Error) :
  m w = (Throw e, w1) -> tryCatch m h w = h e w1.
Proof. intro H. unfold tryCatch. now rewrite H. Qed.

Lemma tryCatch_bind_ok {A B} (m : M A) (k : A -> M B) (h : Error -> M B)
  (w w1 : World) (a : A) :
  m w = (Ok a, w1) -> tryCatch (bind m k) h w = tryCatch (k a) h w1.
Proof. intro H. unfold tryCatch, bind. now rewrite H. Qed.

Lemma quietTotal_onlyLogs {A} (m : M A) : quietTotal m -> onlyLogs m.
Proof. intros H w. destruct (H w) as (a & ev & E). eauto. Qed.

Lemma onlyLogs_ret {A} (a : A) : onlyLogs (ret a).
Proof. intro w. exists (Ok a), []. now rewrite logged_nil. Qed.

Lemma quietTotal_ret {A} (a : A) : quietTotal (ret a).
Proof. intro w. exists a, []. now rewrite logged_nil. Qed.

Lemma onlyLogs_throw {A} (e : Error) : onlyLogs (@throw A e).
Proof. intro w. exists (Throw e), []. now rewrite logged_nil. Qed.

Lemma onlyLogs_liftOutcome {A} (o : Outcome A) : onlyLogs (liftOutcome o).
Proof. intro w. exists o, []. now rewrite logged_nil. Qed.

Lemma quietTotal_now : quietTotal now.
Proof. intro w. exists (clock w), []. now rewrite logged_nil. Qed.

Lemma quietTotal_emit (e : Event) : quietTotal (emit e).
Proof. intro w. exists tt, [e]. reflexivity. Qed.

Lemma quietTotal_consoleError (label : jsstring) : quietTotal (consoleError label).
Proof. apply quietTotal_emit. Qed.

Lemma onlyLogs_bind {A B} (m : M A) (k : A -> M B) :
  onlyLogs m -> (forall a, onlyLogs (k a)) -> onlyLogs (bind m k).
Proof.
  intros Hm Hk w. destruct (Hm w) as ([a|e] & ev & E).
  - destruct (Hk a (logged ev w)) as (o & ev' & E').
    exists o, (ev ++ ev'). rewrite (bind_ok _ _ _ _ _ E), E'. now rewrite logged_logged.
  - exists (Throw e), ev. now rewrite (bind_throw _ _ _ _ _ E).
Qed.

Lemma quietTotal_bind {A B} (m : M A) (k : A -> M B) :
  quietTotal m -> (forall a, quietTotal (k a)) -> quietTotal (bind m k).
Proof.
  intros Hm Hk w. destruct (Hm w) as (a & ev & E).
  destruct (Hk a (logged ev w)) as (b & ev' & E').
  exists b, (ev ++ ev'). rewrite (bind_ok _ _ _ _ _ E), E'. now rewrite logged_logged.
Qed.

Lemma onlyLogs_tryCatch {A} (m : M A) (h : Error -> M A) :
  onlyLogs m -> (forall e, onlyLogs (h e)) -> onlyLogs (tryCatch m h).
Proof.
  intros Hm Hh w. destruct (Hm w) as ([a|e] & ev & E).
  - exists (Ok a), ev. now rewrite (tryCatch_ok _ _ _ _ _ E).
  - destruct (Hh e (logged ev w)) as (o & ev' & E').
    exists o, (ev ++ ev'). rewrite (tryCatch_throw _ _ _ _ _ E), E'.
    now rewrite logged_logged.
Qed.

Lemma quietTotal_tryCatch {A} (m : M A) (h : Error -> M A) :
  onlyLogs m -> (forall e, quietTotal (h e)) -> quietTotal (tryCatch m h).
Proof.
  intros Hm Hh w. destruct (Hm w) as ([a|e] & ev & E).
  - exists a, ev. now rewrite (tryCatch_ok _ _ _ _ _ E).
  - destruct (Hh e (logged ev w)) as (b & ev' & E').
    exists b, (ev ++ ev'). rewrite (tryCatch_throw _ _ _ _ _ E), E'.
    now rewrite logged_logged.
Qed.

#[local] Hint Resolve onlyLogs_ret quietTotal_ret onlyLogs_throw onlyLogs_liftOutcome
  quietTotal_now quietTotal_emit quietTotal_consoleError quietTotal_onlyLogs : stages.

(** Splits a computation along its binds and handlers. *)
Ltac stages :=
  repeat first
    [ progress intros
    | apply quietTotal_bind | apply quietTotal_tryCatch | apply onlyLogs_bind
    | apply onlyLogs_tryCatch
    | solve [auto with stages]
    | match goal with
      | |- context [match ?x with _ => _ end] => destruct x
      end ].

Lemma onlyLogs_axiosPost (input : jsstring) : onlyLogs (axiosPost input).
Proof. unfold axiosPost. stages. Qed.

Lemma onlyLogs_vectorSearch (e : list number) (limit : nat) :
  onlyLogs (DocumentModel_vectorSearch e limit).
Proof. unfold DocumentModel_vectorSearch. stages. Qed.

Lemma onlyLogs_findSimilar (query : jsstring) (limit : nat) :
  onlyLogs (DocumentModel_findSimilar query limit).
Proof. unfold DocumentModel_findSimilar. stages. Qed.

Lemma onlyLogs_generateContent (prompt : jsstring) : onlyLogs (generateContent prompt).
Proof. unfold generateContent. stages. Qed.

#[local] Hint Resolve onlyLogs_axiosPost onlyLogs_vectorSearch onlyLogs_findSimilar
  onlyLogs_generateContent : stages.

Lemma generateEmbedding_spec (text : jsstring) (w : World) :
  exists events,
    generateEmbedding text w = (Ok (embeddingAt (clock w) text), logged events w).
Proof.
  destruct w as [tr ds cs ms nid fl].
  unfold generateEmbedding, embeddingAt, logged. run.
  destruct (JsString.isEmpty (voyageApiKey env)); run.
  - exists []. now rewrite app_nil_r.
  - destruct (voyage env (List.length tr) text) as [response|err]; cbn.
    + exists [HttpEmbedding text]. now destruct (firstEmbedding response).
    + eexists. rewrite <- app_assoc. reflexivity.
Qed.

Lemma quietTotal_generateEmbedding (text : jsstring) :
  quietTotal (generateEmbedding text).
Proof. intro w. destruct (generateEmbedding_spec text w) as (ev & E). eauto. Qed.

Lemma quietTotal_searchDocuments (query : jsstring) (embedding : option (list number))
  (limit : nat) : quietTotal (searchDocuments query embedding limit).
Proof. unfold searchDocuments. stages. Qed.

Lemma onlyLogs_generateAnswer (question : jsstring) (context : list Hit) :
  onlyLogs (generateAnswer question context).
Proof. unfold generateAnswer. stages. Qed.

#[local] Hint Resolve quietTotal_generateEmbedding quietTotal_searchDocuments
  onlyLogs_generateAnswer : stages.

Lemma onlyLogs_processQuestion (question : jsstring) :
  onlyLogs (processQuestion question).
Proof. unfold processQuestion. stages. Qed.


(* ------------------------------------------------------------------ *)
(** *** What a computation may emit *)
(* ------------------------------------------------------------------ *)

Section Emits.

Variable P : Event -> Prop.

Lemma emitsOnly_ret {A} (a : A) : emitsOnly P (ret a).
Proof. intros w o w' E. inversion E; subst. exists []. now rewrite app_nil_r. Qed.

Lemma emitsOnly_throw {A} (e : Error) : emitsOnly P (@throw A e).
Proof. intros w o w' E. inversion E; subst. exists []. now rewrite app_nil_r. Qed.

Lemma emitsOnly_liftOutcome {A} (r : Outcome A) : emitsOnly P (liftOutcome r).
Proof. intros w o w' E. inversion E; subst. exists []. now rewrite app_nil_r. Qed.

Lemma emitsOnly_now : emitsOnly P now.
Proof. intros w o w' E. inversion E; subst. exists []. now rewrite app_nil_r. Qed.

Lemma emitsOnly_getWorld : emitsOnly P getWorld.
Proof. intros w o w' E. inversion E; subst. exists []. now rewrite app_nil_r. Qed.

Lemma emitsOnly_freshId : emitsOnly P freshId.
Proof. intros w o w' E. inversion E; subst. exists []. cbn. now rewrite app_nil_r. Qed.

Lemma emitsOnly_modify (f : World -> World) :
  (forall w, trace (f w) = trace w) -> emitsOnly P (modify f).
Proof.
  intros Hf w o w' E. inversion E; subst. exists []. now rewrite Hf, app_nil_r.
Qed.

Lemma emitsOnly_emit (e : Event) : P e -> emitsOnly P (emit e).
Proof. intros He w o w' E. inversion E; subst. exists [e]. cbn. auto. Qed.

Lemma emitsOnly_bind {A B} (m : M A) (k : A -> M B) :
  emitsOnly P m -> (forall a, emitsOnly P (k a)) -> emitsOnly P (bind m k).
Proof.
  intros Hm Hk w o w' E. unfold bind in E. destruct (m w) as [[a|e] w1] eqn:E1.
  - destruct (Hm _ _ _ E1) as (ev1 & T1 & F1). destruct (Hk a _ _ _ E) as (ev2 & T2 & F2).
    exists (ev1 ++ ev2). rewrite T2, T1, app_assoc. split; [reflexivity|].
    apply Forall_app. auto.
  - inversion E; subst. exact (Hm _ _ _ E1).
Qed.

Lemma emitsOnly_tryCatch {A} (m : M A) (h : Error -> M A) :
  emitsOnly P m -> (forall e, emitsOnly P (h e)) -> emitsOnly P (tryCatch m h).
Proof.
  intros Hm Hh w o w' E. unfold tryCatch in E. destruct (m w) as [[a|e] w1] eqn:E1.
  - inversion E; subst. exact (Hm _ _ _ E1).
  - destruct (Hm _ _ _ E1) as (ev1 & T1 & F1). destruct (Hh e _ _ _ E) as (ev2 & T2 & F2).
    exists (ev1 ++ ev2). rewrite T2, T1, app_assoc. split; [reflexivity|].
    apply Forall_app. auto.
Qed.

End Emits.

(** Splits a computation along its structure, down to the events. *)
Ltac emits :=
  repeat first
    [ progress intros
    | apply emitsOnly_bind | apply emitsOnly_tryCatch
    | apply emitsOnly_ret | apply emitsOnly_throw | apply emitsOnly_liftOutcome
    | apply emitsOnly_now | apply emitsOnly_getWorld | apply emitsOnly_freshId
    | apply emitsOnly_modify; intro; reflexivity
    | apply emitsOnly_emit; exact I
    | match goal with
      | |- context [match ?x with _ => _ end] => destruct x
      end ].

(* ------------------------------------------------------------------ *)
(** *** Generation failures *)
(* ------------------------------------------------------------------ *)

Lemma generateAnswer_spec (question : jsstring) (context : list Hit) (w : World) :
  exists events,
    generateAnswer question context w =
      (match gemini env (clock w) (buildPrompt question context) with
       | Ok text =>
           if generationFails (Ok text) then Throw generationFailed
           else Ok (JsString.trim text)
       | Throw _ => Throw generationFailed
       end, logged events w).
Proof.
  destruct w as [tr ds cs ms nid fl]. unfold generateAnswer, generationFails, logged. run.
  destruct (gemini env (List.length tr) (buildPrompt question context)) as [text|err]; cbn.
  - destruct (JsString.isEmpty text || (JsString.length (JsString.trim text) =? 0)); cbn.
    + eexists. rewrite <- app_assoc. reflexivity.
    + eexists. reflexivity.
  - eexists. rewrite <- app_assoc. reflexivity.
Qed.

(** The three ways the test of the question ends. *)
Lemma questionMissing_cases (v : option JsonValue) :
  questionMissing v = Ok true
  \/ (exists q, v = Some (JsonString q) /\ questionMissing v = Ok false)
  \/ (questionMissing v = Throw trimIsNotAFunction
      /\ exists x, v = Some x /\ (forall q, x <> JsonString q) /\ falsy x = false).
Proof.
  destruct v as [[q|x|b| | | ]|]; cbn [questionMissing]; auto.
  - destruct (JsString.isEmpty q || (JsString.length (JsString.trim q) =? 0)); eauto.
  - destruct (falsy (JsonNumber x)) eqn:H; auto. right; right. split; [reflexivity|].
    eexists. split; [reflexivity|]. split; [discriminate | exact H].
  - destruct (falsy (JsonBool b)) eqn:H; auto. right; right. split; [reflexivity|].
    eexists. split; [reflexivity|]. split; [discriminate | exact H].
  - right; right. split; [reflexivity|]. eexists. split; [reflexivity|].
    split; [discriminate | reflexivity].
  - right; right. split; [reflexivity|]. eexists. split; [reflexivity|].
    split; [discriminate | reflexivity].
Qed.

Lemma askQuestion_unauthorized (req : AskRequest) (w : World) :
  ask_user req = None ->
  askQuestion req w = (Ok (mkResponse 401 false (Failure (js "Not authorized") None)), w).
Proof. intro Huser. unfold askQuestion, tryCatch. now rewrite Huser. Qed.

Lemma askQuestion_turned_away (req : AskRequest) (user : User) (w : World) :
  ask_user req = Some user ->
  questionMissing (ask_question req) = Ok true ->
  askQuestion req w =
    (Ok (mkResponse 400 false (Failure (js "Please provide a question") None)), w).
Proof.
  intros Huser Hq. unfold askQuestion, tryCatch. now rewrite Huser, Hq.
Qed.

Lemma askQuestion_test_throws (req : AskRequest) (user : User) (e : Error) (w : World) :
  ask_user req = Some user ->
  questionMissing (ask_question req) = Throw e ->
  askQuestion req w =
    (Ok (mkResponse 500 false
           (Failure (js "Error processing your question") (Some (message e)))),
     logged [ConsoleError (cross ++ js " Chat error:")] w).
Proof.
  intros Huser Hq. unfold askQuestion, tryCatch. now rewrite Huser, Hq.
Qed.

Lemma askQuestion_rev100540_unauthorized (req : AskRequest) (w : World) :
  ask_user req = None ->
  askQuestion_rev100540 req w
  = (Ok (mkResponse 401 false (Failure (js "Not authorized") None)), w).
Proof. intro Huser. unfold askQuestion_rev100540, tryCatch. now rewrite Huser. Qed.

Lemma askQuestion_rev100540_turned_away (req : AskRequest) (user : User) (w : World) :
  ask_user req = Some user ->
  questionMissing (ask_question req) = Ok true ->
  askQuestion_rev100540 req w =
    (Ok (mkResponse 400 false (Failure (js "Please provide a question") None)), w).
Proof.
  intros Huser Hq. unfold askQuestion_rev100540, tryCatch. now rewrite Huser, Hq.
Qed.

(** [askQuestion] once the caller is known and the question passed the
    test. *)
Lemma askQuestion_asked (req : AskRequest) (user : User) (question : jsstring) :
  ask_user req = Some user ->
  ask_question req = Some (JsonString question) ->
  questionMissing (Some (JsonString question)) = Ok false ->
  askQuestion req =
    tryCatch
      (r <- processQuestion question ;;
       match r with
       | mkRAGResponse answer relevantDocs =>
           conversationId <-
             handleConversation (user_id user) (ask_conversationId req)
                                question answer ;;
           saveChatHistory (user_id user) conversationId question answer ;;;
           ret (mkResponse 200 true
                  (Answered question answer conversationId
                            (map toSource relevantDocs)))
       end)
      (fun err =>
         consoleError (cross ++ js " Chat error:") ;;;
         ret (mkResponse 500 false
                (Failure (js "Error processing your question") (Some (message err))))).
Proof. intros Huser Hsome Hq. unfold askQuestion. rewrite Huser, Hsome, Hq. reflexivity. Qed.

Lemma askQuestion_rev100540_asked (req : AskRequest) (user : User) (question : jsstring) :
  ask_user req = Some user ->
  ask_question req = Some (JsonString question) ->
  questionMissing (Some (JsonString question)) = Ok false ->
  questionTooLong question = false ->
  askQuestion_rev100540 req =
    tryCatch
      (queryEmbedding <- generateEmbedding_rev100540 question ;;
       relevantDocs <-
         match queryEmbedding with
         | Some ((_ :: _) as e) => findRelevantDocumentsByEmbedding e 3
         | _ => findRelevantDocuments question 3
         end ;;
       aiResponse <- generateAIResponse question relevantDocs ;;
       conversationId <-
         handleConversation (user_id user) (ask_conversationId req)
                            question aiResponse ;;
       saveChatHistory (user_id user) conversationId question aiResponse ;;;
       ret (mkResponse 200 true
              (Answered question aiResponse conversationId
                        (map toSource relevantDocs))))
      (fun err =>
         consoleError (cross ++ js " Chat error:") ;;;
         ret (mkResponse 500 false
                (Failure (js "Error processing your question") (Some (message err))))).
Proof.
  intros Huser Hsome Hq Hlong. unfold askQuestion_rev100540.
  rewrite Huser, Hsome, Hq. cbn [questionText]. cbv [bind liftOutcome]. cbv beta iota.
  now rewrite Hlong.
Qed.

(** What passing the test of the question tells: it is a string, and
    not a blank one. *)
Lemma questionMissing_false (v : option JsonValue) :
  questionMissing v = Ok false ->
  exists q, v = Some (JsonString q) /\ blank q = false.
Proof.
  unfold questionMissing, blank. destruct v as [[q|x|b| | | ]|]; cbn;
    try discriminate; try (destruct (falsy _); discriminate).
  - intro H. inversion H. eauto.
  - destruct (negb (truthy x)); discriminate.
  - destruct (negb b); discriminate.
Qed.

Lemma emitsOnly_generateEmbedding (P : Event -> Prop) (text : jsstring) :
  P (HttpEmbedding text) -> (forall label, P (ConsoleError label)) ->
  emitsOnly P (generateEmbedding text).
Proof.
  intros Hcall Hlog. unfold generateEmbedding, axiosPost, consoleError.
  repeat first [apply emitsOnly_emit; solve [auto] | progress emits].
Qed.

Lemma emitsOnly_searchDocuments (P : Event -> Prop) (query : jsstring)
  (embedding : option (list number)) (limit : nat) :
  P (AtlasVectorSearch limit) -> P (AtlasTextSearch query limit) ->
  (forall label, P (ConsoleError label)) ->
  emitsOnly P (searchDocuments query embedding limit).
Proof.
  intros Hvector Htext Hlog.
  unfold searchDocuments, DocumentModel_vectorSearch, DocumentModel_findSimilar,
    consoleError.
  repeat first [apply emitsOnly_emit; solve [auto] | progress emits].
Qed.

Lemma filter_nothing {A} (f : A -> bool) (l : list A) :
  Forall (fun x => f x = false) l -> filter f l = [].
Proof. induction 1 as [|x l Hx _ IH]; cbn; [reflexivity | now rewrite Hx]. Qed.

(** C3, as the code has it. [processQuestion] calls the generation
    provider once, after the embedding call and the search, with the
    prompt built from the question and the documents found. When that
    call throws or returns an empty or blank text, [generateAnswer]
    throws the fixed error "Failed to generate response from AI
    service."; [askQuestion] then replies with status 500,
    [success: false], that fixed message and no answer, has not called
    the provider a second time, and writes nothing to any store. What the
    provider would answer to any other call plays no part. *)
Theorem askQuestion_generation_failure :
  forall (req : AskRequest) (user : User) (question : jsstring)
         (embedding : option (list number)) (context : list Hit) (w w1 w2 : World),
    ask_user req = Some user ->
    ask_question req = Some (JsonString question) ->
    questionMissing (ask_question req) = Ok false ->
    generateEmbedding question w = (Ok embedding, w1) ->
    searchDocuments question embedding 3 w1 = (Ok context, w2) ->
    generationFails (gemini env (clock w2) (buildPrompt question context)) = true ->
    (exists events,
        generateAnswer question context w2 = (Throw generationFailed, logged events w2))
    /\ exists events,
         askQuestion req w =
           (Ok (mkResponse 500 false
                  (Failure (js "Error processing your question")
                           (Some (js "Failed to generate response from AI service.")))),
            logged events w)
         /\ filter isGenerate events = [HttpGenerate (buildPrompt question context)].
Proof.
  intros req user question embedding context w w1 w2 Huser Hsome Hq Hemb Hsearch Hdown.
  assert (Hanswer : generateAnswer question context w2
                    = (Throw generationFailed,
                       logged [HttpGenerate (buildPrompt question context);
                               ConsoleError (cross ++ js " Error generating AI response:")]
                              w2)).
  { destruct w2 as [tr ds cs ms nid fl]. unfold generateAnswer, generationFails, logged in *.
    run. destruct (gemini env (List.length tr) (buildPrompt question context)) as [text|err];
      cbn.
    - rewrite Hdown. cbn. now rewrite <- app_assoc.
    - now rewrite <- app_assoc. }
  split; [eauto|].
  destruct (quietTotal_generateEmbedding question w) as (emb & ev1 & E1).
  destruct (emitsOnly_generateEmbedding (fun e => isGenerate e = false) question
              eq_refl (fun _ => eq_refl) _ _ _ E1) as (ev1' & T1 & F1).
  rewrite Hemb in E1. inversion E1; subst emb w1. clear E1.
  cbn [logged trace] in T1. apply app_inv_head in T1. subst ev1'.
  destruct (quietTotal_searchDocuments question embedding 3 (logged ev1 w))
    as (hits & ev2 & E2).
  destruct (emitsOnly_searchDocuments (fun e => isGenerate e = false) question embedding 3
              eq_refl eq_refl (fun _ => eq_refl) _ _ _ E2) as (ev2' & T2 & F2).
  rewrite Hsearch in E2. inversion E2; subst hits w2. clear E2.
  cbn [logged trace] in T2. apply app_inv_head in T2. subst ev2'.
  exists (ev1 ++ ev2
          ++ [HttpGenerate (buildPrompt question context);
              ConsoleError (cross ++ js " Error generating AI response:");
              ConsoleError (cross ++ js " Chat error:")]).
  split.
  - rewrite Hsome in Hq. rewrite (askQuestion_asked _ _ _ Huser Hsome Hq).
    assert (Hrag : processQuestion question w
                   = (Throw generationFailed,
                      logged [HttpGenerate (buildPrompt question context);
                              ConsoleError (cross ++ js " Error generating AI response:")]
                             (logged ev2 (logged ev1 w)))).
    { unfold processQuestion. rewrite (bind_ok _ _ _ _ _ Hemb), (bind_ok _ _ _ _ _ Hsearch).
      now rewrite (bind_throw _ _ _ _ _ Hanswer). }
    erewrite tryCatch_throw by (apply bind_throw; exact Hrag).
    unfold bind, consoleError, emit, ret, logged. cbn. now rewrite <- !app_assoc.
  - rewrite !filter_app, (filter_nothing _ _ F1), (filter_nothing _ _ F2). reflexivity.
Qed.


(* ------------------------------------------------------------------ *)
(** *** Validation *)
(* ------------------------------------------------------------------ *)

(** The latest controller turns a missing, empty or blank question away
    with status 400 and leaves the world as it found it: no event, hence
    no call to any provider or store. *)
Lemma askQuestion_rejects_missing_question :
  forall (req : AskRequest) (user : User) (w : World),
    ask_user req = Some user ->
    questionMissing (ask_question req) = Ok true ->
    askQuestion req w =
      (Ok (mkResponse 400 false (Failure (js "Please provide a question") None)), w).
Proof. intros req user w. apply askQuestion_turned_away. Qed.

(** The earlier controller (revision 20260214100540) turns away a
    question that is missing, empty, blank or longer than 1000 code units,
    with status 400 and the world untouched. *)
Lemma askQuestion_rev100540_validates :
  forall (req : AskRequest) (user : User) (w : World),
    ask_user req = Some user ->
    questionMissing (ask_question req) = Ok true
    \/ (exists q, ask_question req = Some (JsonString q) /\ 1000 < JsString.length q) ->
    exists msg,
      askQuestion_rev100540 req w = (Ok (mkResponse 400 false (Failure msg None)), w).
Proof.
  intros req user w Huser Hbad. unfold askQuestion_rev100540, tryCatch. rewrite Huser.
  destruct Hbad as [Hbad|(q & Hsome & Hlen)]; [rewrite Hbad; eexists; reflexivity|].
  rewrite Hsome. cbn [questionMissing questionText]. cbv [bind liftOutcome].
  destruct (JsString.isEmpty q || (JsString.length (JsString.trim q) =? 0));
    [eexists; reflexivity|].
  unfold questionTooLong. apply Nat.ltb_lt in Hlen. rewrite Hlen. eexists; reflexivity.
Qed.

(* ------------------------------------------------------------------ *)
(** *** Persistence *)
(* ------------------------------------------------------------------ *)

Lemma saveChatHistory_spec (user : jsstring) (cid : option nat)
  (question answer : jsstring) (w : World) :
  exists w',
    saveChatHistory user cid question answer w = (Ok tt, w')
    /\ documents w' = documents w
    /\ conversations w' = conversations w
    /\ nextId w' = nextId w
    /\ (chatWriteFails w = true ->
        exists events, trace w' = trace w ++ events ++ [ConsoleError chatHistoryLabel])
    /\ (chatWriteFails w = false ->
        chats w' = chats w ++ [mkChat user cid user_role question;
                               mkChat user cid model_role answer]).
Proof.
  destruct w as [tr ds cs ms nid fl].
  unfold saveChatHistory, Chat_create, chatWriteFails, chatHistoryLabel. run.
  destruct (dbError env (List.length tr)) as [e1|] eqn:H1; run.
  - eexists. split; [reflexivity|]. cbn. repeat split; try discriminate.
    intros _. exists [Db ChatCreate]. now rewrite <- app_assoc.
  - rewrite length_snoc.
    destruct (dbError env (S (List.length tr))) as [e2|] eqn:H2; run.
    + eexists. split; [reflexivity|]. cbn. repeat split; try discriminate.
      intros _. exists [Db ChatCreate; Db ChatCreate]. now rewrite <- !app_assoc.
    + eexists. split; [reflexivity|]. cbn. repeat split; try discriminate.
      intros _. now rewrite <- app_assoc.
Qed.

(** C9, as the code has it. Once the answer is there and the
    conversation is in place, a failure of either message write
    ([Chat.create]) is caught and logged, and the reply is still the
    answer with status 200 and [success: true]. *)
Theorem askQuestion_chat_history_best_effort :
  forall (req : AskRequest) (user : User) (question : jsstring) (r : RAGResponse)
         (cid : option nat) (w w1 w2 : World),
    ask_user req = Some user ->
    ask_question req = Some (JsonString question) ->
    questionMissing (Some (JsonString question)) = Ok false ->
    processQuestion question w = (Ok r, w1) ->
    handleConversation (user_id user) (ask_conversationId req) question (answer r) w1
      = (Ok cid, w2) ->
    exists w3,
      askQuestion req w =
        (Ok (mkResponse 200 true
               (Answered question (answer r) cid (map toSource (relevantDocs r)))), w3)
      /\ (chatWriteFails w2 = true ->
          exists events, trace w3 = trace w2 ++ events ++ [ConsoleError chatHistoryLabel]).
Proof.
  intros req user question r cid w w1 w2 Huser Hsome Hq Hrag Hconv.
  destruct (saveChatHistory_spec (user_id user) cid question (answer r) w2)
    as (w3 & Hsave & _ & _ & _ & Hlog & _).
  exists w3. split; [|exact Hlog].
  rewrite (askQuestion_asked _ _ _ Huser Hsome Hq).
  apply tryCatch_ok.
  rewrite (bind_ok _ _ _ _ _ Hrag). destruct r as [ans docs]. cbn [answer relevantDocs] in *.
  rewrite (bind_ok _ _ _ _ _ Hconv).
  now rewrite (bind_ok _ _ _ _ _ Hsave).
Qed.

(* ------------------------------------------------------------------ *)
(** *** Conversation titles *)
(* ------------------------------------------------------------------ *)

Lemma substring_from_start (s : jsstring) (n : nat) :
  JsString.substring s 0 n = firstn n s.
Proof.
  unfold JsString.substring, JsString.length. cbn [Nat.min].
  rewrite Nat.max_0_l, Nat.sub_0_r. cbn [skipn].
  destruct (Nat.le_ge_cases n (List.length s)) as [H|H].
  - now rewrite Nat.min_l.
  - rewrite Nat.min_r by exact H. now rewrite !firstn_all2 by lia.
Qed.

Lemma Conversation_create_spec (user question answer : jsstring) (w w' : World)
  (o : Outcome Conversation) :
  Conversation_create user (conversationTitle question)
    (JsString.substring answer 0 100) w = (o, w') ->
  (isOk o = false /\ conversations w' = conversations w)
  \/ (o = Ok (newConversation (nextId w) user question answer)
      /\ conversations w' =
           conversations w ++ [newConversation (nextId w) user question answer]).
Proof.
  destruct w as [tr ds cs ms nid fl]. unfold Conversation_create, newConversation. run.
  destruct (dbError env (List.length tr)); run; intro H; inversion H; subst; cbn; auto.
Qed.

(** However [handleConversation] ends, the conversations keep their ids,
    or exactly one was appended, titled from the question. *)
Lemma handleConversation_conversations (user : jsstring) (reqId : option nat)
  (question answer : jsstring) (w w' : World) (o : Outcome (option nat)) :
  handleConversation user reqId question answer w = (o, w') ->
  map conv_id (conversations w') = map conv_id (conversations w)
  \/ conversations w' =
       conversations w ++ [newConversation (nextId w) user question answer].
Proof.
  assert (Hnew : forall tr' (o' : Outcome (option nat)),
    (c <- Conversation_create user (conversationTitle question)
            (JsString.substring answer 0 100) ;; ret (Some (conv_id c)))
      (mkWorld tr' (documents w) (conversations w) (chats w) (nextId w) (inFlight w)) = (o', w') ->
    map conv_id (conversations w') = map conv_id (conversations w)
    \/ conversations w' =
         conversations w ++ [newConversation (nextId w) user question answer]).
  { intros tr' o' H. unfold bind in H.
    destruct (Conversation_create user (conversationTitle question)
                (JsString.substring answer 0 100)
                (mkWorld tr' (documents w) (conversations w) (chats w) (nextId w) (inFlight w)))
      as [oc wc] eqn:Hc.
    destruct (Conversation_create_spec _ _ _ _ _ _ Hc) as [[Hfail Hsame]|[-> Happ]].
    - destruct oc; [discriminate|]. inversion H; subst. left. now rewrite Hsame.
    - unfold ret in H. inversion H; subst. right. exact Happ. }
  destruct w as [tr ds cs ms nid fl]. cbn [documents conversations chats nextId inFlight] in *.
  unfold handleConversation. destruct reqId as [i|].
  - unfold Conversation_findOne, save. run.
    destruct (dbError env (List.length tr)); run.
    + intro H. inversion H. now left.
    + destruct (find (fun c => (conv_id c =? i) && JsString.eqb (conv_user c) user) cs)
        as [c|] eqn:Hfind; run.
      * rewrite length_snoc.
        destruct (dbError env (S (List.length tr))); run; intro H; inversion H; subst;
          left; cbn; [reflexivity|].
        rewrite map_map. apply map_ext_in. intros c0 _.
        destruct (conv_id c0 =? conv_id c) eqn:E; [|reflexivity].
        apply Nat.eqb_eq in E. now rewrite E.
      * apply Hnew.
  - run. apply Hnew.
Qed.

Lemma conversationTitle_spec (question : jsstring) :
  conversationTitle question =
    (if JsString.length question <=? 50 then question
     else firstn 47 question ++ js "...")
  /\ JsString.length (conversationTitle question) <= 50.
Proof.
  unfold conversationTitle. rewrite substring_from_start, Nat.ltb_antisym.
  destruct (JsString.length question <=? 50) eqn:H; cbn [negb].
  - split; [reflexivity|]. now apply Nat.leb_le.
  - split; [reflexivity|]. unfold JsString.length in *.
    apply Nat.leb_gt in H. rewrite length_app, length_firstn.
    change (List.length (js "...")) with 3. lia.
Qed.

(** Whatever [askQuestion] replies, the conversations keep their ids or
    one was appended, titled from the question. *)
Lemma askQuestion_conversations (req : AskRequest) (question : jsstring)
  (w w' : World) (o : Outcome Response) :
  ask_question req = Some (JsonString question) ->
  askQuestion req w = (o, w') ->
  map conv_id (conversations w') = map conv_id (conversations w)
  \/ exists user answer,
       ask_user req = Some user
       /\ conversations w' =
            conversations w ++ [newConversation (nextId w) (user_id user) question answer].
Proof.
  intros Hsome.
  destruct (ask_user req) as [user|] eqn:Huser;
    [|rewrite (askQuestion_unauthorized _ _ Huser); intro H; inversion H; now left].
  destruct (questionMissing_cases (ask_question req))
    as [Hq|[(q & Hsome' & Hq)|(Hq & _)]];
    [rewrite (askQuestion_turned_away _ _ _ Huser Hq); intro H; inversion H; now left
    | |rewrite (askQuestion_test_throws _ _ _ _ Huser Hq); intro H; inversion H; now left].
  rewrite Hsome in Hq. rewrite (askQuestion_asked _ _ _ Huser Hsome Hq).
  destruct (onlyLogs_processQuestion question w) as ([[ans docs]|e] & ev & Hrag).
  - rewrite (tryCatch_bind_ok _ _ _ _ _ _ Hrag).
    destruct (handleConversation (user_id user) (ask_conversationId req) question ans
                (logged ev w)) as [[cid|e] w2] eqn:Hconv.
    + destruct (saveChatHistory_spec (user_id user) cid question ans w2)
        as (w3 & Hsave & _ & Hc3 & _).
      rewrite (tryCatch_ok _ _ _ w3 (mkResponse 200 true
                 (Answered question ans cid (map toSource docs))));
        [|rewrite (bind_ok _ _ _ _ _ Hconv); now rewrite (bind_ok _ _ _ _ _ Hsave)].
      intro H. inversion H; subst. rewrite Hc3.
      destruct (handleConversation_conversations _ _ _ _ _ _ _ Hconv) as [Hs|Hn];
        [now left|right; eauto].
    + rewrite (tryCatch_throw _ _ _ w2 e) by (apply bind_throw; exact Hconv).
      cbv [bind consoleError emit ret]. intro H. inversion H; subst.
      cbn [conversations].
      destruct (handleConversation_conversations _ _ _ _ _ _ _ Hconv) as [Hs|Hn];
        [now left|right; eauto].
  - rewrite (tryCatch_throw _ _ _ (logged ev w) e) by (apply bind_throw; exact Hrag).
    cbv [bind consoleError emit ret]. intro H. inversion H; subst. now left.
Qed.

(** C10. A conversation that an ask request creates is titled with the
    question itself when that has at most 50 code units, and otherwise
    with its first 47 code units followed by three dots; the title never
    exceeds 50 code units. *)
Theorem new_conversation_title :
  forall (req : AskRequest) (question : jsstring) (w w' : World)
         (o : Outcome Response) (c : Conversation),
    ask_question req = Some (JsonString question) ->
    askQuestion req w = (o, w') ->
    In c (conversations w') ->
    ~ In (conv_id c) (map conv_id (conversations w)) ->
    conv_title c = conversationTitle question
    /\ conv_title c =
         (if JsString.length question <=? 50 then question
          else firstn 47 question ++ js "...")
    /\ JsString.length (conv_title c) <= 50.
Proof.
  intros req question w w' o c Hsome Hrun Hin Hnew.
  assert (Htitle : conv_title c = conversationTitle question).
  { destruct (askQuestion_conversations _ _ _ _ _ Hsome Hrun)
      as [Hsame|(user & answer & _ & Happ)].
    - exfalso. apply Hnew. rewrite <- Hsame. now apply in_map.
    - rewrite Happ in Hin. apply in_app_or in Hin. destruct Hin as [Hold|[<-|[]]].
      + exfalso. apply Hnew. now apply in_map.
      + reflexivity. }
  rewrite Htitle. destruct (conversationTitle_spec question) as [H1 H2]. auto.
Qed.


(* ------------------------------------------------------------------ *)
(** *** Ingestion *)
(* ------------------------------------------------------------------ *)

Lemma DocumentModel_create_spec (fields : nat -> Doc) (w : World) :
  DocumentModel_create fields w =
    match dbError env (clock w) with
    | Some e => (Throw e, logged [Db DocumentCreate] w)
    | None =>
        (Ok (fields (nextId w)),
         mkWorld (trace w ++ [Db DocumentCreate]) (documents w ++ [fields (nextId w)])
                 (conversations w) (chats w) (S (nextId w)) (inFlight w))
    end.
Proof.
  destruct w as [tr ds cs ms nid fl]. unfold DocumentModel_create, logged. run.
  destruct (dbError env (List.length tr)); reflexivity.
Qed.

Lemma generateEmbedding_split (text : jsstring) (w : World) :
  generateEmbedding text w
  = (sent <- sendEmbeddingRequest text ;; receiveEmbedding text sent) w.
Proof.
  destruct w as [tr ds cs ms nid fl].
  unfold generateEmbedding, sendEmbeddingRequest, receiveEmbedding. run.
  destruct (JsString.isEmpty (voyageApiKey env)); run; [reflexivity|].
  destruct (voyage env (List.length tr) text); reflexivity.
Qed.

Lemma receiveEmbedding_spec (text : jsstring) (sent : option nat) (w : World) :
  exists events,
    receiveEmbedding text sent w = (Ok (replyTo sent text), logged events w).
Proof.
  destruct w as [tr ds cs ms nid fl]. unfold receiveEmbedding, replyTo, logged.
  destruct sent as [t|]; run.
  - destruct (voyage env t text) as [response|err]; run.
    + exists []. rewrite app_nil_r. now destruct (firstEmbedding response).
    + eexists. reflexivity.
  - exists []. now rewrite app_nil_r.
Qed.

Lemma replyTo_sent (t : nat) (text : jsstring) :
  replyTo (if JsString.isEmpty (voyageApiKey env) then None else Some t) text
  = embeddingAt t text.
Proof. unfold replyTo, embeddingAt. now destruct (JsString.isEmpty (voyageApiKey env)). Qed.

(** The callback run in one go is the body of the source's callback:
    [generateEmbedding], then [DocumentModel.create]. *)
Lemma chunkTask_body (title userId : jsstring) (category : option jsstring)
  (tags : option (list jsstring)) (parent count : nat) (chunk : Chunk) (i : nat)
  (w : World) :
  chunkTask title userId category tags parent count chunk i w
  = (embedding <- generateEmbedding (text chunk) ;;
     DocumentModel_create
       (chunkRecord title userId category tags parent count chunk i embedding)) w.
Proof.
  unfold chunkTask, startChunkTask, finishChunkTask, bind at 4.
  rewrite generateEmbedding_split. unfold bind, ret.
  destruct (sendEmbeddingRequest (text chunk) w) as [[sent|e] w1]; reflexivity.
Qed.

Lemma finishChunkTask_spec (job : ChunkJob) (w : World) :
  exists events,
    finishChunkTask job w =
      match dbError env (clock w + List.length events) with
      | Some e => (Throw e, logged (events ++ [Db DocumentCreate]) w)
      | None =>
          (Ok (jobRecord job (nextId w)),
           mkWorld (trace w ++ events ++ [Db DocumentCreate])
                   (documents w ++ [jobRecord job (nextId w)])
                   (conversations w) (chats w) (S (nextId w)) (inFlight w))
      end.
Proof.
  destruct (receiveEmbedding_spec (text (job_chunk job)) (job_sent job) w) as (ev & E).
  exists ev. unfold finishChunkTask. rewrite (bind_ok _ _ _ _ _ E), DocumentModel_create_spec.
  rewrite clock_logged.
  destruct (dbError env (clock w + List.length ev)).
  - now rewrite logged_logged.
  - unfold logged, jobRecord. cbn. now rewrite <- app_assoc.
Qed.

Lemma removeAt_spec {A} (l : list A) :
  forall (i : nat) (x : A),
    nth_error l i = Some x ->
    Permutation (x :: removeAt i l) l /\ S (List.length (removeAt i l)) = List.length l.
Proof.
  induction l as [|y l IH]; intros [|i] x H; try discriminate.
  - cbn in H. inversion H; subst. unfold removeAt. cbn. split; reflexivity.
  - cbn in H. destruct (IH i x H) as [P L].
    change (removeAt (S i) (y :: l)) with (y :: removeAt i l). split.
    + transitivity (y :: x :: removeAt i l); [apply perm_swap | apply perm_skip, P].
    + cbn [List.length]. now rewrite L.
Qed.

Lemma heardNext_lt (t n : nat) : 0 < n -> heardNext t n < n.
Proof.
  intro H. unfold heardNext. apply Nat.mod_upper_bound. lia.
Qed.

Lemma In_mapiFrom {A B} (f : A -> nat -> B) (l : list A) :
  forall (k : nat) (y : B),
    In y (mapiFrom f k l) -> exists x j, nth_error l j = Some x /\ y = f x (k + j).
Proof.
  induction l as [|x l IH]; intros k y H; [destruct H|]. cbn in H. destruct H as [<-|H].
  - exists x, 0. split; [reflexivity|]. now rewrite Nat.add_0_r.
  - destruct (IH (S k) y H) as (x' & j & Hj & ->). exists x', (S j).
    split; [exact Hj|]. f_equal. lia.
Qed.

(** The tasks that have started finish as they are heard of. The
    records written are those of the tasks [done], under fresh ids in
    the order of arrival; a rejection ends the wait, and the tasks
    [left] stay in flight. *)
Lemma settleAll_spec (fuel : nat) :
  forall (waiting : list ChunkJob) (w : World),
    List.length waiting = fuel ->
    exists o done left w',
      settleAll fuel waiting w = (o, w')
      /\ appended (mapiFrom jobRecord (nextId w) done) w w'
      /\ inFlight w' = inFlight w ++ left
      /\ ((o = Ok tt /\ left = [] /\ Permutation done waiting)
          \/ (exists e bad, o = Throw e /\ Permutation (done ++ bad :: left) waiting))
      /\ ((forall t, clock w <= t -> dbError env t = None) -> o = Ok tt)
      /\ ((forall t, clock w <= t -> dbError env t <> None) -> waiting <> [] ->
            done = [] /\ isOk o = false).
Proof.
  induction fuel as [|fuel IH]; intros waiting w Hlen.
  - destruct waiting; [|discriminate]. exists (Ok tt), [], [], w. cbn.
    split; [reflexivity|].
    split; [unfold appended; cbn; rewrite app_nil_r, Nat.add_0_r; auto|].
    split; [now rewrite app_nil_r|]. split; [left; auto|]. split; [auto|].
    intros _ H. now elim H.
  - cbn [settleAll]. unfold bind at 1, now.
    assert (Hi : heardNext (clock w) (List.length waiting) < List.length waiting)
      by (apply heardNext_lt; lia).
    destruct (nth_error waiting (heardNext (clock w) (List.length waiting)))
      as [job|] eqn:Hnth; [|apply nth_error_None in Hnth; lia].
    destruct (removeAt_spec _ _ _ Hnth) as [Hperm Hlen'].
    set (others := removeAt (heardNext (clock w) (List.length waiting)) waiting) in *.
    destruct (finishChunkTask_spec job w) as (ev & Efin).
    unfold bind, tryCatch. rewrite Efin.
    destruct (dbError env (clock w + List.length ev)) as [e|] eqn:Hdb.
    + exists (Throw e), [], others.
      eexists. split; [cbv [modify throw]; reflexivity|].
      split.
      { unfold appended, setInFlight, logged, clock. cbn.
        rewrite app_nil_r, Nat.add_0_r, length_app. repeat split; auto. lia. }
      split; [reflexivity|]. split; [right; exists e, job; split; [reflexivity|exact Hperm]|].
      split.
      * intro Hnone. rewrite Hnone in Hdb by lia. discriminate.
      * intros _ _. split; reflexivity.
    + set (d := jobRecord job (nextId w)).
      set (w1 := mkWorld (trace w ++ ev ++ [Db DocumentCreate]) (documents w ++ [d])
                         (conversations w) (chats w) (S (nextId w)) (inFlight w)).
      assert (Hclk : clock w <= clock w1).
      { unfold clock, w1. cbn. rewrite length_app. lia. }
      destruct (IH others w1) as (o & done & left & w' & Erest & Happ & Hfl & Hcase & Hok & _).
      { lia. }
      unfold ret. cbv beta iota. rewrite Erest.
      destruct Happ as (Hd & Hc & Hm & Hn & Hclk').
      exists o, (job :: done), left, w'. split; [reflexivity|]. split.
      { unfold appended. cbn in *. rewrite Hd, <- app_assoc. cbn.
        repeat split; auto; lia. }
      split; [exact Hfl|]. split.
      { destruct Hcase as [(-> & -> & Hp)|(e & bad & -> & Hp)].
        - left. repeat split; auto. rewrite <- Hperm. now apply perm_skip.
        - right. exists e, bad. split; [reflexivity|]. rewrite <- Hperm. cbn.
          now apply perm_skip. }
      split.
      * intro Hnone. apply Hok. intros t Ht. apply Hnone. lia.
      * intros Hall _. exfalso. apply (Hall (clock w + List.length ev)); [lia | exact Hdb].
Qed.

Section ChunkLoop.

Variables (title userId : jsstring) (category : option jsstring)
          (tags : option (list jsstring)) (parent count : nat).

Local Abbreviation start := (startChunkTask title userId category tags parent count).
Local Abbreviation job := (jobOf title userId category tags parent count).
Local Abbreviation record := (chunkRecord title userId category tags parent count).

Lemma startChunkTask_spec (chunk : Chunk) (i : nat) (w : World) :
  start chunk i w
  = (Ok (mkChunkJob title userId category tags parent count chunk i
           (if JsString.isEmpty (voyageApiKey env) then None else Some (clock w))),
     if JsString.isEmpty (voyageApiKey env) then w
     else logged [HttpEmbedding (text chunk)] w).
Proof.
  unfold startChunkTask, sendEmbeddingRequest.
  destruct (JsString.isEmpty (voyageApiKey env)); reflexivity.
Qed.

(** Starting the tasks sends the requests in the order of the chunks,
    when there is a key, and writes nothing. *)
Lemma startChunkTasks_spec (chunks : list Chunk) :
  forall (k c0 : nat) (w : World),
    (JsString.isEmpty (voyageApiKey env) = false -> clock w = c0 + k) ->
    exists events,
      inTurn (mapiFrom start k chunks) w
      = (Ok (mapiFrom (job c0) k chunks), logged events w).
Proof.
  induction chunks as [|c rest IH]; intros k c0 w Hclk.
  - exists []. cbn. unfold ret. now rewrite logged_nil.
  - cbn [mapiFrom inTurn]. unfold bind at 1. rewrite startChunkTask_spec.
    destruct (IH (S k) c0 (if JsString.isEmpty (voyageApiKey env) then w
                           else logged [HttpEmbedding (text c)] w)) as (ev & E).
    { intro Hkey. rewrite Hkey, clock_logged, (Hclk Hkey). cbn. lia. }
    unfold bind at 1. rewrite E. unfold ret, jobOf.
    destruct (JsString.isEmpty (voyageApiKey env)) eqn:Hkey.
    + now exists ev.
    + exists (HttpEmbedding (text c) :: ev). rewrite (Hclk eq_refl), logged_logged.
      reflexivity.
Qed.

Lemma jobRecord_jobOf (t : nat) (chunk : Chunk) (i id : nat) :
  jobRecord (job t chunk i) id = record chunk i (embeddingAt (t + i) (text chunk)) id.
Proof. unfold jobRecord, jobOf. cbn. now rewrite replyTo_sent. Qed.

Lemma In_jobs (t : nat) (chunks : list Chunk) (j : ChunkJob) :
  In j (mapi (job t) chunks) ->
  exists chunk i, nth_error chunks i = Some chunk /\ j = job t chunk i.
Proof.
  intro H. apply In_mapiFrom in H. destruct H as (chunk & i & Hi & ->). now exists chunk, i.
Qed.

End ChunkLoop.


Section Ingest.

Variables (title content userId : jsstring) (category : option jsstring)
          (tags : option (list jsstring)).

Local Abbreviation cleaned := (cleanText content).
Local Abbreviation chunks := (chunkText cleaned 1000 200).
Local Abbreviation count := (List.length chunks).

(** A document at or under 2000 code units: one embedding call, one
    write. *)
Lemma processAndSaveDocument_small (w : World) :
  (2000 <? JsString.length cleaned) = false ->
  let d := singleRecord title cleaned userId category tags
                        (embeddingAt (clock w) cleaned) (nextId w) in
  exists o docs w',
    processAndSaveDocument title content userId category tags w = (o, w')
    /\ appended docs w w'
    /\ inFlight w' = inFlight w
    /\ (docs = [] /\ isOk o = false \/ docs = [d] /\ o = Ok (summary d None))
    /\ ((forall t, dbError env t = None) -> o = Ok (summary d None) /\ docs = [d]).
Proof.
  intros Hsmall d. unfold processAndSaveDocument. rewrite Hsmall.
  destruct (generateEmbedding_spec cleaned w) as (ev & E).
  rewrite (bind_ok _ _ _ _ _ E). unfold bind at 1.
  rewrite DocumentModel_create_spec, clock_logged.
  pose proof (extends_clock _ _ (logged_extends ev w)) as Hle.
  destruct (dbError env (clock w + List.length ev)) as [e|] eqn:Hdb.
  - exists (Throw e), [], (logged [Db DocumentCreate] (logged ev w)).
    split; [reflexivity|]. split.
    + unfold appended. split; [cbn; now rewrite app_nil_r|].
      split; [reflexivity|]. split; [reflexivity|]. split; [cbn; lia|].
      rewrite logged_logged. apply extends_clock, logged_extends.
    + split; [reflexivity|]. split; [now left|].
      intro Hnone. rewrite Hnone in Hdb. discriminate.
  - eexists (Ok (summary d None)), [d], _. split; [reflexivity|]. split.
    + unfold appended. cbn. repeat split; auto; [lia|].
      unfold clock in *. cbn in *. rewrite !length_app. cbn. lia.
    + split; [reflexivity|]. split; [now right|]. auto.
Qed.

(** A document over 2000 code units: the parent first; then every chunk
    task starts, and the tasks [done] write their records in the order
    they are heard of. When a write fails the tasks [left] stay in
    flight. *)
Lemma processAndSaveDocument_large (w : World) :
  (2000 <? JsString.length cleaned) = true ->
  let p := parentRecord title cleaned userId category tags count (nextId w) in
  let jobs := mapi (jobOf title userId category tags (nextId w) count (S (clock w)))
                   chunks in
  exists o docs left w',
    processAndSaveDocument title content userId category tags w = (o, w')
    /\ appended docs w w'
    /\ inFlight w' = inFlight w ++ left
    /\ ((docs = [] /\ left = [] /\ isOk o = false)
        \/ exists done,
             docs = p :: mapiFrom jobRecord (S (nextId w)) done
             /\ ((o = Ok (summary p (Some count)) /\ left = [] /\ Permutation done jobs)
                 \/ (isOk o = false /\ exists bad, Permutation (done ++ bad :: left) jobs)))
    /\ ((forall t, dbError env t = None) -> o = Ok (summary p (Some count)))
    /\ (dbError env (clock w) = None ->
        (forall t, clock w < t -> dbError env t <> None) ->
        chunks <> [] -> docs = [p] /\ isOk o = false).
Proof.
  intros Hlarge p jobs. unfold processAndSaveDocument. rewrite Hlarge.
  unfold bind at 1. rewrite DocumentModel_create_spec. fold p.
  destruct (dbError env (clock w)) as [e|] eqn:Hdb.
  - exists (Throw e), [], [], (logged [Db DocumentCreate] w). split; [reflexivity|]. split.
    + unfold appended. split; [cbn; now rewrite app_nil_r|].
      split; [reflexivity|]. split; [reflexivity|]. split; [cbn; lia|].
      apply extends_clock, logged_extends.
    + split; [cbn; now rewrite app_nil_r|]. split; [left; auto|].
      split; [intro Hnone; rewrite Hnone in Hdb; discriminate|]. discriminate.
  - set (w1 := mkWorld (trace w ++ [Db DocumentCreate]) (documents w ++ [p])
                       (conversations w) (chats w) (S (nextId w)) (inFlight w)).
    assert (Hc1 : clock w1 = S (clock w)).
    { unfold clock, w1. cbn. rewrite length_app. cbn. lia. }
    assert (Hclk1 : JsString.isEmpty (voyageApiKey env) = false ->
                    clock w1 = S (clock w) + 0) by (intros _; lia).
    destruct (startChunkTasks_spec title userId category tags (nextId w) count chunks
                0 (S (clock w)) w1 Hclk1) as (ev & Estart).
    unfold mapi. change (_id p) with (nextId w).
    unfold bind at 1. rewrite Estart. fold (mapi (jobOf title userId category tags (nextId w)
                                                   count (S (clock w))) chunks). fold jobs.
    destruct (settleAll_spec (List.length jobs) jobs (logged ev w1) eq_refl)
      as (o & done & left & w' & Erun & Happ & Hfl & Hcase & Hok & Hfail).
    unfold promiseAll, bind. rewrite Erun.
    destruct Happ as (Hd & Hc & Hm & Hn & Hclk). cbn in Hd, Hc, Hm, Hn, Hfl.
    rewrite clock_logged in Hclk.
    assert (Hle : clock w <= clock w') by lia.
    exists (match o with
            | Ok _ => Ok (summary p (Some count))
            | Throw e => Throw e
            end), (p :: mapiFrom jobRecord (S (nextId w)) done), left, w'.
    split; [now destruct o|]. split.
    { unfold appended. rewrite Hd, <- app_assoc. cbn. repeat split; auto; lia. }
    split; [exact Hfl|]. split.
    { right. exists done. split; [reflexivity|].
      destruct Hcase as [(-> & -> & Hp)|(e & bad & -> & Hp)]; [left; auto|].
      right. split; [reflexivity|]. now exists bad. }
    split.
    + intro Hnone. rewrite Hok; [reflexivity|]. intros t _. apply Hnone.
    + intros _ Hlater Hchunks. destruct Hfail as (-> & Hthrow).
      * intros t Ht. apply Hlater. rewrite clock_logged in Ht. lia.
      * unfold jobs, mapi. destruct chunks; [now elim Hchunks | discriminate].
      * split; [reflexivity|]. now destruct o.
Qed.

End Ingest.


(* ------------------------------------------------------------------ *)
(** *** Stages that leave the documents alone *)
(* ------------------------------------------------------------------ *)

Lemma onlyLogs_keepsDocuments {A} (m : M A) : onlyLogs m -> keepsDocuments m.
Proof.
  intros H w o w' E. destruct (H w) as (o' & ev & E'). rewrite E' in E.
  inversion E; subst. cbn. auto.
Qed.

Lemma keepsDocuments_bind {A B} (m : M A) (k : A -> M B) :
  keepsDocuments m -> (forall a, keepsDocuments (k a)) -> keepsDocuments (bind m k).
Proof.
  intros Hm Hk w o w' E. unfold bind in E. destruct (m w) as [[a|e] w1] eqn:E1.
  - destruct (Hm _ _ _ E1) as (H1 & H2 & H2'). destruct (Hk a _ _ _ E) as (H3 & H4 & H4').
    repeat split; [congruence | lia | congruence].
  - inversion E; subst. exact (Hm _ _ _ E1).
Qed.

Lemma keepsDocuments_tryCatch {A} (m : M A) (h : Error -> M A) :
  keepsDocuments m -> (forall e, keepsDocuments (h e)) -> keepsDocuments (tryCatch m h).
Proof.
  intros Hm Hh w o w' E. unfold tryCatch in E. destruct (m w) as [[a|e] w1] eqn:E1.
  - inversion E; subst. exact (Hm _ _ _ E1).
  - destruct (Hm _ _ _ E1) as (H1 & H2 & H2'). destruct (Hh e _ _ _ E) as (H3 & H4 & H4').
    repeat split; [congruence | lia | congruence].
Qed.

Lemma keepsDocuments_dbCall (op : DbOp) : keepsDocuments (dbCall op).
Proof.
  intros [tr ds cs ms nid fl] o w'. unfold dbCall. run.
  destruct (dbError env (List.length tr)); intro E; inversion E; cbn; auto.
Qed.

Lemma keepsDocuments_freshId : keepsDocuments freshId.
Proof. intros w o w' E. inversion E; subst. cbn. auto. Qed.

Lemma keepsDocuments_setConversations (f : World -> list Conversation) :
  keepsDocuments (modify (fun w => setConversations (f w) w)).
Proof. intros w o w' E. inversion E; subst. cbn. auto. Qed.

Lemma keepsDocuments_setChats (f : World -> list Chat) :
  keepsDocuments (modify (fun w => setChats (f w) w)).
Proof. intros w o w' E. inversion E; subst. cbn. auto. Qed.

Lemma keepsDocuments_getWorld : keepsDocuments getWorld.
Proof. intros w o w' E. inversion E; subst. auto. Qed.

Lemma keepsDocuments_ret {A} (a : A) : keepsDocuments (ret a).
Proof. intros w o w' E. inversion E; subst. auto. Qed.

Lemma keepsDocuments_consoleError (label : jsstring) :
  keepsDocuments (consoleError label).
Proof. apply onlyLogs_keepsDocuments. auto with stages. Qed.

#[local] Hint Resolve keepsDocuments_dbCall keepsDocuments_freshId
  keepsDocuments_setConversations keepsDocuments_setChats keepsDocuments_getWorld
  keepsDocuments_ret keepsDocuments_consoleError : stages.

(** Splits a computation that keeps the documents along its structure. *)
Ltac keeps :=
  repeat first
    [ progress intros
    | apply keepsDocuments_bind | apply keepsDocuments_tryCatch
    | solve [auto with stages]
    | solve [apply onlyLogs_keepsDocuments; auto with stages]
    | match goal with
      | |- context [match ?x with _ => _ end] => destruct x
      end ].

Lemma keepsDocuments_handleConversation (user : jsstring) (reqId : option nat)
  (question answer : jsstring) :
  keepsDocuments (handleConversation user reqId question answer).
Proof.
  unfold handleConversation, Conversation_findOne, save, Conversation_create. keeps.
Qed.

Lemma keepsDocuments_saveChatHistory (user : jsstring) (cid : option nat)
  (question answer : jsstring) :
  keepsDocuments (saveChatHistory user cid question answer).
Proof. unfold saveChatHistory, Chat_create. keeps. Qed.

#[local] Hint Resolve keepsDocuments_handleConversation keepsDocuments_saveChatHistory
  onlyLogs_processQuestion : stages.

Lemma keepsDocuments_askQuestion (req : AskRequest) : keepsDocuments (askQuestion req).
Proof. unfold askQuestion. keeps. Qed.

Lemma onlyLogs_generateEmbedding_rev100540 (text : jsstring) :
  onlyLogs (generateEmbedding_rev100540 text).
Proof. unfold generateEmbedding_rev100540. stages. Qed.

Lemma onlyLogs_findRelevantDocumentsByEmbedding (e : list number) (limit : nat) :
  onlyLogs (findRelevantDocumentsByEmbedding e limit).
Proof. unfold findRelevantDocumentsByEmbedding. stages. Qed.

Lemma onlyLogs_findRelevantDocuments (query : jsstring) (limit : nat) :
  onlyLogs (findRelevantDocuments query limit).
Proof. unfold findRelevantDocuments. stages. Qed.

Lemma onlyLogs_generateAIResponse (question : jsstring) (context : list Hit) :
  onlyLogs (generateAIResponse question context).
Proof. unfold generateAIResponse. stages. Qed.

#[local] Hint Resolve onlyLogs_generateEmbedding_rev100540
  onlyLogs_findRelevantDocumentsByEmbedding onlyLogs_findRelevantDocuments
  onlyLogs_generateAIResponse : stages.

Lemma keepsDocuments_askQuestion_rev100540 (req : AskRequest) :
  keepsDocuments (askQuestion_rev100540 req).
Proof. unfold askQuestion_rev100540. keeps. Qed.


(* ------------------------------------------------------------------ *)
(** *** The document store stays well formed *)
(* ------------------------------------------------------------------ *)

Lemma isChunkOf_other (id : nat) (d : Doc) :
  parentDocumentId d <> Some id -> isChunkOf id d = false.
Proof.
  unfold isChunkOf. destruct (parentDocumentId d) as [p|]; [|reflexivity].
  intro H. destruct (p =? id) eqn:E; [|reflexivity].
  apply Nat.eqb_eq in E. subst. now elim H.
Qed.

Lemma wellFormed_shrink (w w' : World) :
  wellFormed w ->
  (forall d, In d (documents w') -> In d (documents w)) ->
  nextId w <= nextId w' ->
  (forall job, In job (inFlight w') -> In job (inFlight w)) ->
  wellFormed w'.
Proof.
  intros (H1 & H2 & H3 & H4 & H5) Hsub Hid Hjobs. repeat split.
  - intros d Hd. specialize (H1 d (Hsub d Hd)). lia.
  - intros d q Hd Hq. specialize (H2 d q (Hsub d Hd) Hq). lia.
  - intros c d Hc Hd. apply H3; auto.
  - intros job Hj. specialize (H4 job (Hjobs job Hj)). lia.
  - intros job d Hj Hd. apply H5; auto.
Qed.

Lemma filter_none {A} (f : A -> bool) (l : list A) :
  (forall x, In x l -> f x = false) -> filter f l = [].
Proof.
  induction l as [|x r IH]; intro H; cbn; [reflexivity|].
  rewrite (H x (or_introl eq_refl)). apply IH. intros y Hy. apply H. now right.
Qed.

Lemma find_absent {A} (f : A -> bool) (l : list A) :
  (forall x, In x l -> f x = false) -> find f l = None.
Proof.
  induction l as [|x r IH]; intro H; cbn; [reflexivity|].
  rewrite (H x (or_introl eq_refl)). apply IH. intros y Hy. apply H. now right.
Qed.

Lemma deleteDocument_spec (req : DeleteRequest) (w w' : World) (o : Outcome Response) :
  deleteDocument req w = (o, w') ->
  nextId w' = nextId w
  /\ (forall d, In d (documents w') -> In d (documents w))
  /\ (forall resp, o = Ok resp -> status resp = 200 ->
        exists document,
          find (fun d => _id d =? delete_id req) (documents w) = Some document
          /\ documents w' = afterDelete (delete_id req) document (documents w)).
Proof.
  destruct w as [tr ds cs ms nid fl].
  unfold deleteDocument, DocumentModel_findById, DocumentModel_deleteMany, deleteOne,
    afterDelete.
  destruct (delete_user req) as [u|]; run;
    [|intro E; inversion E; subst; cbn; repeat split; auto; intros r Hr Hs; inversion Hr; subst; discriminate].
  destruct (dbError env (List.length tr)); run;
    [intro E; inversion E; subst; cbn; repeat split; auto; intros r Hr Hs; inversion Hr;
     subst; discriminate|].
  destruct (find (fun d => _id d =? delete_id req) ds) as [document|] eqn:Hfind; run;
    [|intro E; inversion E; subst; cbn; repeat split; auto; intros r Hr Hs; inversion Hr;
      subst; discriminate].
  destruct (isParentWithChunks document) eqn:Hp; run; rewrite ?length_snoc.
  - destruct (dbError env (S (List.length tr))); run;
      [intro E; inversion E; subst; cbn; repeat split; auto; intros r Hr Hs; inversion Hr;
       subst; discriminate|].
    rewrite !length_snoc.
    destruct (dbError env (S (S (List.length tr)))); run; intro E; inversion E; subst; cbn.
    + repeat split; auto.
      * intros d Hd. now apply filter_In in Hd.
      * intros r Hr Hs. inversion Hr; subst. discriminate.
    + repeat split; auto.
      * intros d Hd. apply filter_In in Hd. destruct Hd as [Hd _].
        now apply filter_In in Hd.
      * intros r _ _. exists document. rewrite Hp. split; reflexivity.
  - destruct (dbError env (S (List.length tr))); run; intro E; inversion E; subst; cbn.
    + repeat split; auto. intros r Hr Hs. inversion Hr; subst. discriminate.
    + repeat split; auto.
      * intros d Hd. now apply filter_In in Hd.
      * intros r _ _. exists document. rewrite Hp. split; reflexivity.
Qed.

Lemma deleteDocument_inFlight (req : DeleteRequest) (w w' : World) (o : Outcome Response) :
  deleteDocument req w = (o, w') -> inFlight w' = inFlight w.
Proof.
  destruct w as [tr ds cs ms nid fl].
  unfold deleteDocument, DocumentModel_findById, DocumentModel_deleteMany, deleteOne.
  destruct (delete_user req) as [u|]; run;
    repeat match goal with
    | |- context [dbError env ?t] => destruct (dbError env t); run; rewrite ?length_snoc
    | |- context [find ?f ?l] => destruct (find f l); run
    | |- context [isParentWithChunks ?d] => destruct (isParentWithChunks d); run
    end;
    intro E; inversion E; reflexivity.
Qed.

(** What an ingestion adds: documents under fresh ids and tasks in
    flight; a chunk, written or in flight, points at the id the ingestion
    started with, under which its parent was stored. *)
Lemma processAndSaveDocument_effect (title body userId : jsstring)
  (category : option jsstring) (tags : option (list jsstring)) (w w' : World)
  (o : Outcome IngestResult) :
  processAndSaveDocument title body userId category tags w = (o, w') ->
  exists docs left,
    documents w' = documents w ++ docs
    /\ inFlight w' = inFlight w ++ left
    /\ nextId w' = nextId w + List.length docs
    /\ (forall d, In d docs -> nextId w <= _id d < nextId w')
    /\ (forall d q, In d docs -> parentDocumentId d = Some q ->
          q = nextId w /\ q < _id d)
    /\ (forall job, In job left -> job_parent job = nextId w)
    /\ ((exists d, In d docs /\ parentDocumentId d <> None) \/ left <> [] ->
        forall p, In p docs -> _id p = nextId w -> isParentWithChunks p = true).
Proof.
  intro Hrun. destruct (2000 <? JsString.length (cleanText body)) eqn:Hsize.
  - destruct (processAndSaveDocument_large title body userId category tags w Hsize)
      as (o' & docs & left & w'' & E & (Hd & _ & _ & Hn & _) & Hfl & Hshape & _).
    rewrite E in Hrun. inversion Hrun; subst o' w''. clear Hrun E.
    exists docs, left. split; [exact Hd|]. split; [exact Hfl|]. split; [exact Hn|].
    destruct Hshape as [(-> & -> & _)|(done & -> & Hdone)].
    { split; [intros ? []|]. split; [intros ? ? []|]. split; [intros ? []|].
      intros [(d & [] & _)|H]; now elim H. }
    set (jobs := mapi (jobOf title userId category tags (nextId w)
                         (List.length (chunkText (cleanText body) 1000 200))
                         (S (clock w))) (chunkText (cleanText body) 1000 200)) in *.
    set (p := parentRecord title (cleanText body) userId category tags
                (List.length (chunkText (cleanText body) 1000 200)) (nextId w)) in *.
    assert (Hjob : forall job, In job jobs ->
              job_parent job = nextId w
              /\ 0 < List.length (chunkText (cleanText body) 1000 200)).
    { intros job Hin. apply In_jobs in Hin. destruct Hin as (chunk & i & Hi & ->).
      split; [reflexivity|].
      destruct (chunkText (cleanText body) 1000 200); [destruct i; discriminate | cbn; lia]. }
    assert (Hin_done : forall job, In job done -> In job jobs).
    { intros job Hin. destruct Hdone as [(_ & _ & Hp)|(_ & bad & Hp)].
      - now apply (Permutation_in _ Hp).
      - apply (Permutation_in _ Hp), in_or_app. now left. }
    assert (Hin_left : forall job, In job left -> In job jobs).
    { intros job Hin. destruct Hdone as [(_ & -> & _)|(_ & bad & Hp)]; [destruct Hin|].
      apply (Permutation_in _ Hp), in_or_app. right. now right. }
    assert (Hchunk : forall c, In c (mapiFrom jobRecord (S (nextId w)) done) ->
              parentDocumentId c = Some (nextId w)
              /\ nextId w < _id c < nextId w'
              /\ 0 < List.length (chunkText (cleanText body) 1000 200)).
    { intros c Hc. apply In_mapiFrom in Hc. destruct Hc as (job & j & Hj & ->).
      assert (j < List.length done) by (apply nth_error_Some; congruence).
      apply nth_error_In, Hin_done, Hjob in Hj. destruct Hj as (Hp & Hpos).
      cbn [List.length] in Hn. rewrite length_mapiFrom in Hn. cbn.
      rewrite Hp. repeat split; auto; lia. }
    assert (Hparent : 0 < List.length (chunkText (cleanText body) 1000 200) ->
              forall q, In q (p :: mapiFrom jobRecord (S (nextId w)) done) ->
                        _id q = nextId w -> isParentWithChunks q = true).
    { intros Hpos q [<-|Hq] Hid.
      - unfold isParentWithChunks. cbn.
        destruct (List.length (chunkText (cleanText body) 1000 200)); [lia | reflexivity].
      - destruct (Hchunk q Hq) as (_ & ? & _). lia. }
    cbn [List.length] in Hn. split; [|split; [|split]].
    + intros d [<-|H]; [cbn; lia|]. destruct (Hchunk d H) as (_ & ? & _). lia.
    + intros d q [<-|H] Hq; [discriminate|]. destruct (Hchunk d H) as (Hp & ? & _).
      assert (q = nextId w) by congruence. subst q. split; [reflexivity | lia].
    + intros job Hin. now apply Hin_left, Hjob in Hin.
    + intros [(d & [<-|Hin] & Hp)|Hleft].
      * now elim Hp.
      * apply Hparent. now destruct (Hchunk d Hin) as (_ & _ & ?).
      * apply Hparent. destruct left as [|job left']; [now elim Hleft|].
        now destruct (Hjob job (Hin_left job (or_introl eq_refl))).
  - destruct (processAndSaveDocument_small title body userId category tags w Hsize)
      as (o' & docs & w'' & E & (Hd & _ & _ & Hn & _) & Hfl & Hshape & _).
    rewrite E in Hrun. inversion Hrun; subst o' w''. clear Hrun E.
    exists docs, []. split; [exact Hd|]. split; [now rewrite app_nil_r|]. split; [exact Hn|].
    destruct Hshape as [(-> & _)|(-> & _)]; cbn [List.length] in Hn.
    + split; [intros ? []|]. split; [intros ? ? []|]. split; [intros ? []|].
      intros [(d & [] & _)|H]; now elim H.
    + split; [|split; [|split]].
      * intros d [<-|[]]. cbn. lia.
      * intros d q [<-|[]] Hq. discriminate.
      * intros ? [].
      * intros [(d & [<-|[]] & Hp)|H]; [now elim Hp | now elim H].
Qed.

(** What a task in flight leaves when it finishes: it is out of the
    queue, and its record is in the store unless the write failed. *)
Lemma settleInFlight_effect (w w' : World) (o : Outcome unit) :
  settleInFlight w = (o, w') ->
  exists docs,
    documents w' = documents w ++ docs
    /\ conversations w' = conversations w /\ chats w' = chats w
    /\ nextId w' = nextId w + List.length docs
    /\ (forall job, In job (inFlight w') -> In job (inFlight w))
    /\ (docs = []
        \/ exists job, In job (inFlight w) /\ docs = [jobRecord job (nextId w)]).
Proof.
  unfold settleInFlight. unfold bind at 1, getWorld.
  destruct (nth_error (inFlight w) (heardNext (clock w) (List.length (inFlight w))))
    as [job|] eqn:Hnth.
  - destruct (removeAt_spec _ _ _ Hnth) as [Hperm _].
    set (others := removeAt (heardNext (clock w) (List.length (inFlight w))) (inFlight w))
      in *.
    unfold bind, modify, tryCatch.
    destruct (finishChunkTask_spec job (setInFlight others w)) as (ev & Efin).
    rewrite Efin. cbn [nextId documents conversations chats trace inFlight setInFlight].
    destruct (dbError env (clock (setInFlight others w) + List.length ev)); unfold ret;
      intro H; inversion H; subst o w'; cbn.
    + exists []. rewrite app_nil_r, Nat.add_0_r. repeat split; auto.
      intros j Hj. apply (Permutation_in _ Hperm). now right.
    + exists [jobRecord job (nextId w)]. cbn. repeat split; auto; [lia| |].
      * intros j Hj. apply (Permutation_in _ Hperm). now right.
      * right. exists job. split; [|reflexivity]. now apply nth_error_In in Hnth.
  - unfold ret. intro H. inversion H; subst o w'. exists [].
    rewrite app_nil_r, Nat.add_0_r. repeat split; auto.
Qed.

Lemma processAndSaveDocument_grows (title body userId : jsstring)
  (category : option jsstring) (tags : option (list jsstring)) (w w' : World)
  (o : Outcome IngestResult) :
  processAndSaveDocument title body userId category tags w = (o, w') -> grows w w'.
Proof.
  intro Hrun.
  destruct (processAndSaveDocument_effect _ _ _ _ _ _ _ _ Hrun)
    as (docs & left & Hd & Hfl & Hn & Hids & Hparents & Hjobs & Hpoint).
  exists docs, left. do 7 (split; [assumption|]).
  intros Hleft Hnil. subst docs.
  destruct (2000 <? JsString.length (cleanText body)) eqn:Hsize.
  - destruct (processAndSaveDocument_large title body userId category tags w Hsize)
      as (o' & docs & left' & w'' & E & (Hd' & _) & Hfl' & Hshape & _).
    rewrite E in Hrun. inversion Hrun; subst o' w''.
    rewrite Hd in Hd'. apply app_inv_head in Hd'. rewrite Hfl in Hfl'.
    apply app_inv_head in Hfl'. subst docs left'.
    destruct Hshape as [(_ & -> & _)|(done & Hdocs & _)]; [now elim Hleft|discriminate].
  - destruct (processAndSaveDocument_small title body userId category tags w Hsize)
      as (o' & docs & w'' & E & _ & Hfl' & _).
    rewrite E in Hrun. inversion Hrun; subst o' w''. rewrite Hfl in Hfl'.
    rewrite <- (app_nil_r (inFlight w)) in Hfl' at 2. apply app_inv_head in Hfl'.
    now elim Hleft.
Qed.

Lemma processAndSaveDocument_upToAwait_grows (title body userId : jsstring)
  (category : option jsstring) (tags : option (list jsstring)) (w w' : World)
  (o : Outcome unit) :
  processAndSaveDocument_upToAwait title body userId category tags w = (o, w') ->
  grows w w'.
Proof.
  unfold processAndSaveDocument_upToAwait. unfold bind at 1.
  rewrite DocumentModel_create_spec.
  set (chunks := chunkText (cleanText body) 1000 200).
  set (p := parentRecord title (cleanText body) userId category tags
              (List.length chunks) (nextId w)).
  destruct (dbError env (clock w)) as [e|] eqn:Hdb.
  - intro H. inversion H; subst o w'. exists [], []. cbn.
    rewrite !app_nil_r, Nat.add_0_r.
    split; [reflexivity|]. split; [reflexivity|]. split; [reflexivity|].
    split; [intros ? []|]. split; [intros ? ? []|]. split; [intros ? []|].
    split; [intros [(d & [] & _)|H0]; now elim H0 | intro H0; now elim H0].
  - set (w1 := mkWorld (trace w ++ [Db DocumentCreate]) (documents w ++ [p])
                       (conversations w) (chats w) (S (nextId w)) (inFlight w)).
    assert (Hclk1 : JsString.isEmpty (voyageApiKey env) = false ->
                    clock w1 = S (clock w) + 0).
    { intros _. unfold clock, w1. cbn. rewrite length_app. cbn. lia. }
    destruct (startChunkTasks_spec title userId category tags (nextId w)
                (List.length chunks) chunks 0 (S (clock w)) w1 Hclk1) as (ev & Estart).
    unfold mapi. change (_id p) with (nextId w).
    unfold bind. rewrite Estart. unfold modify. intro H. inversion H; subst o w'.
    set (jobs := mapiFrom (jobOf title userId category tags (nextId w)
                             (List.length chunks) (S (clock w))) 0 chunks).
    assert (Hjob : forall job, In job jobs ->
              job_parent job = nextId w /\ 0 < List.length chunks).
    { intros job Hin. apply In_jobs in Hin. destruct Hin as (chunk & i & Hi & ->).
      split; [reflexivity|].
      destruct chunks; [destruct i; discriminate | cbn; lia]. }
    exists [p], jobs. cbn.
    split; [reflexivity|]. split; [reflexivity|]. split; [lia|].
    split; [intros d [<-|[]]; cbn; lia|].
    split; [intros d q [<-|[]] Hq; discriminate|].
    split; [intros job Hin; now apply Hjob|].
    split; [|discriminate].
    intros [(d & [<-|[]] & Hq)|Hleft] q [<-|[]] _.
    + now elim Hq.
    + unfold isParentWithChunks. cbn.
      destruct jobs as [|job rest] eqn:Hjobs; [now elim Hleft|].
      destruct (Hjob job (or_introl eq_refl)) as (_ & Hpos).
      destruct (List.length chunks); [lia | reflexivity].
Qed.

Lemma wellFormed_grows (w w' : World) : wellFormed w -> grows w w' -> wellFormed w'.
Proof.
  intros (H1 & H2 & H3 & H4 & H5)
         (docs & left & Hd & Hfl & Hn & Hids & Hparents & Hjobs & Hpoint & Hsome).
  repeat split.
  - intros d Hin. rewrite Hd in Hin. apply in_app_or in Hin.
    destruct Hin as [Hold|Hnew]; [specialize (H1 d Hold); lia|].
    specialize (Hids d Hnew). lia.
  - intros d q Hin Hq. rewrite Hd in Hin. apply in_app_or in Hin.
    destruct Hin as [Hold|Hnew]; [specialize (H2 d q Hold Hq); lia|].
    destruct (Hparents d q Hnew Hq). specialize (Hids d Hnew). lia.
  - intros c d Hc Hdd Hq. rewrite Hd in Hc, Hdd.
    apply in_app_or in Hc. apply in_app_or in Hdd.
    destruct Hc as [Hc|Hc].
    + specialize (H2 c _ Hc Hq).
      destruct Hdd as [Hdd|Hdd]; [now apply (H3 c d)|]. specialize (Hids d Hdd). lia.
    + destruct (Hparents c _ Hc Hq) as (Hid & _).
      destruct Hdd as [Hdd|Hdd]; [specialize (H1 d Hdd); lia|].
      apply Hpoint; auto. left. exists c. split; [exact Hc | congruence].
  - intros job Hin. rewrite Hfl in Hin. apply in_app_or in Hin.
    destruct Hin as [Hold|Hnew]; [specialize (H4 job Hold); lia|].
    rewrite (Hjobs job Hnew).
    assert (Hne : docs <> []) by (apply Hsome; intro; subst; destruct Hnew).
    destruct docs; [now elim Hne | cbn in Hn; lia].
  - intros job d Hin Hdd Hid. rewrite Hfl in Hin. rewrite Hd in Hdd.
    apply in_app_or in Hin. apply in_app_or in Hdd.
    destruct Hin as [Hold|Hnew].
    + destruct Hdd as [Hdd|Hdd]; [now apply (H5 job d)|].
      specialize (H4 job Hold). specialize (Hids d Hdd). lia.
    + rewrite (Hjobs job Hnew) in Hid.
      destruct Hdd as [Hdd|Hdd]; [specialize (H1 d Hdd); lia|].
      apply Hpoint; auto. right. intro; subst; destruct Hnew.
Qed.

Lemma gone_grows (id : nat) (w w' : World) : gone id w -> grows w w' -> gone id w'.
Proof.
  intros (Hid & Hdocs & Hjobs)
         (docs & left & Hd & Hfl & Hn & Hids & Hparents & Hleft & _).
  split; [lia|]. split.
  - intros d Hin. rewrite Hd in Hin. apply in_app_or in Hin.
    destruct Hin as [Hold|Hnew]; [now apply Hdocs|].
    specialize (Hids d Hnew). split; [lia|].
    intro Hq. destruct (Hparents d id Hnew Hq). lia.
  - intros job Hin. rewrite Hfl in Hin. apply in_app_or in Hin.
    destruct Hin as [Hold|Hnew]; [now apply Hjobs|]. rewrite (Hleft job Hnew). lia.
Qed.

Lemma wellFormed_settleInFlight (w w' : World) (o : Outcome unit) :
  wellFormed w -> settleInFlight w = (o, w') -> wellFormed w'.
Proof.
  intros (H1 & H2 & H3 & H4 & H5) Hrun.
  destruct (settleInFlight_effect _ _ _ Hrun) as (docs & Hd & _ & _ & Hn & Hsub & Hshape).
  destruct Hshape as [->|(job & Hjob & ->)].
  - apply wellFormed_shrink with (w := w); [repeat split; auto| |lia|exact Hsub].
    rewrite Hd, app_nil_r. auto.
  - cbn [List.length] in Hn. pose proof (H4 job Hjob) as Hp. repeat split.
    + intros d Hin. rewrite Hd in Hin. apply in_app_or in Hin.
      destruct Hin as [Hold|[<-|[]]]; [specialize (H1 d Hold); lia | cbn; lia].
    + intros d q Hin Hq. rewrite Hd in Hin. apply in_app_or in Hin.
      destruct Hin as [Hold|[<-|[]]]; [specialize (H2 d q Hold Hq); lia|].
      cbn in Hq. inversion Hq. lia.
    + intros c d Hc Hdd Hq. rewrite Hd in Hc, Hdd.
      apply in_app_or in Hc. apply in_app_or in Hdd.
      destruct Hc as [Hc|[<-|[]]].
      * specialize (H2 c _ Hc Hq).
        destruct Hdd as [Hdd|[<-|[]]]; [now apply (H3 c d) | cbn in H2; lia].
      * cbn in Hq. inversion Hq as [Hid].
        destruct Hdd as [Hdd|[<-|[]]]; [now apply (H5 job d) | cbn in Hid; lia].
    + intros j Hj. specialize (H4 j (Hsub j Hj)). lia.
    + intros j d Hj Hdd Hid. rewrite Hd in Hdd. apply in_app_or in Hdd.
      destruct Hdd as [Hdd|[<-|[]]]; [now apply (H5 j d); auto|].
      specialize (H4 j (Hsub j Hj)). cbn in Hid. lia.
Qed.

Lemma step_wellFormed (w w' : World) : wellFormed w -> step w w' -> wellFormed w'.
Proof.
  intros Hw Hstep. revert Hw.
  destruct Hstep as [w0 w1 ? ? ? ? ? o Hrun|w0 w1 req o Hrun|w0 w1 req o Hrun
                    |w0 w1 req o Hrun|w0 w1 o Hrun|w0 w1 ? ? ? ? ? o _ Hrun]; intro Hw.
  - exact (wellFormed_grows _ _ Hw (processAndSaveDocument_grows _ _ _ _ _ _ _ _ Hrun)).
  - destruct (deleteDocument_spec _ _ _ _ Hrun) as (Hn & Hsub & _).
    apply wellFormed_shrink with (w := w0); auto; [lia|].
    rewrite (deleteDocument_inFlight _ _ _ _ Hrun). auto.
  - destruct (keepsDocuments_askQuestion _ _ _ _ Hrun) as (Hd & Hn & Hfl).
    apply wellFormed_shrink with (w := w0); auto; [now rewrite Hd | now rewrite Hfl].
  - destruct (keepsDocuments_askQuestion_rev100540 _ _ _ _ Hrun) as (Hd & Hn & Hfl).
    apply wellFormed_shrink with (w := w0); auto; [now rewrite Hd | now rewrite Hfl].
  - eapply wellFormed_settleInFlight; eauto.
  - exact (wellFormed_grows _ _ Hw
             (processAndSaveDocument_upToAwait_grows _ _ _ _ _ _ _ _ Hrun)).
Qed.

Lemma reachable_wellFormed (w : World) : reachable w -> wellFormed w.
Proof.
  induction 1 as [|w w' _ IH Hstep].
  - repeat split; intros; cbn in *; contradiction.
  - exact (step_wellFormed _ _ IH Hstep).
Qed.

Lemma gone_step (id : nat) (w w' : World) : gone id w -> step w w' -> gone id w'.
Proof.
  intros Hgone Hstep. revert Hgone.
  destruct Hstep as [w0 w1 ? ? ? ? ? o Hrun|w0 w1 req o Hrun|w0 w1 req o Hrun
                    |w0 w1 req o Hrun|w0 w1 o Hrun|w0 w1 ? ? ? ? ? o _ Hrun];
    intro Hgone.
  - exact (gone_grows _ _ _ Hgone (processAndSaveDocument_grows _ _ _ _ _ _ _ _ Hrun)).
  - destruct Hgone as (Hid & Hdocs & Hjobs).
    destruct (deleteDocument_spec _ _ _ _ Hrun) as (Hn & Hsub & _).
    split; [lia|]. split; [intros d Hin; apply Hdocs, Hsub, Hin|].
    intros job Hin. rewrite (deleteDocument_inFlight _ _ _ _ Hrun) in Hin. now apply Hjobs.
  - destruct Hgone as (Hid & Hdocs & Hjobs).
    destruct (keepsDocuments_askQuestion _ _ _ _ Hrun) as (Hd & Hn & Hfl).
    split; [lia|]. split; [rewrite Hd; exact Hdocs|]. intros job Hin.
    rewrite Hfl in Hin. now apply Hjobs.
  - destruct Hgone as (Hid & Hdocs & Hjobs).
    destruct (keepsDocuments_askQuestion_rev100540 _ _ _ _ Hrun) as (Hd & Hn & Hfl).
    split; [lia|]. split; [rewrite Hd; exact Hdocs|]. intros job Hin.
    rewrite Hfl in Hin. now apply Hjobs.
  - destruct Hgone as (Hid & Hdocs & Hjobs).
    destruct (settleInFlight_effect _ _ _ Hrun) as (docs & Hd & _ & _ & Hn & Hsub & Hshape).
    split; [lia|]. split.
    + intros d Hin. rewrite Hd in Hin. apply in_app_or in Hin.
      destruct Hin as [Hold|Hnew]; [now apply Hdocs|].
      destruct Hshape as [->|(job & Hjob & ->)]; [destruct Hnew|].
      destruct Hnew as [<-|[]]. cbn. split; [lia|].
      intro Hq. inversion Hq. now apply (Hjobs job Hjob).
    + intros job Hin. now apply Hjobs, Hsub.
  - exact (gone_grows _ _ _ Hgone
             (processAndSaveDocument_upToAwait_grows _ _ _ _ _ _ _ _ Hrun)).
Qed.

Lemma gone_after (id : nat) (w w' : World) : gone id w -> after w w' -> gone id w'.
Proof.
  intros Hgone Hafter. induction Hafter as [|w1 w2 _ IH Hstep]; [exact Hgone|].
  exact (gone_step _ _ _ IH Hstep).
Qed.

(** After a delete that succeeded, from a world the server can be in
    and with no task of the document in flight, the document is gone. *)
Lemma deleteDocument_gone (w w' : World) (req : DeleteRequest) (resp : Response) :
  reachable w ->
  settled (delete_id req) w ->
  deleteDocument req w = (Ok resp, w') ->
  status resp = 200 ->
  gone (delete_id req) w'.
Proof.
  intros Hreach Hsettled Hrun Hstatus.
  destruct (reachable_wellFormed w Hreach) as (H1 & _ & H3 & _).
  destruct (deleteDocument_spec _ _ _ _ Hrun) as (Hn & _ & Hok).
  destruct (Hok resp eq_refl Hstatus) as (document & Hfind & Hdocs).
  apply find_some in Hfind. destruct Hfind as [Hin Hid]. apply Nat.eqb_eq in Hid.
  split; [rewrite Hn, <- Hid; now apply H1|]. split.
  - intros d Hd. rewrite Hdocs in Hd. unfold afterDelete in Hd.
    apply filter_In in Hd. destruct Hd as [Hd Hne]. rewrite Hid in Hne.
    apply negb_true_iff, Nat.eqb_neq in Hne. split; [exact Hne|].
    intro Hq. destruct (isParentWithChunks document) eqn:Hparent.
    + apply filter_In in Hd. destruct Hd as [_ Hd]. apply negb_true_iff in Hd.
      unfold isChunkOf in Hd. rewrite Hq, Nat.eqb_refl in Hd. discriminate.
    + rewrite <- Hid in Hq. specialize (H3 d document Hd Hin Hq). congruence.
  - intros job Hj. rewrite (deleteDocument_inFlight _ _ _ _ Hrun) in Hj.
    now apply Hsettled.
Qed.

(** The cascade of [deleteDocument], where it holds. From a world the
    server can be in, and with no chunk task of the document still in
    flight: after a delete request that succeeds (status 200) no document
    has the deleted id as its [parentDocumentId] and none has that id,
    and this stays so whatever requests follow and whatever tasks in
    flight finish: the query for the chunks of the deleted parent is
    empty from then on. *)
Theorem deleteDocument_removes_chunks :
  forall (w w' w'' : World) (req : DeleteRequest) (resp : Response),
    reachable w ->
    settled (delete_id req) w ->
    deleteDocument req w = (Ok resp, w') ->
    status resp = 200 ->
    after w' w'' ->
    filter (isChunkOf (delete_id req)) (documents w'') = []
    /\ find (fun d => _id d =? delete_id req) (documents w'') = None.
Proof.
  intros w w' w'' req resp Hreach Hsettled Hrun Hstatus Hafter.
  destruct (gone_after _ _ _ (deleteDocument_gone _ _ _ _ Hreach Hsettled Hrun Hstatus)
              Hafter) as (_ & Hdocs & _).
  split.
  - apply filter_none. intros d Hd. apply isChunkOf_other. now apply Hdocs.
  - apply find_absent. intros d Hd. apply Nat.eqb_neq. now apply Hdocs.
Qed.


(* ------------------------------------------------------------------ *)
(** *** Ingestion policy and embeddings *)
(* ------------------------------------------------------------------ *)


Lemma holdsEmbeddingOf_embeddingAt (t : nat) (text : jsstring) (d : Doc) :
  embedding d = embeddingOrNone (embeddingAt t text) -> holdsEmbeddingOf t text d.
Proof.
  unfold holdsEmbeddingOf, embeddingAt. intros ->.
  destruct (JsString.isEmpty (voyageApiKey env)).
  - repeat split; try reflexivity; discriminate.
  - destruct (voyage env t text) as [response|err].
    + split; [intros r e _ Hr He; inversion Hr; subst r; now rewrite He|].
      split; [discriminate|]. split; [discriminate|].
      intros r Hr He. inversion Hr; subst r. now rewrite He.
    + split; [discriminate|]. repeat split; try reflexivity; discriminate.
Qed.


(** C6, as the code has it. Whatever the embedding provider, the
    database and the order of the replies do, every record an ingestion
    adds is one of: the parent of a split document, holding no embedding;
    a document stored whole, holding what the provider replied to the
    request for its cleaned text, the vector of the reply or nothing when
    the call failed; the record of chunk number [i], holding what the
    provider replied to the request for that chunk's own text, again the
    vector or nothing. *)
Theorem ingestion_embeddings :
  forall (title body userId : jsstring) (category : option jsstring)
         (tags : option (list jsstring)) (w w' : World) (o : Outcome IngestResult),
    processAndSaveDocument title body userId category tags w = (o, w') ->
    let cleaned := cleanText body in
    exists docs,
      documents w' = documents w ++ docs
      /\ forall d, In d docs ->
           (isChunk d = false /\ 2000 < JsString.length cleaned /\ embedding d = [])
           \/ (isChunk d = false /\ JsString.length cleaned <= 2000
               /\ content d = cleaned
               /\ holdsEmbeddingOf (clock w) cleaned d)
           \/ (isChunk d = true /\ 2000 < JsString.length cleaned
               /\ exists i chunk,
                    nth_error (chunkText cleaned 1000 200) i = Some chunk
                    /\ content d = text chunk
                    /\ holdsEmbeddingOf (S (clock w) + i) (text chunk) d).
Proof.
  intros title body userId category tags w w' o Hrun cleaned.
  destruct (2000 <? JsString.length cleaned) eqn:Hsize.
  - destruct (processAndSaveDocument_large title body userId category tags w Hsize)
      as (o' & docs & left & w'' & E & (Hd & _) & _ & Hshape & _).
    rewrite E in Hrun. inversion Hrun; subst o' w''. apply Nat.ltb_lt in Hsize.
    exists docs. split; [exact Hd|]. intros d Hin.
    destruct Hshape as [(-> & _)|(done & -> & Hdone)]; [destruct Hin|].
    destruct Hin as [<-|Hin]; [left; repeat split; auto|].
    right; right. apply In_mapiFrom in Hin. destruct Hin as (job & j & Hj & ->).
    assert (Hjob : In job (mapi (jobOf title userId category tags (nextId w)
                                   (List.length (chunkText cleaned 1000 200))
                                   (S (clock w))) (chunkText cleaned 1000 200))).
    { apply nth_error_In in Hj. destruct Hdone as [(_ & _ & Hp)|(_ & bad & Hp)].
      - now apply (Permutation_in _ Hp).
      - apply (Permutation_in _ Hp), in_or_app. now left. }
    apply In_jobs in Hjob. destruct Hjob as (chunk & i & Hi & ->).
    split; [reflexivity|]. split; [exact Hsize|].
    exists i, chunk. split; [exact Hi|]. split; [reflexivity|].
    apply holdsEmbeddingOf_embeddingAt. now rewrite jobRecord_jobOf.
  - destruct (processAndSaveDocument_small title body userId category tags w Hsize)
      as (o' & docs & w'' & E & (Hd & _) & _ & Hshape & _).
    rewrite E in Hrun. inversion Hrun; subst o' w''. apply Nat.ltb_ge in Hsize.
    exists docs. split; [exact Hd|]. intros d Hin.
    destruct Hshape as [(-> & _)|(-> & _)]; [destruct Hin|].
    destruct Hin as [<-|[]]. right; left.
    split; [reflexivity|]. split; [exact Hsize|]. split; [reflexivity|].
    now apply holdsEmbeddingOf_embeddingAt.
Qed.

(** C2, as the code has it. [generateEmbedding] never throws and hands
    back the first embedding of the provider's reply exactly as it came,
    whatever its length; it yields nothing only when the key is missing,
    the call threw, or the reply carries no embedding. Ingestion of a
    document stored whole writes that vector, or an empty one, into the
    record. *)
Theorem embedding_taken_as_returned :
  forall (text : jsstring) (w : World),
    (exists events,
        generateEmbedding text w = (Ok (embeddingAt (clock w) text), logged events w))
    /\ (forall e, embeddingAt (clock w) text = Some e <->
          JsString.isEmpty (voyageApiKey env) = false
          /\ exists response,
               voyage env (clock w) text = Ok response
               /\ firstEmbedding response = Some e)
    /\ (forall title userId category tags,
          (forall t, dbError env t = None) ->
          JsString.length (cleanText text) <= 2000 ->
          exists r w',
            processAndSaveDocument title text userId category tags w = (Ok r, w')
            /\ documents w' =
                 documents w
                 ++ [singleRecord title (cleanText text) userId category tags
                       (embeddingAt (clock w) (cleanText text)) (nextId w)]).
Proof.
  intros text w. split; [apply generateEmbedding_spec|]. split.
  - intro e. unfold embeddingAt.
    destruct (JsString.isEmpty (voyageApiKey env)).
    + split; [discriminate | intros [H _]; discriminate].
    + destruct (voyage env (clock w) text) as [response|err].
      * split; [eauto|]. intros (_ & r & Hr & He). now inversion Hr; subst.
      * split; [discriminate|]. intros (_ & r & Hr & _). discriminate.
  - intros title userId category tags Hdb Hsmall.
    apply Nat.ltb_ge in Hsmall.
    destruct (processAndSaveDocument_small title text userId category tags w Hsmall)
      as (o & docs & w' & E & (Hd & _) & _ & _ & Hok).
    destruct (Hok Hdb) as (-> & ->). eauto.
Qed.

(* ------------------------------------------------------------------ *)
(** *** Answers are never blank *)
(* ------------------------------------------------------------------ *)

Lemma trimStart_head (s : jsstring) (c : N) (r : jsstring) :
  JsString.trimStart s = c :: r -> JsString.isWhiteSpace c = false.
Proof.
  induction s as [|x s IH]; cbn [JsString.trimStart]; [discriminate|].
  destruct (JsString.isWhiteSpace x) eqn:E; [exact IH|].
  intro H. inversion H; subst. exact E.
Qed.

Lemma trimStart_suffix (s : jsstring) :
  exists ws, s = ws ++ JsString.trimStart s.
Proof.
  induction s as [|x s [ws IH]]; [now exists []|]. cbn [JsString.trimStart].
  destruct (JsString.isWhiteSpace x).
  - exists (x :: ws). cbn. now rewrite <- IH.
  - now exists [].
Qed.

Lemma trimStart_fixed (c : N) (r : jsstring) :
  JsString.isWhiteSpace c = false -> JsString.trimStart (c :: r) = c :: r.
Proof. intro H. cbn [JsString.trimStart]. now rewrite H. Qed.

(** What [trim] leaves, when it leaves anything, starts and ends with a
    code unit that is not white space, and [trim] leaves it alone. *)
Lemma trim_ends (s : jsstring) (c : N) (r : jsstring) :
  JsString.trim s = c :: r ->
  JsString.isWhiteSpace c = false
  /\ JsString.isWhiteSpace (last (c :: r) c) = false
  /\ JsString.trim (c :: r) = c :: r.
Proof.
  unfold JsString.trim, JsString.trimEnd. intro H.
  destruct (trimStart_suffix (rev (JsString.trimStart s))) as [ws Hws].
  apply (f_equal (@rev N)) in Hws. rewrite rev_involutive, rev_app_distr, H in Hws.
  assert (Hfirst : JsString.isWhiteSpace c = false)
    by (apply (trimStart_head s c (r ++ rev ws)); exact Hws).
  apply (f_equal (@rev N)) in H. rewrite rev_involutive in H.
  destruct (rev (c :: r)) as [|c' r'] eqn:Hrev.
  { apply (f_equal (@List.length N)) in Hrev. rewrite length_rev in Hrev. discriminate. }
  assert (Hlast : JsString.isWhiteSpace c' = false)
    by (apply (trimStart_head (rev (JsString.trimStart s)) c' r'); exact H).
  assert (Hshape : c :: r = rev r' ++ [c']).
  { rewrite <- (rev_involutive (c :: r)), Hrev. reflexivity. }
  split; [exact Hfirst|]. split.
  - rewrite Hshape, last_last. exact Hlast.
  - rewrite (trimStart_fixed c r Hfirst), Hrev, (trimStart_fixed c' r' Hlast).
    now rewrite <- Hrev, rev_involutive.
Qed.

(** An answer of [processQuestion] is the provider's text trimmed, and
    is not empty. *)
Lemma processQuestion_answer (question : jsstring) (w w1 : World) (r : RAGResponse) :
  processQuestion question w = (Ok r, w1) ->
  answer r <> [] /\ JsString.trim (answer r) = answer r
  /\ exists t text,
       gemini env t (buildPrompt question (relevantDocs r)) = Ok text
       /\ answer r = JsString.trim text.
Proof.
  unfold processQuestion.
  destruct (quietTotal_generateEmbedding question w) as (emb & ev1 & E1).
  rewrite (bind_ok _ _ _ _ _ E1).
  destruct (quietTotal_searchDocuments question emb 3 (logged ev1 w)) as (hits & ev2 & E2).
  rewrite (bind_ok _ _ _ _ _ E2).
  destruct (generateAnswer_spec question hits (logged ev2 (logged ev1 w))) as (ev3 & E3).
  unfold bind at 1. rewrite E3.
  destruct (gemini env (clock (logged ev2 (logged ev1 w))) (buildPrompt question hits))
    as [text|err] eqn:Hg; [|discriminate].
  unfold generationFails.
  destruct (JsString.isEmpty text || (JsString.length (JsString.trim text) =? 0)) eqn:Hblank;
    [discriminate|].
  unfold ret. intro H. inversion H; subst r w1. cbn [answer relevantDocs].
  apply orb_false_iff in Hblank. destruct Hblank as [_ Hlen].
  destruct (JsString.trim text) as [|c rest] eqn:Htrim; [discriminate|].
  destruct (trim_ends text c rest Htrim) as (_ & _ & Hfix).
  split; [discriminate|]. split; [exact Hfix|].
  exists (clock (logged ev2 (logged ev1 w))), text. now rewrite Htrim.
Qed.

(** A reply of [askQuestion] that carries an answer has status 200; the
    question in it is the one asked and is not blank; the answer is the
    text of the generation provider with the white space at both ends
    removed, and it is never empty. *)
Theorem askQuestion_answer_never_blank :
  forall (req : AskRequest) (w w' : World) (resp : Response)
         (question answer : jsstring) (cid : option nat) (sources : list Source),
    askQuestion req w = (Ok resp, w') ->
    payload resp = Answered question answer cid sources ->
    status resp = 200 /\ success resp = true
    /\ ask_question req = Some (JsonString question)
    /\ questionMissing (Some (JsonString question)) = Ok false
    /\ answer <> [] /\ JsString.trim answer = answer
    /\ exists t context text,
         gemini env t (buildPrompt question context) = Ok text
         /\ answer = JsString.trim text.
Proof.
  intros req w w' resp question ans cid sources Hrun Hpay.
  destruct (ask_user req) as [user|] eqn:Huser;
    [|rewrite (askQuestion_unauthorized _ _ Huser) in Hrun; inversion Hrun; subst;
      discriminate].
  destruct (questionMissing_cases (ask_question req))
    as [Hq|[(q & Hsome & Hq)|(Hq & _)]];
    [rewrite (askQuestion_turned_away _ _ _ Huser Hq) in Hrun; inversion Hrun; subst;
     discriminate
    | |rewrite (askQuestion_test_throws _ _ _ _ Huser Hq) in Hrun; inversion Hrun; subst;
       discriminate].
  rewrite Hsome in Hq. rewrite (askQuestion_asked _ _ _ Huser Hsome Hq) in Hrun.
  destruct (processQuestion q w) as [[[a docs]|e] w1] eqn:Hrag.
  - rewrite (tryCatch_bind_ok _ _ _ _ _ _ Hrag) in Hrun.
    destruct (handleConversation (user_id user) (ask_conversationId req) q a w1)
      as [[c|e] w2] eqn:Hconv.
    + destruct (saveChatHistory_spec (user_id user) c q a w2) as (w3 & Hsave & _).
      rewrite (tryCatch_ok _ _ _ w3
                 (mkResponse 200 true (Answered q a c (map toSource docs)))) in Hrun
        by (rewrite (bind_ok _ _ _ _ _ Hconv); now rewrite (bind_ok _ _ _ _ _ Hsave)).
      inversion Hrun; subst resp w'. cbn [payload] in Hpay. inversion Hpay; subst.
      destruct (processQuestion_answer _ _ _ _ Hrag) as (Hne & Hfix & t & text & Hg & Ht).
      cbn [answer relevantDocs] in *. repeat split; auto. eauto.
    + rewrite (tryCatch_throw _ _ _ w2 e) in Hrun by (apply bind_throw; exact Hconv).
      cbv [bind consoleError emit ret] in Hrun. inversion Hrun; subst. discriminate.
  - rewrite (tryCatch_throw _ _ _ w1 e) in Hrun by (apply bind_throw; exact Hrag).
    cbv [bind consoleError emit ret] in Hrun. inversion Hrun; subst. discriminate.
Qed.

(* ------------------------------------------------------------------ *)
(** *** Without a key for the embedding provider *)
(* ------------------------------------------------------------------ *)

(** With no key for the embedding provider, [processQuestion] calls
    neither that provider nor vector search: its first call is the text
    search for the question with limit 3, and the documents it hands on
    are what that search returned. *)
Theorem processQuestion_without_embedding_key :
  forall (question : jsstring) (w : World),
    JsString.isEmpty (voyageApiKey env) = true ->
    exists o events,
      processQuestion question w = (o, logged events w)
      /\ hd_error events = Some (AtlasTextSearch question 3)
      /\ Forall usesNoEmbedding events
      /\ forall r, o = Ok r -> relevantDocs r = textSearchAt (clock w) question 3.
Proof.
  intros question [tr ds cs ms nid fl] Hkey.
  unfold processQuestion, generateEmbedding, searchDocuments, generateAnswer, textSearchAt,
    logged.
  rewrite Hkey. run.
  destruct (atlasFindSimilar env (List.length tr) question 3) as [found|err1]; run;
    rewrite ?length_snoc;
    match goal with
    | |- context [gemini env ?t ?p] => destruct (gemini env t p) as [text|err2]
    end; run;
    try match goal with
    | |- context [if ?b then _ else _] => destruct b
    end; run;
    eexists; eexists; rewrite <- ?app_assoc; cbn [app];
    (split; [reflexivity|]); (split; [reflexivity|]);
    (split; [repeat constructor|]); intros r Hr; inversion Hr; reflexivity.
Qed.

Lemma emitsOnly_handleConversation (user : jsstring) (reqId : option nat)
  (question answer : jsstring) :
  emitsOnly notTextSearch (handleConversation user reqId question answer).
Proof.
  unfold handleConversation, Conversation_findOne, save, Conversation_create, dbCall.
  emits.
Qed.

Lemma emitsOnly_saveChatHistory (user : jsstring) (cid : option nat)
  (question answer : jsstring) :
  emitsOnly notTextSearch (saveChatHistory user cid question answer).
Proof. unfold saveChatHistory, Chat_create, dbCall, consoleError. emits. Qed.

Lemma emitsOnly_generateAIResponse (question : jsstring) (context : list Hit) :
  emitsOnly notTextSearch (generateAIResponse question context).
Proof. unfold generateAIResponse, generateContent, consoleError. emits. Qed.

(* ------------------------------------------------------------------ *)
(** *** Asking and the stores *)
(* ------------------------------------------------------------------ *)

(** No ask request, in either revision of the controller and whatever
    the providers and the database do, changes the document store. *)
Theorem asking_never_changes_documents :
  forall (req : AskRequest) (w w' : World) (o : Outcome Response),
    askQuestion req w = (o, w') \/ askQuestion_rev100540 req w = (o, w') ->
    documents w' = documents w.
Proof.
  intros req w w' o [H|H].
  - exact (proj1 (keepsDocuments_askQuestion req w o w' H)).
  - exact (proj1 (keepsDocuments_askQuestion_rev100540 req w o w' H)).
Qed.

Lemma JsString_eqb_eq (a b : jsstring) : JsString.eqb a b = true <-> a = b.
Proof.
  revert b. induction a as [|x a IH]; intros [|y b]; cbn; split; try discriminate;
    try reflexivity.
  - intro H. apply andb_true_iff in H. destruct H as [Hx Hr].
    apply N.eqb_eq in Hx. apply IH in Hr. now subst.
  - intro H. inversion H; subst. rewrite N.eqb_refl. cbn. now apply IH.
Qed.

(** How [handleConversation] ends: with an exception and the stores as
    they were; with the conversation of the request, which is one of the
    caller's, carrying the start of the answer; or with a conversation
    created for the caller under a fresh id. *)
Lemma handleConversation_spec (user : jsstring) (reqId : option nat)
  (question answer : jsstring) (w w' : World) (o : Outcome (option nat)) :
  handleConversation user reqId question answer w = (o, w') ->
  documents w' = documents w /\ chats w' = chats w
  /\ ((isOk o = false /\ conversations w' = conversations w /\ nextId w' = nextId w)
      \/ (exists cid c,
            reqId = Some cid /\ o = Ok (Some cid)
            /\ In c (conversations w) /\ conv_id c = cid /\ conv_user c = user
            /\ conversations w' =
                 map (fun c0 => if conv_id c0 =? cid
                                then setLastMessage c (JsString.substring answer 0 100)
                                else c0) (conversations w)
            /\ nextId w' = nextId w)
      \/ (o = Ok (Some (nextId w))
          /\ conversations w' =
               conversations w ++ [newConversation (nextId w) user question answer]
          /\ nextId w' = S (nextId w))).
Proof.
  assert (Hnew : forall tr' (o' : Outcome (option nat)),
    (c <- Conversation_create user (conversationTitle question)
            (JsString.substring answer 0 100) ;; ret (Some (conv_id c)))
      (mkWorld tr' (documents w) (conversations w) (chats w) (nextId w) (inFlight w)) = (o', w') ->
    documents w' = documents w /\ chats w' = chats w
    /\ ((isOk o' = false /\ conversations w' = conversations w /\ nextId w' = nextId w)
        \/ (o' = Ok (Some (nextId w))
            /\ conversations w' =
                 conversations w ++ [newConversation (nextId w) user question answer]
            /\ nextId w' = S (nextId w)))).
  { intros tr' o'. unfold Conversation_create, newConversation. run.
    destruct (dbError env (List.length tr')); run; intro H; inversion H; subst; cbn;
      (split; [reflexivity|]); (split; [reflexivity|]);
      first [left; repeat split; reflexivity | right; repeat split; reflexivity]. }
  destruct w as [tr ds cs ms nid fl]. cbn [documents conversations chats nextId inFlight] in *.
  unfold handleConversation. destruct reqId as [i|].
  - unfold Conversation_findOne, save. run.
    destruct (dbError env (List.length tr)); run.
    + intro H. inversion H; subst. cbn [documents conversations chats nextId inFlight isOk].
      split; [reflexivity|]. split; [reflexivity|]. left. repeat split; reflexivity.
    + destruct (find (fun c => (conv_id c =? i) && JsString.eqb (conv_user c) user) cs)
        as [c|] eqn:Hfind; run.
      * apply find_some in Hfind. destruct Hfind as [Hin Hc].
        apply andb_true_iff in Hc. destruct Hc as [Hid Hu].
        apply Nat.eqb_eq in Hid. apply JsString_eqb_eq in Hu.
        rewrite length_snoc.
        destruct (dbError env (S (List.length tr))); run; intro H; inversion H; subst;
          cbn [documents conversations chats nextId inFlight isOk];
          (split; [reflexivity|]); (split; [reflexivity|]);
          [left; repeat split; reflexivity|].
        right; left. exists (conv_id c), c. repeat split; auto.
      * intro H. destruct (Hnew _ _ H) as (Hd & Hm & [Hfail|Hmade]); auto.
  - run. intro H. destruct (Hnew _ _ H) as (Hd & Hm & [Hfail|Hmade]); auto.
Qed.

(** With a database that answers, [handleConversation] returns. *)
Lemma handleConversation_returns (user : jsstring) (reqId : option nat)
  (question answer : jsstring) (w : World) :
  (forall t, dbError env t = None) ->
  exists cid w', handleConversation user reqId question answer w = (Ok cid, w').
Proof.
  intro Hdb. destruct w as [tr ds cs ms nid fl].
  unfold handleConversation, Conversation_findOne, save, Conversation_create.
  destruct reqId as [i|]; run; rewrite ?Hdb; run.
  - destruct (find (fun c => (conv_id c =? i) && JsString.eqb (conv_user c) user) cs);
      run; rewrite ?Hdb; run; eauto.
  - eauto.
Qed.

(** What [saveChatHistory] leaves in the message store: the exchange, or
    the part of it written before a write failed. *)
Lemma saveChatHistory_chats (user : jsstring) (cid : option nat)
  (question answer : jsstring) (w : World) :
  exists w' written,
    saveChatHistory user cid question answer w = (Ok tt, w')
    /\ documents w' = documents w
    /\ conversations w' = conversations w
    /\ nextId w' = nextId w
    /\ chats w' = chats w ++ written
    /\ (written = [] \/ written = [mkChat user cid user_role question]
        \/ written = exchange user cid question answer)
    /\ ((forall t, dbError env t = None) -> written = exchange user cid question answer).
Proof.
  destruct w as [tr ds cs ms nid fl]. unfold saveChatHistory, Chat_create, exchange. run.
  destruct (dbError env (List.length tr)) as [e1|] eqn:H1; run.
  - exists (mkWorld ((tr ++ [Db ChatCreate])
                     ++ [ConsoleError (cross ++ js " Error saving chat history:")])
                    ds cs ms nid fl), [].
    cbn. rewrite app_nil_r. repeat split; auto.
    intro Hdb. rewrite Hdb in H1. discriminate.
  - rewrite length_snoc.
    destruct (dbError env (S (List.length tr))) as [e2|] eqn:H2; run.
    + eexists; exists [mkChat user cid user_role question].
      split; [reflexivity|]. cbn. repeat split; auto.
      intro Hdb. rewrite Hdb in H2. discriminate.
    + eexists; exists [mkChat user cid user_role question;
                       mkChat user cid model_role answer].
      split; [reflexivity|]. cbn. rewrite <- app_assoc. repeat split; auto.
Qed.

(** The ways a run of [askQuestion] can go: turned away at the door;
    failed in the pipeline; failed on the conversation; or answered, the
    message history saved as far as the database allowed. *)
Lemma askQuestion_cases (req : AskRequest) (w w' : World) (o : Outcome Response) :
  askQuestion req w = (o, w') ->
  ((exists events, w' = logged events w)
   /\ exists resp, o = Ok resp
                   /\ (status resp = 401 \/ status resp = 400 \/ status resp = 500))
  \/ exists user question,
       ask_user req = Some user /\ ask_question req = Some (JsonString question)
       /\ questionMissing (Some (JsonString question)) = Ok false
       /\ ((exists e w1,
              processQuestion question w = (Throw e, w1)
              /\ w' = logged [ConsoleError (cross ++ js " Chat error:")] w1
              /\ exists resp, o = Ok resp /\ status resp = 500)
           \/ exists r w1 o2 w2,
                processQuestion question w = (Ok r, w1)
                /\ handleConversation (user_id user) (ask_conversationId req)
                     question (answer r) w1 = (o2, w2)
                /\ ((exists e, o2 = Throw e
                       /\ w' = logged [ConsoleError (cross ++ js " Chat error:")] w2
                       /\ exists resp, o = Ok resp /\ status resp = 500)
                    \/ exists cid,
                         o2 = Ok cid
                         /\ saveChatHistory (user_id user) cid question (answer r) w2
                            = (Ok tt, w')
                         /\ o = Ok (mkResponse 200 true
                                      (Answered question (answer r) cid
                                                (map toSource (relevantDocs r)))))).
Proof.
  intro Hrun.
  destruct (ask_user req) as [user|] eqn:Huser;
    [|rewrite (askQuestion_unauthorized _ _ Huser) in Hrun; inversion Hrun; subst; left;
      split; [exists []; now rewrite logged_nil|]; eexists; split; [reflexivity|]; now left].
  destruct (questionMissing_cases (ask_question req))
    as [Hq|[(q & Hsome & Hq)|(Hq & _)]];
    [rewrite (askQuestion_turned_away _ _ _ Huser Hq) in Hrun; inversion Hrun; subst; left;
     split; [exists []; now rewrite logged_nil|]; eexists; split; [reflexivity|]; auto
    | |rewrite (askQuestion_test_throws _ _ _ _ Huser Hq) in Hrun; inversion Hrun; subst;
       left; split; [eauto|]; eexists; split; [reflexivity|]; auto].
  rewrite Hsome in Hq. rewrite (askQuestion_asked _ _ _ Huser Hsome Hq) in Hrun.
  right. exists user, q. split; [reflexivity|]. split; [exact Hsome|].
  split; [exact Hq|].
  destruct (processQuestion q w) as [[[a docs]|e] w1] eqn:Hrag.
  - right. exists (mkRAGResponse a docs), w1. cbn [answer relevantDocs].
    rewrite (tryCatch_bind_ok _ _ _ _ _ _ Hrag) in Hrun.
    destruct (handleConversation (user_id user) (ask_conversationId req) q a w1)
      as [[c|e] w2] eqn:Hconv.
    + exists (Ok c), w2. split; [reflexivity|]. split; [reflexivity|]. right. exists c.
      destruct (saveChatHistory_spec (user_id user) c q a w2) as (w3 & Hsave & _).
      rewrite (tryCatch_ok _ _ _ w3
                 (mkResponse 200 true (Answered q a c (map toSource docs)))) in Hrun
        by (rewrite (bind_ok _ _ _ _ _ Hconv); now rewrite (bind_ok _ _ _ _ _ Hsave)).
      inversion Hrun; subst. auto.
    + exists (Throw e), w2. split; [reflexivity|]. split; [reflexivity|]. left. exists e.
      rewrite (tryCatch_throw _ _ _ w2 e) in Hrun by (apply bind_throw; exact Hconv).
      cbv [bind consoleError emit ret] in Hrun. inversion Hrun; subst.
      split; [reflexivity|]. split; [reflexivity|]. eexists. split; reflexivity.
  - left. exists e, w1. split; [reflexivity|].
    rewrite (tryCatch_throw _ _ _ w1 e) in Hrun by (apply bind_throw; exact Hrag).
    cbv [bind consoleError emit ret] in Hrun. inversion Hrun; subst.
    split; [reflexivity|]. eexists. split; reflexivity.
Qed.

Lemma processQuestion_stores (question : jsstring) (w w1 : World)
  (o : Outcome RAGResponse) :
  processQuestion question w = (o, w1) ->
  documents w1 = documents w /\ conversations w1 = conversations w
  /\ chats w1 = chats w /\ nextId w1 = nextId w.
Proof.
  intro H. destruct (onlyLogs_processQuestion question w) as (o' & ev & E).
  rewrite E in H. inversion H; subst. cbn. auto.
Qed.


Lemma NoDup_map_eq {A B} (f : A -> B) (l : list A) (a b : A) :
  NoDup (map f l) -> In a l -> In b l -> f a = f b -> a = b.
Proof.
  induction l as [|x l IH]; [intros _ []|]. cbn. intros Hnd Ha Hb Hf.
  inversion Hnd as [|y ys Hnotin Hrest]; subst.
  destruct Ha as [->|Ha], Hb as [->|Hb]; auto.
  - exfalso. apply Hnotin. rewrite Hf. now apply in_map.
  - exfalso. apply Hnotin. rewrite <- Hf. now apply in_map.
Qed.

Lemma NoDup_snoc {A} (l : list A) (x : A) : NoDup l -> ~ In x l -> NoDup (l ++ [x]).
Proof.
  induction l as [|y l IH]; cbn; intros Hnd Hx; [repeat constructor; auto|].
  inversion Hnd as [|z zs Hy Hrest]; subst. constructor.
  - intro Hin. apply in_app_or in Hin. destruct Hin as [Hin|[->|[]]]; auto.
  - apply IH; auto.
Qed.

(** The conversation [handleConversation] returns is one of the
    caller's, and carries the start of the answer. *)
Lemma handleConversation_owner (user : jsstring) (reqId : option nat)
  (question answer : jsstring) (w w' : World) (cid : option nat) :
  handleConversation user reqId question answer w = (Ok cid, w') ->
  exists c, cid = Some (conv_id c) /\ In c (conversations w')
            /\ conv_user c = user
            /\ lastMessage c = JsString.substring answer 0 100.
Proof.
  intro Hconv. destruct (handleConversation_spec _ _ _ _ _ _ _ Hconv) as (_ & _ & Hshape).
  destruct Hshape as [(Hfail & _)|[(i & c0 & _ & Ho & Hin & Hid & Hu & Hmap & _)
                                  |(Ho & Happ & _)]].
  - discriminate.
  - inversion Ho; subst cid. exists (setLastMessage c0 (JsString.substring answer 0 100)).
    cbn. repeat split; auto. rewrite Hmap. apply in_map_iff. exists c0.
    rewrite Hid, Nat.eqb_refl. auto.
  - inversion Ho; subst cid. exists (newConversation (nextId w) user question answer).
    cbn. repeat split; auto. rewrite Happ. apply in_or_app. right. now left.
Qed.

(** Asking keeps the users' conversations apart. From a store whose
    conversation ids are distinct, whatever the request names as its
    conversation and however the run ends: the ids stay distinct; no
    conversation of another user is changed or removed; every
    conversation that is new belongs to the caller; every message that is
    new is the caller's and is filed under a conversation of the caller.
    A request that names a conversation which is not the caller's and is
    answered (status 200) has made a new conversation for the caller,
    under a fresh id that no conversation carried, and the reply names
    that one. *)
Theorem askQuestion_conversation_isolation :
  forall (req : AskRequest) (user : User) (w w' : World) (o : Outcome Response),
    ask_user req = Some user ->
    conversationsWellFormed w ->
    askQuestion req w = (o, w') ->
    conversationsWellFormed w'
    /\ (forall c, In c (conversations w) -> conv_user c <> user_id user ->
                  In c (conversations w'))
    /\ (forall c, In c (conversations w') ->
                  In c (conversations w) \/ conv_user c = user_id user)
    /\ (forall m, In m (chats w') ->
          In m (chats w)
          \/ (chat_user m = user_id user
              /\ exists c, In c (conversations w') /\ conv_user c = user_id user
                           /\ chat_conversation m = Some (conv_id c)))
    /\ (forall cid resp,
          ask_conversationId req = Some cid ->
          (forall c, In c (conversations w) -> conv_id c = cid ->
                     conv_user c <> user_id user) ->
          o = Ok resp -> status resp = 200 ->
          (forall c, In c (conversations w) -> conv_id c <> nextId w)
          /\ exists question answer sources,
               payload resp = Answered question answer (Some (nextId w)) sources
               /\ conversations w' =
                    conversations w
                    ++ [newConversation (nextId w) (user_id user) question answer]).
Proof.
  intros req user0 w w' o Huser0 [Hnd Hlt] Hrun.
  assert (Hsame : forall w0 : World,
            conversations w0 = conversations w -> chats w0 = chats w ->
            nextId w0 = nextId w ->
            conversationsWellFormed w0
            /\ (forall c, In c (conversations w) -> conv_user c <> user_id user0 ->
                          In c (conversations w0))
            /\ (forall c, In c (conversations w0) ->
                          In c (conversations w) \/ conv_user c = user_id user0)
            /\ (forall m, In m (chats w0) ->
                  In m (chats w)
                  \/ (chat_user m = user_id user0
                      /\ exists c, In c (conversations w0) /\ conv_user c = user_id user0
                                   /\ chat_conversation m = Some (conv_id c)))).
  { intros w0 Hc Hm Hn. unfold conversationsWellFormed. rewrite Hc, Hm, Hn.
    repeat split; auto. }
  assert (Hno : forall resp : Response,
            status resp = 401 \/ status resp = 400 \/ status resp = 500 ->
            forall cid resp0,
              ask_conversationId req = Some cid ->
              (forall c, In c (conversations w) -> conv_id c = cid ->
                         conv_user c <> user_id user0) ->
              Ok resp = Ok resp0 -> status resp0 = 200 ->
              (forall c, In c (conversations w) -> conv_id c <> nextId w)
              /\ exists question answer sources,
                   payload resp0 = Answered question answer (Some (nextId w)) sources
                   /\ conversations w' =
                        conversations w
                        ++ [newConversation (nextId w) (user_id user0) question answer]).
  { intros resp Hs cid resp0 _ _ Heq H200. inversion Heq; subst resp0.
    destruct Hs as [Hs|[Hs|Hs]]; congruence. }
  destruct (askQuestion_cases _ _ _ _ Hrun)
    as [((ev & ->) & resp & -> & Hs)|(user & q & Huser & Hq & _ & Hstage)].
  { destruct (Hsame (logged ev w) eq_refl eq_refl eq_refl) as (A & B & C & D).
    split; [exact A|]. split; [exact B|]. split; [exact C|]. split; [exact D|].
    now apply (Hno resp Hs). }
  rewrite Huser0 in Huser. inversion Huser; subst user0. clear Huser.
  destruct Hstage as [(e & w1 & Hrag & -> & resp & -> & Hs)
                     |(r & w1 & o2 & w2 & Hrag & Hconv & Hrest)].
  { destruct (processQuestion_stores _ _ _ _ Hrag) as (_ & Hc1 & Hm1 & Hn1).
    destruct (Hsame (logged [ConsoleError (cross ++ js " Chat error:")] w1) Hc1 Hm1 Hn1)
      as (A & B & C & D).
    split; [exact A|]. split; [exact B|]. split; [exact C|]. split; [exact D|].
    now apply (Hno resp (or_intror (or_intror Hs))). }
  destruct (processQuestion_stores _ _ _ _ Hrag) as (_ & Hc1 & Hm1 & Hn1).
  destruct (handleConversation_spec _ _ _ _ _ _ _ Hconv) as (_ & Hm2 & Hshape).
  assert (Hw2 : conversationsWellFormed w2
            /\ (forall c, In c (conversations w) -> conv_user c <> user_id user ->
                          In c (conversations w2))
            /\ (forall c, In c (conversations w2) ->
                          In c (conversations w) \/ conv_user c = user_id user)).
  { rewrite Hc1, Hn1 in Hshape.
    destruct Hshape as [(_ & Hc2 & Hn2)|[(i & c0 & _ & _ & Hin & Hid & Hu & Hmap & Hn2)
                                        |(_ & Happ & Hn2)]].
    - unfold conversationsWellFormed. rewrite Hc2, Hn2. repeat split; auto.
    - assert (Hids : map conv_id (conversations w2) = map conv_id (conversations w)).
      { rewrite Hmap, map_map. apply map_ext. intro c1.
        destruct (conv_id c1 =? i) eqn:E; [|reflexivity].
        apply Nat.eqb_eq in E. cbn. congruence. }
      split; [|split].
      + split; [now rewrite Hids|]. intros c1 Hc1'. rewrite Hn2.
        apply (in_map conv_id) in Hc1'. rewrite Hids in Hc1'.
        apply in_map_iff in Hc1'. destruct Hc1' as (c2 & <- & Hc2). now apply Hlt.
      + intros c1 Hin1 Hother. rewrite Hmap. apply in_map_iff. exists c1.
        split; [|exact Hin1].
        destruct (conv_id c1 =? i) eqn:E; [|reflexivity].
        apply Nat.eqb_eq in E. exfalso. apply Hother.
        rewrite (NoDup_map_eq conv_id (conversations w) c1 c0 Hnd Hin1 Hin); congruence.
      + intros c1 Hin1. rewrite Hmap in Hin1. apply in_map_iff in Hin1.
        destruct Hin1 as (c2 & <- & Hc2).
        destruct (conv_id c2 =? i); [right; exact Hu | now left].
    - split; [|split].
      + split.
        * rewrite Happ, map_app. cbn. apply NoDup_snoc; [exact Hnd|].
          intro Hin. apply in_map_iff in Hin. destruct Hin as (c1 & Hid & Hc1').
          specialize (Hlt c1 Hc1'). lia.
        * intros c1 Hc1'. rewrite Hn2, Happ in *. apply in_app_or in Hc1'.
          destruct Hc1' as [Hold|[<-|[]]]; [specialize (Hlt c1 Hold); lia | cbn; lia].
      + intros c1 Hin1 _. rewrite Happ. apply in_or_app. now left.
      + intros c1 Hin1. rewrite Happ in Hin1. apply in_app_or in Hin1.
        destruct Hin1 as [Hold|[<-|[]]]; [now left | now right]. }
  destruct Hw2 as ((Hnd2 & Hlt2) & Hkeep & Hnew).
  destruct Hrest as [(e & -> & -> & resp & -> & Hs)|(c & -> & Hsave & ->)].
  - cbn [logged conversations chats nextId]. rewrite Hm2, Hm1.
    split; [split; auto|]. split; [exact Hkeep|]. split; [exact Hnew|].
    split; [now left|]. now apply (Hno resp (or_intror (or_intror Hs))).
  - destruct (saveChatHistory_chats (user_id user) c q (answer r) w2)
      as (w3 & written & Hsave' & _ & Hc3 & Hn3 & Hm3 & Hwritten & _).
    rewrite Hsave in Hsave'. inversion Hsave'; subst w3. clear Hsave'.
    destruct (handleConversation_owner _ _ _ _ _ _ _ Hconv) as (c0 & Hcid & Hin0 & Hu0 & _).
    unfold conversationsWellFormed. rewrite Hc3, Hn3, Hm3, Hm2, Hm1.
    split; [split; auto|]. split; [exact Hkeep|]. split; [exact Hnew|]. split.
    + intros m Hm. apply in_app_or in Hm. destruct Hm as [Hold|Hm]; [now left|right].
      assert (Hfiled : chat_user m = user_id user /\ chat_conversation m = c).
      { unfold exchange in Hwritten.
        destruct Hwritten as [->|[->| ->]]; cbn in Hm;
          repeat (destruct Hm as [<-|Hm]; [split; reflexivity|]); destruct Hm. }
      destruct Hfiled as (Hmu & Hmc). split; [exact Hmu|].
      exists c0. rewrite Hmc. auto.
    + intros cid resp Hreq Hother Heq _. inversion Heq; subst resp. clear Heq.
      cbn [payload].
      split; [intros c1 Hc1'; specialize (Hlt c1 Hc1'); lia|].
      rewrite Hc1, Hn1 in Hshape.
      destruct Hshape as [(Hfail & _)|[(i & c1 & Hreq' & _ & Hin1 & Hid1 & Hu1 & _)
                                      |(Ho & Happ & _)]].
      * discriminate.
      * assert (Hi : cid = i) by congruence.
        exfalso. apply (Hother c1 Hin1); congruence.
      * inversion Ho; subst c. eauto.
Qed.

(* ------------------------------------------------------------------ *)
(** *** Deleting, and uploading then deleting *)
(* ------------------------------------------------------------------ *)


(** [deleteDocument] touches nothing but the document it is given and
    the chunks of that document: however the request ends, every other
    document stays, nothing is added, and the conversations and messages
    are as they were. A reply with status 401 or 404 leaves the documents
    exactly as they were. *)
Theorem deleteDocument_keeps_unrelated :
  forall (req : DeleteRequest) (w w' : World) (o : Outcome Response),
    deleteDocument req w = (o, w') ->
    (forall d, In d (documents w) -> _id d <> delete_id req ->
               parentDocumentId d <> Some (delete_id req) -> In d (documents w'))
    /\ (forall d, In d (documents w') -> In d (documents w))
    /\ conversations w' = conversations w /\ chats w' = chats w
    /\ (forall resp, o = Ok resp -> status resp = 401 \/ status resp = 404 ->
                     documents w' = documents w).
Proof.
  intros req [tr ds cs ms nid fl] w' o.
  unfold deleteDocument, DocumentModel_findById, DocumentModel_deleteMany, deleteOne.
  assert (Hkeep1 : forall d, In d ds -> parentDocumentId d <> Some (delete_id req) ->
            In d (filter (fun d0 => negb (isChunkOf (delete_id req) d0)) ds)).
  { intros d Hin Hp. apply filter_In. split; [exact Hin|].
    now rewrite isChunkOf_other. }
  assert (Hkeep2 : forall (document : Doc) (l : list Doc) d,
            _id document = delete_id req -> In d l -> _id d <> delete_id req ->
            In d (filter (fun d0 => negb (_id d0 =? _id document)) l)).
  { intros document l d Hid Hin Hne. apply filter_In. split; [exact Hin|].
    rewrite Hid. apply negb_true_iff, Nat.eqb_neq. exact Hne. }
  assert (Hsub : forall (f : Doc -> bool) (l : list Doc) d, In d (filter f l) -> In d l).
  { intros f l d Hd. now apply filter_In in Hd. }
  destruct (delete_user req) as [u|]; run;
    [|intro E; inversion E; subst; cbn; repeat split; auto].
  destruct (dbError env (List.length tr)); run;
    [intro E; inversion E; subst; cbn; repeat split; auto;
     intros r Hr [Hs|Hs]; inversion Hr; subst; discriminate|].
  destruct (find (fun d => _id d =? delete_id req) ds) as [document|] eqn:Hfind; run;
    [|intro E; inversion E; subst; cbn; repeat split; auto].
  apply find_some in Hfind. destruct Hfind as [_ Hid]. apply Nat.eqb_eq in Hid.
  destruct (isParentWithChunks document); run; rewrite ?length_snoc;
    repeat match goal with
    | |- context [dbError env ?t] => destruct (dbError env t); run; rewrite ?length_snoc
    end;
    intro E; inversion E; subst; cbn [documents conversations chats];
    (split; [intros d Hin Hne Hp; eauto|]);
    (split; [intros d Hd; eauto|]);
    (split; [reflexivity|]); (split; [reflexivity|]);
    intros r Hr [Hs|Hs]; inversion Hr; subst; discriminate.
Qed.

Lemma filter_all {A} (f : A -> bool) (l : list A) :
  (forall x, In x l -> f x = true) -> filter f l = l.
Proof.
  induction l as [|x r IH]; intro H; cbn; [reflexivity|].
  rewrite (H x (or_introl eq_refl)). f_equal. apply IH. intros y Hy. apply H. now right.
Qed.

Lemma find_app_skip {A} (f : A -> bool) (l1 l2 : list A) :
  (forall x, In x l1 -> f x = false) -> find f (l1 ++ l2) = find f l2.
Proof.
  induction l1 as [|x r IH]; intro H; cbn; [reflexivity|].
  rewrite (H x (or_introl eq_refl)). apply IH. intros y Hy. apply H. now right.
Qed.

(** With a database that answers, a delete request for a document that
    is there is carried out. *)
Lemma deleteDocument_accepted (user : User) (id : nat) (document : Doc) (w : World) :
  (forall t, dbError env t = None) ->
  find (fun d => _id d =? id) (documents w) = Some document ->
  exists events,
    deleteDocument (mkDeleteRequest (Some user) id) w =
      (Ok (mkResponse 200 true (Done (js "Document deleted successfully"))),
       mkWorld (trace w ++ events) (afterDelete id document (documents w))
               (conversations w) (chats w) (nextId w) (inFlight w)).
Proof.
  intros Hdb Hfind. destruct w as [tr ds cs ms nid fl]. cbn [documents] in Hfind.
  unfold deleteDocument, DocumentModel_findById, DocumentModel_deleteMany, deleteOne,
    afterDelete.
  cbn [delete_user delete_id]. run. rewrite Hdb. run. rewrite Hfind.
  destruct (isParentWithChunks document); run; rewrite ?length_snoc, ?Hdb; run;
    rewrite ?length_snoc, ?Hdb; run; eexists; rewrite <- ?app_assoc; reflexivity.
Qed.

(** Upload then delete is a round trip on the document store. From any
    store the handlers can reach, with a database that answers: a
    document is ingested, whole or split; the delete request for the id
    the ingestion returned is answered with status 200; and the documents
    are then exactly the ones there were before the upload. *)
Theorem upload_then_delete_restores_documents :
  forall (title body userId : jsstring) (category : option jsstring)
         (tags : option (list jsstring)) (user : User) (w : World),
    reachable w ->
    (forall t, dbError env t = None) ->
    exists r w1 w2,
      processAndSaveDocument title body userId category tags w = (Ok r, w1)
      /\ deleteDocument (mkDeleteRequest (Some user) (result_id r)) w1
         = (Ok (mkResponse 200 true (Done (js "Document deleted successfully"))), w2)
      /\ documents w2 = documents w.
Proof.
  intros title body userId category tags user w Hreach Hdb.
  destruct (reachable_wellFormed w Hreach) as (H1 & H2 & _).
  assert (Hold1 : forall d, In d (documents w) ->
            negb (_id d =? nextId w) = true).
  { intros d Hd. apply negb_true_iff, Nat.eqb_neq. specialize (H1 d Hd). lia. }
  assert (Hold2 : forall d, In d (documents w) ->
            negb (isChunkOf (nextId w) d) = true).
  { intros d Hd. apply negb_true_iff, isChunkOf_other. intro Hp.
    specialize (H2 d _ Hd Hp). lia. }
  assert (Hskip : forall l, find (fun d => _id d =? nextId w) (documents w ++ l)
                            = find (fun d => _id d =? nextId w) l).
  { intro l. apply find_app_skip. intros d Hd. apply negb_true_iff. now apply Hold1. }
  destruct (2000 <? JsString.length (cleanText body)) eqn:Hsize.
  - destruct (processAndSaveDocument_large title body userId category tags w Hsize)
      as (o & docs & left & w1 & E & (Hd & _) & _ & Hshape & Hok & _).
    specialize (Hok Hdb). subst o.
    destruct Hshape as [(_ & _ & Hno)|(done & -> & [(_ & _ & Hperm)|(Hno & _)])];
      try discriminate.
    set (p := parentRecord title (cleanText body) userId category tags
                (List.length (chunkText (cleanText body) 1000 200)) (nextId w)) in *.
    set (rest := mapiFrom jobRecord (S (nextId w)) done) in *.
    assert (Hchunks : forall d, In d rest -> isChunkOf (nextId w) d = true).
    { intros d Hin. apply In_mapiFrom in Hin. destruct Hin as (job & j & Hj & ->).
      apply nth_error_In, (Permutation_in _ Hperm), In_jobs in Hj.
      destruct Hj as (chunk & i & _ & ->). unfold isChunkOf. cbn. apply Nat.eqb_refl. }
    assert (Hfind : find (fun d => _id d =? nextId w) (documents w1) = Some p).
    { rewrite Hd, Hskip. cbn. now rewrite Nat.eqb_refl. }
    destruct (deleteDocument_accepted user (nextId w) p w1 Hdb Hfind) as (ev & Edel).
    eexists; eexists; eexists. split; [exact E|]. split; [exact Edel|].
    cbn [documents]. unfold afterDelete. rewrite Hd.
    assert (Hlast : filter (fun d => negb (_id d =? _id p)) (documents w ++ [p])
                    = documents w).
    { change (_id p) with (nextId w).
      rewrite filter_app, (filter_all _ _ Hold1). cbn. rewrite Nat.eqb_refl. cbn.
      apply app_nil_r. }
    destruct (isParentWithChunks p) eqn:Hp.
    + replace (filter (fun d => negb (isChunkOf (nextId w) d)) (documents w ++ p :: rest))
        with (documents w ++ [p]); [exact Hlast|].
      rewrite filter_app, (filter_all _ _ Hold2). cbn.
      rewrite filter_none; [reflexivity|].
      intros d Hin. apply negb_false_iff. now apply Hchunks.
    + assert (Hnone : rest = []).
      { apply length_zero_iff_nil. unfold rest.
        rewrite length_mapiFrom, (Permutation_length Hperm). unfold mapi.
        rewrite length_mapiFrom. unfold isParentWithChunks in Hp. cbn in Hp.
        now destruct (List.length (chunkText (cleanText body) 1000 200)). }
      rewrite Hnone. exact Hlast.
  - destruct (processAndSaveDocument_small title body userId category tags w Hsize)
      as (o & docs & w1 & E & (Hd & _) & _ & _ & Hok).
    destruct (Hok Hdb) as (-> & ->).
    set (d := singleRecord title (cleanText body) userId category tags
                (embeddingAt (clock w) (cleanText body)) (nextId w)) in *.
    assert (Hfind : find (fun d0 => _id d0 =? nextId w) (documents w1) = Some d).
    { rewrite Hd, Hskip. cbn. now rewrite Nat.eqb_refl. }
    destruct (deleteDocument_accepted user (nextId w) d w1 Hdb Hfind) as (ev & Edel).
    eexists; eexists; eexists. split; [exact E|]. split; [exact Edel|].
    cbn [documents]. unfold afterDelete. rewrite Hd.
    change (isParentWithChunks d) with false. cbv iota.
    change (_id d) with (nextId w).
    rewrite filter_app, (filter_all _ _ Hold1). cbn. rewrite Nat.eqb_refl. cbn.
    apply app_nil_r.
Qed.

(* ------------------------------------------------------------------ *)
(** *** An ingestion that fails half way *)
(* ------------------------------------------------------------------ *)

(** A failed ingestion is not rolled back. For a document that is
    split into at least one chunk: when the database takes the parent
    and refuses every later write, the ingestion ends in an exception
    and the parent stays in the store, announcing chunks of which none
    exists. *)
Theorem ingestion_is_not_rolled_back :
  forall (title body userId : jsstring) (category : option jsstring)
         (tags : option (list jsstring)) (w : World),
    2000 < JsString.length (cleanText body) ->
    chunkText (cleanText body) 1000 200 <> [] ->
    dbError env (clock w) = None ->
    (forall t, clock w < t -> dbError env t <> None) ->
    exists e w',
      processAndSaveDocument title body userId category tags w = (Throw e, w')
      /\ documents w' =
           documents w
           ++ [parentRecord title (cleanText body) userId category tags
                 (List.length (chunkText (cleanText body) 1000 200)) (nextId w)].
Proof.
  intros title body userId category tags w Hlarge Hchunks Hfirst Hlater.
  apply Nat.ltb_lt in Hlarge.
  destruct (processAndSaveDocument_large title body userId category tags w Hlarge)
    as (o & docs & left & w' & E & (Hd & _) & _ & _ & _ & Hfail).
  destruct (Hfail Hfirst Hlater Hchunks) as (-> & Hno).
  destruct o as [r|e]; [discriminate|]. exists e, w'. split; [exact E | exact Hd].
Qed.

(* ------------------------------------------------------------------ *)
(** *** The pipeline of revision 20260214100540 *)
(* ------------------------------------------------------------------ *)

Lemma quietTotal_generateEmbedding_rev100540 (text : jsstring) :
  quietTotal (generateEmbedding_rev100540 text).
Proof. unfold generateEmbedding_rev100540. stages. Qed.

Lemma quietTotal_findRelevantDocumentsByEmbedding (e : list number) (limit : nat) :
  quietTotal (findRelevantDocumentsByEmbedding e limit).
Proof. unfold findRelevantDocumentsByEmbedding. stages. Qed.

Lemma quietTotal_findRelevantDocuments (query : jsstring) (limit : nat) :
  quietTotal (findRelevantDocuments query limit).
Proof. unfold findRelevantDocuments. stages. Qed.

Lemma generateAIResponse_spec (question : jsstring) (context : list Hit) (w : World) :
  exists events,
    generateAIResponse question context w =
      (Ok (if JsString.isEmpty (geminiApiKey env)
           then debugText (js "GEMINI_API_KEY is missing from environment variables")
           else match gemini env (clock w) (buildPrompt_rev100540 question context) with
                | Ok text => text
                | Throw e => debugText (message e)
                end),
       logged events w).
Proof.
  destruct w as [tr ds cs ms nid fl]. unfold generateAIResponse, debugText, logged.
  destruct (JsString.isEmpty (geminiApiKey env)); run.
  - eexists. rewrite <- app_assoc. reflexivity.
  - destruct (gemini env (List.length tr) (buildPrompt_rev100540 question context)); run.
    + eexists. reflexivity.
    + eexists. rewrite <- !app_assoc. reflexivity.
Qed.

(** In revision 20260214100540 a failure of the generation provider
    does not fail the request. Take a run in which the embedding and the
    search of the question have returned and the one generation call of
    the request, made at that moment with the prompt built from what the
    search found, throws: [generateAIResponse] returns a text that starts
    with "(DEBUG MODE)" and carries the provider's own error message;
    whenever the conversation is then found or made, [askQuestion] replies
    with status 200, that text as the answer and the sources of the
    search; and with a database that answers, it does so and files the
    text as the model's message. Nothing is assumed of the provider at
    any other moment or for any other prompt. *)
Theorem askQuestion_rev100540_answers_with_the_error :
  forall (req : AskRequest) (user : User) (question : jsstring) (err : Error)
         (queryEmbedding : option (list number)) (relevantDocs : list Hit)
         (w w1 w2 : World),
    ask_user req = Some user ->
    ask_question req = Some (JsonString question) ->
    questionMissing (Some (JsonString question)) = Ok false ->
    questionTooLong question = false ->
    JsString.isEmpty (geminiApiKey env) = false ->
    generateEmbedding_rev100540 question w = (Ok queryEmbedding, w1) ->
    match queryEmbedding with
    | Some ((_ :: _) as e) => findRelevantDocumentsByEmbedding e 3
    | _ => findRelevantDocuments question 3
    end w1 = (Ok relevantDocs, w2) ->
    gemini env (clock w2) (buildPrompt_rev100540 question relevantDocs) = Throw err ->
    exists events,
      generateAIResponse question relevantDocs w2
      = (Ok (debugText (message err)), logged events w2)
      /\ (forall cid w4,
            handleConversation (user_id user) (ask_conversationId req) question
                               (debugText (message err)) (logged events w2)
            = (Ok cid, w4) ->
            exists w',
              askQuestion_rev100540 req w
              = (Ok (mkResponse 200 true
                       (Answered question (debugText (message err)) cid
                                 (map toSource relevantDocs))), w')
              /\ exists written,
                   chats w' = chats w ++ written
                   /\ (written = [] \/ written = [mkChat (user_id user) cid user_role question]
                       \/ written = exchange (user_id user) cid question
                                             (debugText (message err))))
      /\ ((forall t, dbError env t = None) ->
          exists cid w',
            askQuestion_rev100540 req w
            = (Ok (mkResponse 200 true
                     (Answered question (debugText (message err)) cid
                               (map toSource relevantDocs))), w')
            /\ chats w' = chats w ++ exchange (user_id user) cid question
                                              (debugText (message err))).
Proof.
  intros req user question err emb hits w w1 w2 Huser Hsome Hq Hlong Hkey E1 E2 Hgem.
  destruct (generateAIResponse_spec question hits w2) as (ev3 & E3).
  rewrite Hkey, Hgem in E3. exists ev3. split; [exact E3|].
  assert (Hm2 : chats (logged ev3 w2) = chats w).
  { destruct (quietTotal_generateEmbedding_rev100540 question w) as (emb' & ev1 & E1').
    rewrite E1 in E1'. inversion E1'; subst emb' w1. clear E1'.
    assert (Hfind : exists hits' ev2,
              match emb with
              | Some ((_ :: _) as e) => findRelevantDocumentsByEmbedding e 3
              | _ => findRelevantDocuments question 3
              end (logged ev1 w) = (Ok hits', logged ev2 (logged ev1 w))).
    { destruct emb as [[|x e]|].
      - apply quietTotal_findRelevantDocuments.
      - apply quietTotal_findRelevantDocumentsByEmbedding.
      - apply quietTotal_findRelevantDocuments. }
    destruct Hfind as (hits' & ev2 & E2'). rewrite E2 in E2'. inversion E2'; subst.
    reflexivity. }
  assert (Hreply : forall cid w4,
            handleConversation (user_id user) (ask_conversationId req) question
                               (debugText (message err)) (logged ev3 w2)
            = (Ok cid, w4) ->
            exists w' written,
              askQuestion_rev100540 req w
              = (Ok (mkResponse 200 true
                       (Answered question (debugText (message err)) cid
                                 (map toSource hits))), w')
              /\ chats w' = chats w ++ written
              /\ (written = [] \/ written = [mkChat (user_id user) cid user_role question]
                  \/ written = exchange (user_id user) cid question
                                        (debugText (message err)))
              /\ ((forall t, dbError env t = None) ->
                  written = exchange (user_id user) cid question
                                     (debugText (message err)))).
  { intros cid w4 E4.
    rewrite (askQuestion_rev100540_asked req user question Huser Hsome Hq Hlong).
    rewrite (tryCatch_bind_ok _ _ _ _ _ _ E1).
    rewrite (tryCatch_bind_ok _ _ _ _ _ _ E2).
    rewrite (tryCatch_bind_ok _ _ _ _ _ _ E3).
    rewrite (tryCatch_bind_ok _ _ _ _ _ _ E4).
    destruct (handleConversation_spec _ _ _ _ _ _ _ E4) as (_ & Hm4 & _).
    destruct (saveChatHistory_chats (user_id user) cid question (debugText (message err)) w4)
      as (w5 & written & E5 & _ & _ & _ & Hm5 & Hwritten & Hall).
    rewrite (tryCatch_bind_ok _ _ _ _ _ _ E5).
    exists w5, written. split; [reflexivity|].
    split; [rewrite Hm5, Hm4, Hm2; reflexivity|]. split; [|exact Hall].
    exact Hwritten. }
  split.
  - intros cid w4 E4. destruct (Hreply cid w4 E4) as (w' & written & E & Hm & Hw & _).
    exists w'. split; [exact E|]. exists written. split; [exact Hm | exact Hw].
  - intro Hdb.
    destruct (handleConversation_returns (user_id user) (ask_conversationId req) question
                (debugText (message err)) (logged ev3 w2) Hdb) as (cid & w4 & E4).
    destruct (Hreply cid w4 E4) as (w' & written & E & Hm & _ & Hall).
    exists cid, w'. split; [exact E|]. rewrite Hm, (Hall Hdb). reflexivity.
Qed.

Lemma findRelevantDocumentsByEmbedding_spec (e : list number) (limit : nat) (w : World) :
  exists events,
    findRelevantDocumentsByEmbedding e limit w =
      (Ok (match atlasVectorSearch env (clock w) e limit with
           | Ok found => map scored found
           | Throw _ => []
           end), logged events w)
    /\ Forall notTextSearch events.
Proof.
  destruct w as [tr ds cs ms nid fl]. unfold findRelevantDocumentsByEmbedding, logged. run.
  destruct (atlasVectorSearch env (List.length tr) e limit); run.
  - eexists. split; [reflexivity|]. repeat constructor.
  - eexists. rewrite <- app_assoc. split; [reflexivity|]. repeat constructor.
Qed.

(** In revision 20260214100540 text search is no fallback for a vector
    search that finds nothing. When the provider returned an embedding
    for the question, text search is never called, however the request
    ends; the sources of a reply with status 200 are what vector search
    returned, and there is none when it returned nothing or threw. *)
Theorem askQuestion_rev100540_no_text_fallback :
  forall (req : AskRequest) (user : User) (question : jsstring)
         (response : AxiosResponse) (x : number) (e : list number)
         (w w' : World) (o : Outcome Response),
    ask_user req = Some user ->
    ask_question req = Some (JsonString question) ->
    questionMissing (Some (JsonString question)) = Ok false ->
    questionTooLong question = false ->
    voyage env (clock w) question = Ok response ->
    firstEmbedding response = Some (x :: e) ->
    askQuestion_rev100540 req w = (o, w') ->
    Forall notTextSearch (skipn (clock w) (trace w'))
    /\ forall q a cid sources,
         o = Ok (mkResponse 200 true (Answered q a cid sources)) ->
         sources = match atlasVectorSearch env (S (clock w)) (x :: e) 3 with
                   | Ok found => map toSource (map scored found)
                   | Throw _ => []
                   end.
Proof.
  intros req user question response x e w w' o Huser Hsome Hq Hlong Hvoy Hemb.
  rewrite (askQuestion_rev100540_asked req user question Huser Hsome Hq Hlong).
  assert (E1 : generateEmbedding_rev100540 question w
               = (Ok (Some (x :: e)), logged [HttpEmbedding question] w)).
  { destruct w as [tr ds cs ms nid fl]. unfold generateEmbedding_rev100540, logged. run.
    cbn [clock trace] in Hvoy. unfold clock in Hvoy. cbn [trace] in Hvoy. rewrite Hvoy. run.
    unfold firstEmbedding in Hemb.
    destruct (response_data response) as [body|]; [|discriminate].
    destruct (data body) as [[|item items]|]; try discriminate.
    rewrite Hemb. reflexivity. }
  rewrite (tryCatch_bind_ok _ _ _ _ _ _ E1).
  destruct (findRelevantDocumentsByEmbedding_spec (x :: e) 3 (logged [HttpEmbedding question] w))
    as (ev2 & E2 & F2).
  rewrite clock_logged in E2. cbn [List.length] in E2. rewrite Nat.add_1_r in E2.
  rewrite (tryCatch_bind_ok _ _ _ _ _ _ E2).
  set (hits := match atlasVectorSearch env (S (clock w)) (x :: e) 3 with
               | Ok found => map scored found
               | Throw _ => []
               end) in *.
  set (w2 := logged ev2 (logged [HttpEmbedding question] w)).
  intro Hrun. split.
  - match type of Hrun with
    | ?m w2 = _ => assert (Hemits : emitsOnly notTextSearch m)
    end.
    { apply emitsOnly_tryCatch; [|intros; unfold consoleError; emits].
      apply emitsOnly_bind; [apply emitsOnly_generateAIResponse|intro].
      apply emitsOnly_bind; [apply emitsOnly_handleConversation|intro].
      apply emitsOnly_bind; [apply emitsOnly_saveChatHistory|intro].
      apply emitsOnly_ret. }
    destruct (Hemits _ _ _ Hrun) as (ev3 & T3 & F3).
    rewrite T3. unfold w2, logged, clock. cbn [trace].
    rewrite <- !app_assoc, skipn_app, skipn_all, Nat.sub_diag. cbn [skipn app].
    constructor; [exact I|]. apply Forall_app. auto.
  - intros q a cid sources Ho. subst o.
    destruct (generateAIResponse_spec question hits w2) as (ev3 & E3).
    rewrite (tryCatch_bind_ok _ _ _ _ _ _ E3) in Hrun.
    match type of Hrun with
    | tryCatch (bind (handleConversation ?u ?i ?qq ?aa) _) _ ?w3 = _ =>
        destruct (handleConversation u i qq aa w3) as [[c|err] w4] eqn:E4
    end.
    + rewrite (tryCatch_bind_ok _ _ _ _ _ _ E4) in Hrun.
      match type of Hrun with
      | tryCatch (bind (saveChatHistory ?u ?i ?qq ?aa) _) _ _ = _ =>
          destruct (saveChatHistory_chats u i qq aa w4) as (w5 & written & E5 & _)
      end.
      rewrite (tryCatch_bind_ok _ _ _ _ _ _ E5) in Hrun.
      cbv [tryCatch ret] in Hrun. inversion Hrun; subst.
      unfold hits. destruct (atlasVectorSearch env (S (clock w)) (x :: e) 3); reflexivity.
    + rewrite (tryCatch_throw _ _ _ w4 err) in Hrun by (apply bind_throw; exact E4).
      cbv [bind consoleError emit ret] in Hrun. inversion Hrun.
Qed.

(* ------------------------------------------------------------------ *)
(** *** The upload handlers *)
(* ------------------------------------------------------------------ *)

(** An ingestion only appends, and with a database that answers it
    returns. *)
Lemma processAndSaveDocument_appends (ttl body userId : jsstring)
  (category : option jsstring) (tags : option (list jsstring)) (w w' : World)
  (o : Outcome IngestResult) :
  processAndSaveDocument ttl body userId category tags w = (o, w') ->
  exists docs,
    documents w' = documents w ++ docs
    /\ ((forall t, dbError env t = None) -> isOk o = true).
Proof.
  intro Hrun. destruct (2000 <? JsString.length (cleanText body)) eqn:Hsize.
  - destruct (processAndSaveDocument_large ttl body userId category tags w Hsize)
      as (o' & docs & left & w'' & E & (Hd & _) & _ & _ & Hok & _).
    rewrite E in Hrun. inversion Hrun; subst o' w''. exists docs. split; [exact Hd|].
    intro Hdb. now rewrite (Hok Hdb).
  - destruct (processAndSaveDocument_small ttl body userId category tags w Hsize)
      as (o' & docs & w'' & E & (Hd & _) & _ & _ & Hok).
    rewrite E in Hrun. inversion Hrun; subst o' w''. exists docs. split; [exact Hd|].
    intro Hdb. destruct (Hok Hdb) as (-> & _). reflexivity.
Qed.

(** An ingestion that returns has stored, first, the document its
    result names: not a chunk, under the title given, holding the cleaned
    text, uploaded by the user given. *)
Lemma processAndSaveDocument_returned (ttl body userId : jsstring)
  (category : option jsstring) (tags : option (list jsstring)) (w w' : World)
  (r : IngestResult) :
  processAndSaveDocument ttl body userId category tags w = (Ok r, w') ->
  exists d rest,
    documents w' = documents w ++ d :: rest
    /\ result_id r = _id d /\ result_title r = title d
    /\ isChunk d = false /\ title d = ttl /\ content d = cleanText body
    /\ uploadedBy d = userId.
Proof.
  intro Hrun. destruct (2000 <? JsString.length (cleanText body)) eqn:Hsize.
  - destruct (processAndSaveDocument_large ttl body userId category tags w Hsize)
      as (o' & docs & left & w'' & E & (Hd & _) & _ & Hshape & _).
    rewrite E in Hrun. inversion Hrun; subst o' w''.
    destruct Hshape as [(_ & _ & Hno)|(done & -> & [(Heq & _)|(Hno & _)])];
      try discriminate.
    inversion Heq; subst r. eexists; eexists. split; [exact Hd|]. repeat split.
  - destruct (processAndSaveDocument_small ttl body userId category tags w Hsize)
      as (o' & docs & w'' & E & (Hd & _) & _ & Hshape & _).
    rewrite E in Hrun. inversion Hrun as [[Ho Hw]]. subst w''.
    destruct Hshape as [(_ & Hno)|(-> & Heq)].
    + rewrite Ho in Hno. discriminate.
    + rewrite Ho in Heq. inversion Heq; subst r.
      eexists; exists []. split; [exact Hd|]. repeat split.
Qed.

(** What [uploadDocument] replies to an authenticated request. Without
    a title or without content: status 400, and the world is as it was.
    Otherwise status 201 or 500, and nothing that was in the store is
    touched; with status 201 the first document stored is the one the
    reply names, under the title of the request, holding the cleaned
    content, uploaded by the caller; and with a database that answers
    the status is 201 whatever the embedding provider does. *)
Theorem uploadDocument_replies :
  forall (req : UploadRequest) (user : User) (w : World),
    upload_user req = Some user ->
    exists resp docs w',
      uploadDocument req w = (Ok resp, w')
      /\ documents w' = documents w ++ docs
      /\ (absent (upload_title req) || absent (upload_content req) = true ->
            resp = mkReply 400 false (Some (js "Please provide title and content"))
                           None None
            /\ w' = w)
      /\ (absent (upload_title req) || absent (upload_content req) = false ->
            (reply_status resp = 201 \/ reply_status resp = 500)
            /\ (reply_status resp = 201 ->
                  exists result d rest body,
                    reply_data resp = Some result /\ docs = d :: rest
                    /\ result_id result = _id d /\ isChunk d = false
                    /\ upload_title req = Some (title d)
                    /\ upload_content req = Some body /\ content d = cleanText body
                    /\ uploadedBy d = user_id user)
            /\ ((forall t, dbError env t = None) -> reply_status resp = 201)).
Proof.
  intros req user w Huser. unfold uploadDocument. rewrite Huser.
  destruct (absent (upload_title req) || absent (upload_content req)) eqn:Hvalid.
  - eexists; exists [], w. cbv [tryCatch ret]. split; [reflexivity|].
    split; [now rewrite app_nil_r|]. split; [auto | discriminate].
  - apply orb_false_iff in Hvalid. destruct Hvalid as [Ht Hc].
    destruct (upload_title req) as [ttl|]; [|discriminate].
    destruct (upload_content req) as [body|]; [|discriminate].
    destruct (processAndSaveDocument ttl body (user_id user) (upload_category req)
                (upload_tags req) w) as [[r|e] w1] eqn:Hrun.
    + destruct (processAndSaveDocument_returned _ _ _ _ _ _ _ _ Hrun)
        as (d & rest & Hd & Hid & _ & Hchunk & Htitle & Hcontent & Hby).
      eexists; exists (d :: rest), w1.
      split; [apply tryCatch_ok; rewrite (bind_ok _ _ _ _ _ Hrun); reflexivity|].
      split; [exact Hd|]. split; [discriminate|]. intros _. cbn [reply_status reply_data].
      split; [now left|]. split; [|reflexivity].
      intros _. exists r, d, rest, body. subst ttl. repeat split; auto.
    + destruct (processAndSaveDocument_appends _ _ _ _ _ _ _ _ Hrun) as (docs & Hd & Hok).
      eexists; exists docs; eexists.
      split; [rewrite (tryCatch_throw _ _ _ w1 e) by (apply bind_throw; exact Hrun);
              cbv [bind consoleError emit ret]; reflexivity|].
      cbn [documents reply_status]. split; [exact Hd|]. split; [discriminate|].
      intros _. split; [now right|]. split; [discriminate|].
      intro Hdb. specialize (Hok Hdb). discriminate.
Qed.

(** What [uploadFile] replies to an authenticated request that carries
    a file. When the text cannot be extracted the status is 500 with the
    extractor's message; when the text is blank it is 400; either way
    nothing is stored. Otherwise the file is ingested as an upload of
    text is, under the title of the request or, without one, under the
    name of the file. *)
Theorem uploadFile_replies :
  forall (req : FileRequest) (user : User) (f : UploadedFile) (w : World),
    file_user req = Some user ->
    file req = Some f ->
    exists resp docs w',
      uploadFile req w = (Ok resp, w')
      /\ documents w' = documents w ++ docs
      /\ (forall e,
            extractTextFromFile (buffer f) (orElse (mimetype f) (originalname f)) = Throw e ->
            reply_status resp = 500 /\ reply_error resp = Some (message e) /\ docs = [])
      /\ (forall text,
            extractTextFromFile (buffer f) (orElse (mimetype f) (originalname f)) = Ok text ->
            (blank text = true -> reply_status resp = 400 /\ docs = [])
            /\ (blank text = false ->
                  (reply_status resp = 201 \/ reply_status resp = 500)
                  /\ (reply_status resp = 201 ->
                        exists result d rest,
                          reply_data resp = Some result /\ docs = d :: rest
                          /\ result_id result = _id d /\ isChunk d = false
                          /\ title d = orElse (file_title req) (originalname f)
                          /\ content d = cleanText text
                          /\ uploadedBy d = user_id user)
                  /\ ((forall t, dbError env t = None) -> reply_status resp = 201))).
Proof.
  intros req user f w Huser Hfile. unfold uploadFile, blank. rewrite Huser, Hfile.
  set (warn := if bufferEmpty (buffer f)
               then consoleError (cross ++ js " File buffer is empty!")
               else ret tt).
  assert (Hwarn : exists ev, warn w = (Ok tt, logged ev w)).
  { unfold warn. destruct (bufferEmpty (buffer f)).
    - exists [ConsoleError (cross ++ js " File buffer is empty!")]. reflexivity.
    - exists []. now rewrite logged_nil. }
  destruct Hwarn as (ev & Ewarn).
  rewrite (tryCatch_bind_ok _ _ _ _ _ _ Ewarn).
  destruct (extractTextFromFile (buffer f) (orElse (mimetype f) (originalname f)))
    as [text|e] eqn:Hex.
  - rewrite (tryCatch_bind_ok _ _ _ _ (logged ev w) text) by reflexivity.
    destruct (JsString.isEmpty text || (JsString.length (JsString.trim text) =? 0))
      eqn:Hblank.
    + eexists; exists []; eexists. cbv [tryCatch ret]. split; [reflexivity|].
      cbn [documents logged reply_status]. split; [now rewrite app_nil_r|].
      split; [discriminate|]. intros t Ht. inversion Ht; subst t. rewrite Hblank.
      split; [auto | discriminate].
    + destruct (processAndSaveDocument (orElse (file_title req) (originalname f)) text
                  (user_id user) (file_category req) (file_tags req) (logged ev w))
        as [[r|e] w1] eqn:Hrun.
      * destruct (processAndSaveDocument_returned _ _ _ _ _ _ _ _ Hrun)
          as (d & rest & Hd & Hid & _ & Hchunk & Htitle & Hcontent & Hby).
        eexists; exists (d :: rest), w1.
        split; [apply tryCatch_ok; rewrite (bind_ok _ _ _ _ _ Hrun); reflexivity|].
        split; [exact Hd|]. split; [discriminate|].
        intros t Ht. inversion Ht; subst t. rewrite Hblank. split; [discriminate|].
        intros _. cbn [reply_status reply_data]. split; [now left|].
        split; [|reflexivity]. intros _. exists r, d, rest. repeat split; auto.
      * destruct (processAndSaveDocument_appends _ _ _ _ _ _ _ _ Hrun)
          as (docs & Hd & Hok).
        eexists; exists docs; eexists.
        split; [rewrite (tryCatch_throw _ _ _ w1 e) by (apply bind_throw; exact Hrun);
                cbv [bind consoleError emit ret]; reflexivity|].
        cbn [documents logged reply_status] in *. split; [exact Hd|].
        split; [discriminate|].
        intros t Ht. inversion Ht; subst t. rewrite Hblank. split; [discriminate|].
        intros _. split; [now right|]. split; [discriminate|].
        intro Hdb. specialize (Hok Hdb). discriminate.
  - eexists; exists []; eexists.
    split; [rewrite (tryCatch_throw _ _ _ (logged ev w) e) by reflexivity;
            cbv [bind consoleError emit ret]; reflexivity|].
    cbn [documents logged reply_status reply_error]. split; [now rewrite app_nil_r|].
    split; [|discriminate]. intros e' He'. inversion He'; subst e'. auto.
Qed.

(* ------------------------------------------------------------------ *)
(** *** Reading and deleting conversations *)
(* ------------------------------------------------------------------ *)

Lemma Chat_find_spec (p : Chat -> bool) (limit : option nat) (w : World) :
  Chat_find p limit w =
    match queryError ChatFind (clock w) with
    | Some e => (Throw e, w)
    | None =>
        (Ok (match limit with
             | Some n => firstn n (byTimestamp (filter p (chats w)))
             | None => byTimestamp (filter p (chats w))
             end), w)
    end.
Proof.
  unfold Chat_find, queryCall. run. destruct (queryError ChatFind (List.length (trace w)));
    reflexivity.
Qed.

Lemma Conversation_findOne_spec (id : nat) (user : jsstring) (w : World) :
  Conversation_findOne id user w =
    match dbError env (clock w) with
    | Some e => (Throw e, logged [Db ConversationFindOne] w)
    | None =>
        (Ok (find (fun c => (conv_id c =? id) && JsString.eqb (conv_user c) user)
                  (conversations w)),
         logged [Db ConversationFindOne] w)
    end.
Proof.
  destruct w as [tr ds cs ms nid fl]. unfold Conversation_findOne, logged. run.
  destruct (dbError env (List.length tr)); reflexivity.
Qed.

Lemma Some_eq {A} (a b : A) : Some a = Some b -> a = b.
Proof. congruence. Qed.

Lemma In_firstn {A} (n : nat) (l : list A) (x : A) : In x (firstn n l) -> In x l.
Proof.
  intro H. rewrite <- (firstn_skipn n l). apply in_or_app. now left.
Qed.

(** The history and the list of conversations hold the caller's own
    records only. Provided the two sorts return nothing but what they
    are given: [getChatHistory] returns at most 50 messages, each one a
    message of the caller in the store, and [getConversations] returns
    conversations of the caller in the store; neither changes a store. *)
Theorem reads_return_the_callers_own :
  (forall l m, In m (byTimestamp l) -> In m l) ->
  (forall l c, In c (byUpdatedAt l) -> In c l) ->
  forall (user : User) (w : World),
    (exists resp events,
       getChatHistory (Some user) w = (Ok resp, logged events w)
       /\ forall messages, reply_data resp = Some messages ->
            List.length messages <= 50
            /\ forall v, In v messages ->
                 exists m, In m (chats w) /\ chat_user m = user_id user /\ v = toView m)
    /\ (exists resp events,
          getConversations (Some user) w = (Ok resp, logged events w)
          /\ forall found, reply_data resp = Some found ->
               forall c, In c found ->
                 In c (conversations w) /\ conv_user c = user_id user).
Proof.
  intros Hchat Hconv user w. split.
  - unfold getChatHistory, tryCatch, bind. rewrite Chat_find_spec.
    destruct (queryError ChatFind (clock w)).
    + eexists; exists [ConsoleError (cross ++ js " Get history error:")].
      split; [reflexivity|]. discriminate.
    + eexists; exists []. rewrite logged_nil. split; [reflexivity|].
      intros messages H. apply Some_eq in H. subst messages. split.
      * rewrite length_map, length_firstn. lia.
      * intros v Hv. apply in_map_iff in Hv. destruct Hv as (m & <- & Hm).
        apply In_firstn, Hchat, filter_In in Hm. destruct Hm as [Hin Hu].
        apply JsString_eqb_eq in Hu. eauto.
  - unfold getConversations, tryCatch, bind, Conversation_find, queryCall. run.
    destruct (queryError ConversationFind (List.length (trace w))); run.
    + eexists; exists [ConsoleError (cross ++ js " Get conversations error:")].
      split; [reflexivity|]. discriminate.
    + eexists; exists []. rewrite logged_nil. split; [reflexivity|].
      intros found H. apply Some_eq in H. subst found.
      intros c Hc. apply Hconv, filter_In in Hc. destruct Hc as [Hin Hu].
      apply JsString_eqb_eq in Hu. auto.
Qed.

Lemma find_conversation (id : nat) (user : jsstring) (cs : list Conversation)
  (c : Conversation) :
  find (fun c => (conv_id c =? id) && JsString.eqb (conv_user c) user) cs = Some c ->
  In c cs /\ conv_id c = id /\ conv_user c = user.
Proof.
  intro H. apply find_some in H. destruct H as [Hin H].
  apply andb_true_iff in H. destruct H as [Hid Hu].
  apply Nat.eqb_eq in Hid. apply JsString_eqb_eq in Hu. auto.
Qed.

Lemma find_no_conversation (id : nat) (user : jsstring) (cs : list Conversation) :
  (forall c, In c cs -> conv_id c = id -> conv_user c <> user) ->
  find (fun c => (conv_id c =? id) && JsString.eqb (conv_user c) user) cs = None.
Proof.
  intro H. apply find_absent. intros c Hin.
  destruct (conv_id c =? id) eqn:Hid; [|reflexivity]. apply Nat.eqb_eq in Hid.
  destruct (JsString.eqb (conv_user c) user) eqn:Hu; [|reflexivity].
  apply JsString_eqb_eq in Hu. elim (H c Hin Hid Hu).
Qed.

(** The messages of a conversation go to its owner only. A reply of
    [getConversationMessages] that carries messages was made for a
    conversation of the caller with the id of the request, and every
    message in it is a stored message of that conversation (provided the
    sort returns nothing but what it is given). When no conversation with
    that id is the caller's, the reply carries no message and has status
    404, or 500 when the database failed. *)
Theorem getConversationMessages_owner_only :
  (forall l m, In m (byTimestamp l) -> In m l) ->
  forall (req : ConversationRequest) (user : User) (w : World),
    conversation_user req = Some user ->
    exists resp events,
      getConversationMessages req w = (Ok resp, logged events w)
      /\ (forall messages, reply_data resp = Some messages ->
            (exists c, In c (conversations w)
                       /\ conv_id c = conversation_id req
                       /\ conv_user c = user_id user)
            /\ forall v, In v messages ->
                 exists m, In m (chats w)
                           /\ chat_conversation m = Some (conversation_id req)
                           /\ v = toView m)
      /\ ((forall c, In c (conversations w) -> conv_id c = conversation_id req ->
                     conv_user c <> user_id user) ->
            reply_data resp = None
            /\ (reply_status resp = 404 \/ reply_status resp = 500)).
Proof.
  intros Hchat req user w Huser. unfold getConversationMessages. rewrite Huser.
  unfold tryCatch, bind. rewrite Conversation_findOne_spec.
  destruct (dbError env (clock w)).
  - eexists; eexists. cbv [consoleError emit ret]. unfold logged.
    cbn [trace documents conversations chats nextId inFlight]. rewrite <- app_assoc.
    split; [reflexivity|]. cbn [reply_data reply_status]. split; [discriminate|auto].
  - destruct (find (fun c => (conv_id c =? conversation_id req)
                             && JsString.eqb (conv_user c) (user_id user))
                   (conversations w)) as [c|] eqn:Hfind.
    + destruct (find_conversation _ _ _ _ Hfind) as (Hin & Hid & Hu).
      rewrite Chat_find_spec.
      destruct (queryError ChatFind (clock (logged [Db ConversationFindOne] w))).
      * eexists; eexists. cbv [consoleError emit ret]. unfold logged.
        cbn [trace documents conversations chats nextId inFlight]. rewrite <- app_assoc.
        split; [reflexivity|]. cbn [reply_data reply_status].
        split; [discriminate|auto].
      * eexists; eexists. split; [reflexivity|]. cbn [reply_data reply_status]. split.
        -- intros messages H. apply Some_eq in H. subst messages.
           split; [eauto|]. intros v Hv. apply in_map_iff in Hv.
           destruct Hv as (m & <- & Hm). apply Hchat, filter_In in Hm.
           destruct Hm as [Hm Hc]. cbn [chats logged] in Hm. exists m.
           split; [exact Hm|]. split; [|reflexivity].
           unfold inConversation in Hc. destruct (chat_conversation m); [|discriminate].
           apply Nat.eqb_eq in Hc. now subst.
        -- intro Hnone. elim (Hnone c Hin Hid Hu).
    + eexists; eexists. cbv [ret]. split; [reflexivity|]. cbn [reply_data reply_status].
      split; [discriminate|auto].
Qed.



(* ------------------------------------------------------------------ *)
(** *** Earlier revisions of the service *)
(* ------------------------------------------------------------------ *)

(** [GeminiService.generateContent] lets no error of the provider out
    as it came. A text it returns is the provider's; an error it throws
    carries one of three fixed messages, the first of them, without any
    call, when the key is missing, and the second when the provider's
    message holds "404". *)
Theorem GeminiService_generateContent_errors :
  forall (prompt : jsstring) (w : World),
    exists o events,
      GeminiService_generateContent prompt w = (o, logged events w)
      /\ (forall text, o = Ok text ->
            JsString.isEmpty (geminiApiKey env) = false
            /\ gemini env (clock w) prompt = Ok text)
      /\ (forall e, o = Throw e ->
            response e = false
            /\ (JsString.isEmpty (geminiApiKey env) = true ->
                  events = []
                  /\ message e = js "Gemini model is not initialized (missing API key).")
            /\ (JsString.isEmpty (geminiApiKey env) = false ->
                  exists raw,
                    gemini env (clock w) prompt = Throw raw
                    /\ message e =
                         if JsString.includes (js "404") (message raw)
                         then js "Model gemini-2.5-flash not found. Ensure your API Key supports it."
                         else js "Failed to generate content from Gemini.")).
Proof.
  intros prompt [tr ds cs ms nid fl]. unfold GeminiService_generateContent, logged.
  destruct (JsString.isEmpty (geminiApiKey env)); run.
  - eexists; exists []. rewrite app_nil_r. split; [reflexivity|].
    split; [discriminate|]. intros e He. inversion He; subst e.
    split; [reflexivity|]. split; [auto | discriminate].
  - destruct (gemini env (List.length tr) prompt) as [text|raw] eqn:Hg; run.
    + eexists; eexists. split; [reflexivity|]. split; [|discriminate].
      intros t Ht. inversion Ht; subst t. auto.
    + destruct (JsString.includes (js "404") (message raw)) eqn:H404; run;
        eexists; eexists; rewrite <- app_assoc; (split; [reflexivity|]);
        (split; [discriminate|]); intros e He; inversion He; subst e;
        (split; [reflexivity|]); (split; [discriminate|]); intros _; exists raw;
        rewrite H404; auto.
Qed.

(** Revision 20260214184200 of the service answers every question.
    Whatever [generateContent] of the imported service does,
    [processQuestion] returns: the answer is the generated text when
    there is one, and the apology "I apologize, I am unable to generate a
    response at this time due to a service error." when the service
    threw. *)
Theorem processQuestion_rev184200_always_answers :
  forall (geminiService_generateContent : jsstring -> M jsstring)
         (question : jsstring) (w : World),
    exists r w',
      processQuestion_rev184200 geminiService_generateContent question w = (Ok r, w')
      /\ exists w0,
           match geminiService_generateContent
                   (buildPrompt_rev184200 question (relevantDocs r)) w0 with
           | (Ok text, _) => answer r = text
           | (Throw _, _) => answer r = apology_rev184200
           end.
Proof.
  intros gen question w. unfold processQuestion_rev184200.
  assert (Hemb : quietTotal (generateEmbedding_rev184200 question))
    by (unfold generateEmbedding_rev184200; stages).
  destruct (Hemb w) as (emb & ev1 & E1). rewrite (bind_ok _ _ _ _ _ E1).
  destruct (quietTotal_searchDocuments question emb 3 (logged ev1 w)) as (hits & ev2 & E2).
  rewrite (bind_ok _ _ _ _ _ E2).
  unfold bind, generateAnswer_rev184200, tryCatch.
  destruct (gen (buildPrompt_rev184200 question hits) (logged ev2 (logged ev1 w)))
    as [[text|e] w3] eqn:Hgen.
  - eexists; eexists. split; [reflexivity|]. exists (logged ev2 (logged ev1 w)).
    cbn [relevantDocs answer]. now rewrite Hgen.
  - cbv [consoleError emit ret]. eexists; eexists. split; [reflexivity|].
    exists (logged ev2 (logged ev1 w)). cbn [relevantDocs answer]. now rewrite Hgen.
Qed.

(** Revision 20260214175556 of [generateAnswer] never throws and never
    returns an empty text: without a key it answers with a fixed notice
    and calls nobody; it passes the provider's text on when that is not
    empty, and answers with one fixed sentence when it is and with
    another when the provider threw. *)
Theorem generateAnswer_rev175556_never_throws :
  forall (question : jsstring) (context : list Hit) (w : World),
    exists text events,
      generateAnswer_rev175556 question context w = (Ok text, logged events w)
      /\ text <> []
      /\ (JsString.isEmpty (geminiApiKey env) = true ->
            events = []
            /\ text = js "system: I cannot answer right now because the AI service is not configured (Missing API Key).")
      /\ (JsString.isEmpty (geminiApiKey env) = false ->
            match gemini env (clock w) (buildPrompt_rev175556 question context) with
            | Ok generated =>
                text = if JsString.isEmpty generated
                       then js "I apologize, but I couldn't generate a response at this time."
                       else generated
            | Throw _ =>
                text = js "I encountered an error while processing your request. Please try again later or contact support."
            end).
Proof.
  intros question context [tr ds cs ms nid fl]. unfold generateAnswer_rev175556, logged.
  destruct (JsString.isEmpty (geminiApiKey env)); run.
  - eexists; exists []. rewrite app_nil_r. split; [reflexivity|].
    split; [discriminate|]. split; [auto | discriminate].
  - destruct (gemini env (List.length tr) (buildPrompt_rev175556 question context))
      as [generated|raw] eqn:Hg; run.
    + destruct generated as [|c rest]; cbn [JsString.isEmpty]; run;
        eexists; eexists; (split; [reflexivity|]); (split; [discriminate|]);
        (split; [discriminate|]); intros _; reflexivity.
    + eexists; eexists. rewrite <- app_assoc. split; [reflexivity|].
      split; [discriminate|]. split; [discriminate|]. intros _. reflexivity.
Qed.

Lemma occursIn_here (x rest : jsstring) : occursIn x (x ++ rest).
Proof. exists [], rest. reflexivity. Qed.

Lemma occursIn_here2 (a b rest : jsstring) : occursIn (a ++ b) (a ++ b ++ rest).
Proof. exists [], rest. cbn [app]. now rewrite <- app_assoc. Qed.

Lemma occursIn_here3 (a b c rest : jsstring) :
  occursIn (a ++ b ++ c) (a ++ b ++ c ++ rest).
Proof. exists [], rest. cbn [app]. now rewrite <- !app_assoc. Qed.

(** The prompt of revision 20260214175556 names the category. Document
    [i] of the context appears in the prompt as one block that holds its
    number [i + 1], its title, its category, and its body as
    [truncateText] leaves it under a budget of 1500; with no context the
    prompt holds the sentence that no internal documents were found. *)
Theorem prompt_rev175556_names_the_category :
  forall (question : jsstring) (context : list Hit),
    occursIn (contextText_rev175556 context) (buildPrompt_rev175556 question context)
    /\ contextText_rev175556 [] =
         js "No specific internal documents found. Answer based on general safety knowledge if applicable, but disclaim that it might not be ASTU specific."
    /\ forall i h, nth_error context i = Some h ->
         occursIn (renderDocument_rev175556 h i) (contextText_rev175556 context)
         /\ occursIn (js "SOURCE DOCUMENT " ++ JsString.ofNat (i + 1) ++ js ":")
                     (renderDocument_rev175556 h i)
         /\ occursIn (js "Title: " ++ title (doc h)) (renderDocument_rev175556 h i)
         /\ occursIn (js "Category: " ++ category (doc h)) (renderDocument_rev175556 h i)
         /\ occursIn (js "Content:" ++ newline ++ truncateText (content (doc h)) 1500)
                     (renderDocument_rev175556 h i).
Proof.
  intros question context. split; [|split; [reflexivity|]].
  - unfold buildPrompt_rev175556.
    do 13 apply occursIn_app_l. apply occursIn_here.
  - intros i h Hnth. split; [|split; [|split; [|split]]].
    + unfold contextText_rev175556.
      assert (Hlen : i < List.length context) by (apply nth_error_Some; congruence).
      destruct context as [|h0 rest]; [cbn in Hlen; lia|].
      cbn [List.length Nat.ltb Nat.leb].
      apply occursIn_join. apply nth_error_In with (n := i).
      unfold mapi. rewrite nth_error_mapiFrom, Hnth. reflexivity.
    + unfold renderDocument_rev175556. cbv zeta. apply occursIn_here3.
    + unfold renderDocument_rev175556. cbv zeta.
      do 4 apply occursIn_app_l. apply occursIn_here2.
    + unfold renderDocument_rev175556. cbv zeta.
      do 7 apply occursIn_app_l. apply occursIn_here2.
    + unfold renderDocument_rev175556. cbv zeta.
      do 11 apply occursIn_app_l. apply occursIn_here3.
Qed.

(* ------------------------------------------------------------------ *)
(** *** What a caller of [askQuestion] can get back *)
(* ------------------------------------------------------------------ *)

(** The one error that leaves the pipeline is the fixed one. *)
Lemma processQuestion_throws (question : jsstring) (w w1 : World) (e : Error) :
  processQuestion question w = (Throw e, w1) -> e = generationFailed.
Proof.
  unfold processQuestion.
  destruct (quietTotal_generateEmbedding question w) as (emb & ev1 & E1).
  rewrite (bind_ok _ _ _ _ _ E1).
  destruct (quietTotal_searchDocuments question emb 3 (logged ev1 w)) as (hits & ev2 & E2).
  rewrite (bind_ok _ _ _ _ _ E2).
  destruct (generateAnswer_spec question hits (logged ev2 (logged ev1 w))) as (ev3 & E3).
  unfold bind at 1. rewrite E3.
  destruct (gemini env (clock (logged ev2 (logged ev1 w))) (buildPrompt question hits))
    as [text|err].
  - destruct (generationFails (Ok text)); [|discriminate]. intro H. now inversion H.
  - intro H. now inversion H.
Qed.

(** An error that leaves [handleConversation] is one the database
    threw. *)
Lemma handleConversation_throws (user : jsstring) (reqId : option nat)
  (question answer : jsstring) (w w' : World) (e : Error) :
  handleConversation user reqId question answer w = (Throw e, w') ->
  exists t, dbError env t = Some e.
Proof.
  destruct w as [tr ds cs ms nid fl].
  unfold handleConversation, Conversation_findOne, save, Conversation_create.
  destruct reqId as [i|]; run;
    repeat match goal with
    | |- context [dbError env ?t] =>
        let H := fresh "Hdb" in destruct (dbError env t) eqn:H; run; rewrite ?length_snoc
    | |- context [find ?f ?l] => destruct (find f l); run; rewrite ?length_snoc
    end;
    intro H; inversion H; subst; eauto.
Qed.

(** [askQuestion] always replies, and never with a provider's own
    error. The status is 200, 400, 401 or 500, and [success] is true
    exactly for 200. The error text of a reply with status 500 is the
    fixed sentence "Failed to generate response from AI service.", or the
    message of an error the database threw, or, when the body's question
    is a value that is not a string and not falsy (a number other than
    zero, [true], an array, an object), the message of the TypeError that
    the test of the question throws, "question.trim is not a function";
    and such a question with a caller always gets that reply. *)
Theorem askQuestion_always_replies :
  forall (req : AskRequest) (w : World),
    exists resp w',
      askQuestion req w = (Ok resp, w')
      /\ (status resp = 200 \/ status resp = 400 \/ status resp = 401 \/ status resp = 500)
      /\ (success resp = true <-> status resp = 200)
      /\ (status resp = 500 ->
            exists text,
              payload resp = Failure (js "Error processing your question") (Some text)
              /\ (text = js "Failed to generate response from AI service."
                  \/ (exists t e, dbError env t = Some e /\ text = message e)
                  \/ (text = js "question.trim is not a function"
                      /\ exists v, ask_question req = Some v
                                   /\ (forall q, v <> JsonString q)
                                   /\ falsy v = false)))
      /\ (forall v,
            ask_user req <> None -> ask_question req = Some v ->
            (forall q, v <> JsonString q) -> falsy v = false ->
            status resp = 500
            /\ payload resp = Failure (js "Error processing your question")
                                      (Some (js "question.trim is not a function"))).
Proof.
  intros req w.
  destruct (ask_user req) as [user|] eqn:Huser.
  2:{ eexists; eexists. split; [apply (askQuestion_unauthorized req w Huser)|].
      cbn [status success payload]. split; [auto|]. split; [split; discriminate|].
      split; [discriminate|]. intros v Hu. now elim Hu. }
  destruct (questionMissing_cases (ask_question req))
    as [Hq|[(q & Hsome & Hq)|(Hq & x & Hsome & Hnot & Hfalsy)]].
  - eexists; eexists. split; [apply (askQuestion_turned_away req user w Huser Hq)|].
    cbn [status success payload]. split; [auto|]. split; [split; discriminate|].
    split; [discriminate|]. intros v _ Hv Hnot Hfalsy. exfalso.
    rewrite Hv in Hq. destruct v; cbn [questionMissing] in Hq;
      try (now elim (Hnot s)); rewrite ?Hfalsy in Hq; discriminate.
  - assert (Hstr : forall v, ask_question req = Some v -> (forall q0, v <> JsonString q0) ->
                             False).
    { intros v Hv Hnot. rewrite Hsome in Hv. inversion Hv; subst v. now elim (Hnot q). }
    rewrite Hsome in Hq.
    rewrite (askQuestion_asked req user q Huser Hsome Hq).
    destruct (processQuestion q w) as [[[a docs]|e] w1] eqn:Hrag.
    + rewrite (tryCatch_bind_ok _ _ _ _ _ _ Hrag).
      destruct (handleConversation (user_id user) (ask_conversationId req) q a w1)
        as [[c|e] w2] eqn:Hconv.
      * destruct (saveChatHistory_spec (user_id user) c q a w2) as (w3 & Hsave & _).
        eexists; eexists.
        split; [apply tryCatch_ok; rewrite (bind_ok _ _ _ _ _ Hconv);
                rewrite (bind_ok _ _ _ _ _ Hsave); reflexivity|].
        cbn [status success payload]. split; [auto|]. split; [split; auto|].
        split; [discriminate|]. intros v _ Hv Hnot. now elim (Hstr v Hv Hnot).
      * destruct (handleConversation_throws _ _ _ _ _ _ _ Hconv) as (t & Ht).
        eexists; eexists.
        split; [rewrite (tryCatch_throw _ _ _ w2 e) by (apply bind_throw; exact Hconv);
                cbv [bind consoleError emit ret]; reflexivity|].
        cbn [status success payload]. split; [auto|]. split; [split; discriminate|].
        split; [|intros v _ Hv Hnot; now elim (Hstr v Hv Hnot)].
        intros _. eexists. split; [reflexivity|]. right. left. eauto.
    + apply processQuestion_throws in Hrag as He. subst e.
      eexists; eexists.
      split; [rewrite (tryCatch_throw _ _ _ w1 generationFailed)
                by (apply bind_throw; exact Hrag);
              cbv [bind consoleError emit ret]; reflexivity|].
      cbn [status success payload]. split; [auto|]. split; [split; discriminate|].
      split; [|intros v _ Hv Hnot; now elim (Hstr v Hv Hnot)].
      intros _. eexists. split; [reflexivity|]. now left.
  - eexists; eexists.
    split; [apply (askQuestion_test_throws req user trimIsNotAFunction w Huser Hq)|].
    cbn [status success payload]. split; [auto|]. split; [split; discriminate|].
    split.
    + intros _. eexists. split; [reflexivity|]. right. right. split; [reflexivity|].
      exists x. auto.
    + intros v _ _ _ _. split; reflexivity.
Qed.

(* ------------------------------------------------------------------ *)
(** *** Asking, then reading back *)
(* ------------------------------------------------------------------ *)


End Pipeline.

(* ================================================================== *)
(** ** Runs

    The theorems above at the sample data, and the runs that settle what
    the code does where the specification says otherwise. *)
(* ================================================================== *)

Abbreviation runAsk := (askQuestion sampleToFixed sampleTruncate).
Abbreviation runAsk_rev100540 := (askQuestion_rev100540 sampleToFixed sampleTruncate).
Abbreviation runUpload := (processAndSaveDocument sampleClean sampleChunkText).
Abbreviation samplePrompt :=
  (buildPrompt sampleToFixed sampleTruncate shortQuestion [scored (sampleDoc, 0.875%float)]).

(** The store after a document of 2001 code units was uploaded: a
    parent with id 0 and three chunks. *)
Abbreviation afterUpload :=
  (snd (runUpload envUp (js "Handbook") largeBody (js "admin") None None emptyWorld)).

(* ------------------------------------------------------------------ *)
(** *** Retrieval, run *)
(* ------------------------------------------------------------------ *)

(** C1 at a run: with vector search raising, the three-number embedding
    of the query is of no use and the reply is the text-search result,
    unscored. *)
Lemma searchDocuments_fallback_run :
  exists w',
    searchDocuments envVectorDown shortQuestion (Some [1%float; 2%float; 3%float]) 3
                    emptyWorld
      = (Ok [unscored sampleDoc], w').
Proof.
  destruct (searchDocuments_strict_fallback envVectorDown shortQuestion
              (Some [1%float; 2%float; 3%float]) 3 emptyWorld)
    as (hits & w' & E & Hfallback & _).
  destruct (Hfallback eq_refl) as (-> & _).
  exists w'. exact E.
Defined.

(* ------------------------------------------------------------------ *)
(** *** Embedding dimension, run *)
(* ------------------------------------------------------------------ *)

(** C2 as stated fails: a vector of three numbers, not 1024, comes back
    from the provider; the client returns it and ingestion stores it in
    the record. *)
Lemma three_number_embedding_is_stored :
  fst (generateEmbedding envUp smallBody emptyWorld)
  = Ok (Some [1%float; 2%float; 3%float])
  /\ List.length [1%float; 2%float; 3%float] <> 1024
  /\ map embedding
       (documents (snd (runUpload envUp (js "Exits") smallBody (js "admin") None None
                          emptyWorld)))
     = [[1%float; 2%float; 3%float]].
Proof.
  split; [reflexivity|]. split; [discriminate|]. vm_compute. reflexivity.
Qed.

(** C2 as the code has it, at a run. *)
Lemma embedding_taken_as_returned_run :
  embeddingAt envUp 0 smallBody = Some [1%float; 2%float; 3%float].
Proof.
  destruct (embedding_taken_as_returned sampleClean sampleChunkText envUp smallBody
              emptyWorld) as (_ & Hiff & _).
  apply Hiff. split; [reflexivity|]. exists threeNumbers. split; reflexivity.
Defined.

(* ------------------------------------------------------------------ *)
(** *** Generation failure, run *)
(* ------------------------------------------------------------------ *)

(** C3 as stated fails: the provider is out of quota for the one
    generation call of the request, and the reply is status 500 with
    [success: false] and no answer. *)
Lemma quota_error_gives_500 :
  fst (runAsk envQuotaOnce (ask shortQuestion) emptyWorld)
  = Ok (mkResponse 500 false
          (Failure (js "Error processing your question")
                   (Some (js "Failed to generate response from AI service.")))).
Proof. vm_compute. reflexivity. Qed.

(** C3 as the code has it, at a run: the provider fails the one call of
    the request, which is made once and not again, the reply is status
    500; the same question asked next is answered. *)
Lemma askQuestion_generation_failure_run :
  exists events,
    runAsk envQuotaOnce (ask shortQuestion) emptyWorld
    = (Ok (mkResponse 500 false
             (Failure (js "Error processing your question")
                      (Some (js "Failed to generate response from AI service.")))),
       logged events emptyWorld)
    /\ filter isGenerate events = [HttpGenerate samplePrompt]
    /\ fst (runAsk envQuotaOnce (ask shortQuestion) (logged events emptyWorld))
       = Ok (mkResponse 200 true
               (Answered shortQuestion (js "Call 0911.") (Some 0)
                         [toSource (scored (sampleDoc, 0.875%float))])).
Proof.
  pose (w1 := snd (generateEmbedding envQuotaOnce shortQuestion emptyWorld)).
  pose (w2 := snd (searchDocuments envQuotaOnce shortQuestion
                     (Some [1%float; 2%float; 3%float]) 3 w1)).
  destruct (askQuestion_generation_failure sampleToFixed sampleTruncate envQuotaOnce
              (ask shortQuestion) sampleUser shortQuestion
              (Some [1%float; 2%float; 3%float]) [scored (sampleDoc, 0.875%float)]
              emptyWorld w1 w2 eq_refl eq_refl eq_refl)
    as (_ & events & E & Hcalls).
  - vm_compute. reflexivity.
  - vm_compute. reflexivity.
  - vm_compute. reflexivity.
  - exists events. split; [exact E|]. split; [exact Hcalls|].
    replace (logged events emptyWorld)
      with (snd (runAsk envQuotaOnce (ask shortQuestion) emptyWorld))
      by (rewrite E; reflexivity).
    vm_compute. reflexivity.
Defined.

(* ------------------------------------------------------------------ *)
(** *** Validation, run *)
(* ------------------------------------------------------------------ *)

(** C4, at a question of 1001 code units: the latest controller sends it
    to the embedding provider and answers with status 200, where the
    earlier revision replies 400 without any call. *)
Lemma askQuestion_accepts_oversized_question :
  JsString.length oversizedQuestion = 1001
  /\ (exists payload,
        fst (runAsk envUp (ask oversizedQuestion) emptyWorld)
        = Ok (mkResponse 200 true payload))
  /\ hd_error (trace (snd (runAsk envUp (ask oversizedQuestion) emptyWorld)))
     = Some (HttpEmbedding oversizedQuestion)
  /\ runAsk_rev100540 envUp (ask oversizedQuestion) emptyWorld
     = (Ok (mkResponse 400 false
              (Failure (js "Question is too long (max 1000 characters)") None)),
        emptyWorld).
Proof.
  split; [reflexivity|]. split; [eexists; vm_compute; reflexivity|].
  split; vm_compute; reflexivity.
Qed.

(* ------------------------------------------------------------------ *)
(** *** Ingestion, run *)
(* ------------------------------------------------------------------ *)


(** C6 as stated fails: the embedding provider is down while a document
    of 2001 code units is ingested, and the chunk records are written
    with an empty embedding. *)
Lemma chunks_without_embedding :
  map (fun d => (isChunk d, embedding d))
      (documents (snd (runUpload envEmbeddingDown (js "Handbook") largeBody (js "admin")
                         None None emptyWorld)))
  = [(false, []); (true, []); (true, []); (true, [])].
Proof. vm_compute. reflexivity. Qed.

(** C6 as the code has it, at a run: the provider fails the request of
    the second chunk only. The parent holds no embedding, the first and
    the third chunk hold the vector the provider returned, the second
    holds none. *)
Lemma ingestion_embeddings_run :
  exists docs,
    documents (snd (runUpload envEmbeddingOnceDown (js "Handbook") largeBody (js "admin")
                      None None emptyWorld)) = docs
    /\ map (fun d => (chunkIndex d, embedding d)) docs
       = [(None, []); (Some 0, [1%float; 2%float; 3%float]); (Some 1, []);
          (Some 2, [1%float; 2%float; 3%float])]
    /\ forall d, In d docs -> isChunk d = true ->
         exists i chunk,
           nth_error (sampleChunkText (sampleClean largeBody) 1000 200) i = Some chunk
           /\ content d = text chunk
           /\ holdsEmbeddingOf envEmbeddingOnceDown (1 + i) (text chunk) d.
Proof.
  destruct (ingestion_embeddings sampleClean sampleChunkText envEmbeddingOnceDown
              (js "Handbook") largeBody (js "admin") None None emptyWorld _ _
              (surjective_pairing _)) as (docs & Hdocs & Hall).
  assert (Hd : documents (snd (runUpload envEmbeddingOnceDown (js "Handbook") largeBody
                                 (js "admin") None None emptyWorld)) = docs)
    by exact Hdocs.
  exists docs. split; [exact Hd|]. split; [rewrite <- Hd; vm_compute; reflexivity|].
  intros d Hin Hchunk.
  destruct (Hall d Hin) as [(Hc & _)|[(Hc & _)|(_ & _ & H)]];
    [congruence | congruence | exact H].
Defined.

(* ------------------------------------------------------------------ *)
(** *** Prompt, run *)
(* ------------------------------------------------------------------ *)

(** C7 as stated fails: the prompt built for one document of category
    "health" carries its title and body but not its category; filing the
    document under another category changes nothing. *)
Lemma prompt_leaves_category_out :
  JsString.includes (category sampleDoc) samplePrompt = false
  /\ JsString.includes (title sampleDoc) samplePrompt = true
  /\ JsString.includes (content sampleDoc) samplePrompt = true
  /\ buildPrompt sampleToFixed sampleTruncate shortQuestion
       [scored (sampleDocRefiled, 0.875%float)]
     = samplePrompt.
Proof. vm_compute. repeat split. Qed.

(** C7 as the code has it, at a run. *)
Lemma generateAnswer_prompt_run :
  renderDocument sampleToFixed sampleTruncate (scored (sampleDoc, 0.875%float)) 0
  = js "Document 1: Emergency contacts (Relevance: 87.5%)" ++ newline
    ++ js "Content: Call campus security at 0911.".
Proof.
  destruct (generateAnswer_prompt_rendering sampleToFixed sampleTruncate envUp
              shortQuestion [scored (sampleDoc, 0.875%float)])
    as (_ & _ & _ & Hdoc & _).
  destruct (Hdoc 0 (scored (sampleDoc, 0.875%float)) eq_refl)
    as (_ & info & -> & _ & _ & Hinfo).
  rewrite (Hinfo 0.875%float eq_refl eq_refl). reflexivity.
Defined.

(* ------------------------------------------------------------------ *)
(** *** Deletion, run *)
(* ------------------------------------------------------------------ *)

Lemma afterUpload_reachable :
  reachable sampleToFixed sampleClean sampleChunkText sampleTruncate envUp
            afterUpload.
Proof.
  eapply after_step; [apply after_start|].
  eapply step_upload. apply surjective_pairing.
Qed.

(** The cascade at a run: three chunks before the parent is deleted,
    none after, and none after a question asked later. *)
Lemma deleteDocument_removes_chunks_run :
  let deleted := snd (deleteDocument envUp deleteParent afterUpload) in
  let later := snd (runAsk envUp (ask shortQuestion) deleted) in
  List.length (filter (isChunkOf 0) (documents afterUpload)) = 3
  /\ filter (isChunkOf 0) (documents later) = []
  /\ find (fun d => _id d =? 0) (documents later) = None.
Proof.
  intros deleted later.
  split; [vm_compute; reflexivity|].
  apply (deleteDocument_removes_chunks sampleToFixed sampleClean sampleChunkText
           sampleTruncate envUp afterUpload deleted later deleteParent
           (mkResponse 200 true (Done (js "Document deleted successfully")))).
  - exact afterUpload_reachable.
  - intros job Hin. vm_compute in Hin. destruct Hin.
  - vm_compute. reflexivity.
  - reflexivity.
  - eapply after_step; [apply after_start|].
    eapply step_ask. apply surjective_pairing.
Defined.

(** C8 fails on a run. A document of 2001 code units is uploaded; the
    parent is written, the three embedding requests are sent, the write
    of the first chunk record is refused: [Promise.all] rejects, the
    upload is answered with status 500, and the tasks of the second and
    the third chunk are still under way. The parent is deleted, with
    status 200, from a store that holds no chunk of it yet. Then the task
    of the second chunk writes its record: a chunk of a parent that is no
    longer there. *)
Lemma deleteDocument_misses_chunks_in_flight :
  let failed := runUpload envChunkWriteFails (js "Handbook") largeBody (js "u1") None None
                          emptyWorld in
  let deleted := deleteDocument envChunkWriteFails deleteParent (snd failed) in
  let late := settleInFlight envChunkWriteFails (snd deleted) in
  fst failed = Throw (newError (js "write conflict"))
  /\ fst (uploadDocument sampleClean sampleChunkText envChunkWriteFails uploadHandbook
            emptyWorld)
     = Ok (mkReply 500 false (Some (js "Error uploading document"))
                   (Some (js "write conflict")) None)
  /\ map (fun d => (_id d, chunkCount d)) (documents (snd failed)) = [(0, Some 3)]
  /\ map job_index (inFlight (snd failed)) = [1; 2]
  /\ fst deleted = Ok (mkResponse 200 true (Done (js "Document deleted successfully")))
  /\ documents (snd deleted) = []
  /\ map (fun d => (parentDocumentId d, chunkIndex d)) (documents (snd late))
     = [(Some 0, Some 1)]
  /\ filter (isChunkOf 0) (documents (snd late)) <> []
  /\ find (fun d => _id d =? 0) (documents (snd late)) = None
  /\ reachable sampleToFixed sampleClean sampleChunkText sampleTruncate envChunkWriteFails
               (snd late).
Proof.
  intros failed deleted late.
  split; [vm_compute; reflexivity|]. split; [vm_compute; reflexivity|].
  split; [vm_compute; reflexivity|]. split; [vm_compute; reflexivity|].
  split; [vm_compute; reflexivity|]. split; [vm_compute; reflexivity|].
  split; [vm_compute; reflexivity|]. split; [vm_compute; discriminate|].
  split; [vm_compute; reflexivity|].
  eapply after_step; [eapply after_step; [eapply after_step; [apply after_start|]|]|].
  - eapply step_upload. apply (surjective_pairing failed).
  - eapply step_delete. apply (surjective_pairing deleted).
  - eapply step_inFlight. apply (surjective_pairing late).
Qed.

(** The same without any failure: the parent is deleted while the
    upload waits for its three embeddings. The delete finds no chunk to
    remove; the three tasks then write their records under the parent
    that is gone. *)
Lemma deleteDocument_during_upload :
  let waiting := snd (processAndSaveDocument_upToAwait sampleClean sampleChunkText envUp
                        (js "Handbook") largeBody (js "u1") None None emptyWorld) in
  let deleted := deleteDocument envUp deleteParent waiting in
  let settle := fun w => snd (settleInFlight envUp w) in
  let late := settle (settle (settle (snd deleted))) in
  map job_index (inFlight waiting) = [0; 1; 2]
  /\ fst deleted = Ok (mkResponse 200 true (Done (js "Document deleted successfully")))
  /\ documents (snd deleted) = []
  /\ map (fun d => (parentDocumentId d, chunkIndex d)) (documents late)
     = [(Some 0, Some 0); (Some 0, Some 1); (Some 0, Some 2)]
  /\ find (fun d => _id d =? 0) (documents late) = None
  /\ reachable sampleToFixed sampleClean sampleChunkText sampleTruncate envUp late.
Proof.
  intros waiting deleted settle late.
  split; [vm_compute; reflexivity|]. split; [vm_compute; reflexivity|].
  split; [vm_compute; reflexivity|]. split; [vm_compute; reflexivity|].
  split; [vm_compute; reflexivity|].
  eapply after_step;
    [eapply after_step;
       [eapply after_step;
          [eapply after_step; [eapply after_step; [apply after_start|]|]|]|]|].
  - apply step_upload_waits
      with (title := js "Handbook") (body := largeBody) (userId := js "u1")
           (category := None) (tags := None)
           (o := fst (processAndSaveDocument_upToAwait sampleClean sampleChunkText envUp
                        (js "Handbook") largeBody (js "u1") None None emptyWorld)).
    + vm_compute. reflexivity.
    + apply surjective_pairing.
  - eapply step_delete. apply (surjective_pairing deleted).
  - eapply step_inFlight. apply (surjective_pairing (settleInFlight envUp (snd deleted))).
  - eapply step_inFlight.
    apply (surjective_pairing (settleInFlight envUp (settle (snd deleted)))).
  - eapply step_inFlight.
    apply (surjective_pairing (settleInFlight envUp (settle (settle (snd deleted))))).
Qed.

(* ------------------------------------------------------------------ *)
(** *** Persistence, run *)
(* ------------------------------------------------------------------ *)

(** C9 as stated fails: the answer is there, then [Conversation.create]
    throws, and the reply is status 500 with the database's message, not
    the answer. *)
Lemma conversation_write_failure_gives_500 :
  fst (runAsk envDatabaseDown (ask shortQuestion) emptyWorld)
  = Ok (mkResponse 500 false
          (Failure (js "Error processing your question") (Some (js "connection lost"))))
  /\ skipn 3 (trace (snd (runAsk envDatabaseDown (ask shortQuestion) emptyWorld)))
     = [Db ConversationCreate; ConsoleError (cross ++ js " Chat error:")].
Proof. vm_compute. split; reflexivity. Qed.

(** C9 as the code has it, at a run: both message writes fail, the
    failure is the last line logged, and the answer is returned. *)
Lemma askQuestion_chat_history_run :
  exists w3,
    runAsk envChatWritesFail (ask shortQuestion) emptyWorld
    = (Ok (mkResponse 200 true
             (Answered shortQuestion (js "Call 0911.") (Some 0)
                       [toSource (scored (sampleDoc, 0.875%float))])), w3)
    /\ last (trace w3) (ConsoleError []) = ConsoleError chatHistoryLabel.
Proof.
  pose (r := mkRAGResponse (js "Call 0911.") [scored (sampleDoc, 0.875%float)]).
  pose (w1 := snd (processQuestion sampleToFixed sampleTruncate envChatWritesFail
                     shortQuestion emptyWorld)).
  pose (w2 := snd (handleConversation envChatWritesFail (user_id sampleUser) None
                     shortQuestion (answer r) w1)).
  destruct (askQuestion_chat_history_best_effort sampleToFixed sampleTruncate
              envChatWritesFail (ask shortQuestion) sampleUser shortQuestion r (Some 0)
              emptyWorld w1 w2) as (w3 & E & Hlogged).
  - reflexivity.
  - reflexivity.
  - reflexivity.
  - vm_compute. reflexivity.
  - vm_compute. reflexivity.
  - exists w3. split; [exact E|].
    destruct Hlogged as (events & ->); [vm_compute; reflexivity|].
    rewrite app_assoc. apply last_last.
Defined.

(* ------------------------------------------------------------------ *)
(** *** Conversation title, run *)
(* ------------------------------------------------------------------ *)

(** C10 at a run: a question of 63 code units. *)
Lemma new_conversation_title_run :
  let w' := snd (runAsk envUp (ask longQuestion) emptyWorld) in
  let c := mkConversation 0 (js "u1")
             (js "What should I do when I see smoke in the dormit...")
             (js "Call 0911.") in
  JsString.length longQuestion = 63
  /\ conversations w' = [c]
  /\ conv_title c = firstn 47 longQuestion ++ js "..."
  /\ JsString.length (conv_title c) <= 50.
Proof.
  intros w' c.
  assert (Hc : conversations w' = [c]) by (vm_compute; reflexivity).
  destruct (new_conversation_title sampleToFixed sampleTruncate envUp
              (ask longQuestion) longQuestion emptyWorld w' _ c eq_refl
              (surjective_pairing _)) as (_ & Htitle & Hlen).
  - rewrite Hc. now left.
  - intros [].
  - split; [reflexivity|]. split; [exact Hc|]. split; [|exact Hlen].
    rewrite Htitle. reflexivity.
Defined.

(* ------------------------------------------------------------------ *)
(** *** Validation of both revisions, run *)
(* ------------------------------------------------------------------ *)

Lemma askQuestion_rejects_blank_question_run :
  runAsk envUp (ask (js "   ")) emptyWorld
  = (Ok (mkResponse 400 false (Failure (js "Please provide a question") None)),
     emptyWorld).
Proof.
  apply (askQuestion_rejects_missing_question sampleToFixed sampleTruncate envUp
           (ask (js "   ")) sampleUser emptyWorld); reflexivity.
Defined.

Lemma askQuestion_rev100540_validates_run :
  exists msg,
    runAsk_rev100540 envUp (ask oversizedQuestion) emptyWorld
    = (Ok (mkResponse 400 false (Failure msg None)), emptyWorld).
Proof.
  apply (askQuestion_rev100540_validates sampleToFixed sampleTruncate envUp
           (ask oversizedQuestion) sampleUser emptyWorld eq_refl).
  right. exists oversizedQuestion. split; [reflexivity|].
  apply Nat.ltb_lt. vm_compute. reflexivity.
Defined.

(* ------------------------------------------------------------------ *)
(** *** Answers, run *)
(* ------------------------------------------------------------------ *)

(** The provider's text comes back with blanks around it; the reply
    carries it trimmed. *)
Lemma askQuestion_answer_never_blank_run :
  fst (runAsk envNoVoyageKey (ask shortQuestion) emptyWorld)
  = Ok (mkResponse 200 true
          (Answered shortQuestion (js "Call 0911.") (Some 0)
                    [toSource (unscored sampleDoc)]))
  /\ JsString.trim (js "Call 0911.") = js "Call 0911.".
Proof.
  split; [vm_compute; reflexivity|].
  apply (askQuestion_answer_never_blank sampleToFixed sampleTruncate envNoVoyageKey
           (ask shortQuestion) emptyWorld
           (snd (runAsk envNoVoyageKey (ask shortQuestion) emptyWorld))
           (mkResponse 200 true
              (Answered shortQuestion (js "Call 0911.") (Some 0)
                        [toSource (unscored sampleDoc)]))
           shortQuestion (js "Call 0911.") (Some 0) [toSource (unscored sampleDoc)]).
  - vm_compute. reflexivity.
  - reflexivity.
Defined.

(** No key: the first call of the pipeline is the text search. *)
Lemma processQuestion_without_embedding_key_run :
  hd_error (trace (snd (processQuestion sampleToFixed sampleTruncate envNoVoyageKey
                          shortQuestion emptyWorld)))
  = Some (AtlasTextSearch shortQuestion 3).
Proof.
  destruct (processQuestion_without_embedding_key sampleToFixed sampleTruncate
              envNoVoyageKey shortQuestion emptyWorld eq_refl)
    as (o & events & E & Hhd & _).
  rewrite E. exact Hhd.
Defined.

(* ------------------------------------------------------------------ *)
(** *** Asking and the stores, run *)
(* ------------------------------------------------------------------ *)

(** After an upload, an ask request leaves the four documents alone. *)
Lemma asking_never_changes_documents_run :
  documents (snd (runAsk envUp (ask shortQuestion) afterUpload)) = documents afterUpload.
Proof.
  apply (asking_never_changes_documents sampleToFixed sampleTruncate envUp
           (ask shortQuestion) afterUpload _
           (fst (runAsk envUp (ask shortQuestion) afterUpload))).
  left. apply surjective_pairing.
Defined.


(** A user asks under the id of another user's conversation: that
    conversation is left as it was and a new one is made for the
    caller. *)
Lemma askQuestion_conversation_isolation_run :
  In otherConversation (conversations (snd (runAsk envUp askUnderOther worldWithOther)))
  /\ fst (runAsk envUp askUnderOther worldWithOther)
     = Ok (mkResponse 200 true
             (Answered shortQuestion (js "Call 0911.") (Some 1)
                       [toSource (scored (sampleDoc, 0.875%float))]))
  /\ conversations (snd (runAsk envUp askUnderOther worldWithOther))
     = [otherConversation; newConversation 1 (js "u1") shortQuestion (js "Call 0911.")]
  /\ map chat_conversation (chats (snd (runAsk envUp askUnderOther worldWithOther)))
     = [Some 1; Some 1].
Proof.
  assert (Hreply : fst (runAsk envUp askUnderOther worldWithOther)
                   = Ok (mkResponse 200 true
                           (Answered shortQuestion (js "Call 0911.") (Some 1)
                                     [toSource (scored (sampleDoc, 0.875%float))])))
    by (vm_compute; reflexivity).
  destruct (askQuestion_conversation_isolation sampleToFixed sampleTruncate envUp
              askUnderOther sampleUser worldWithOther
              (snd (runAsk envUp askUnderOther worldWithOther))
              (fst (runAsk envUp askUnderOther worldWithOther)) eq_refl)
    as (_ & Hkeep & _ & _ & Hnew).
  - split.
    + repeat constructor. intros [].
    + intros c [<-|[]]. cbn. lia.
  - apply surjective_pairing.
  - split; [apply Hkeep; [now left|]; intro H; vm_compute in H; discriminate|].
    split; [exact Hreply|].
    destruct (Hnew 0 (mkResponse 200 true
                        (Answered shortQuestion (js "Call 0911.") (Some 1)
                                  [toSource (scored (sampleDoc, 0.875%float))])) eq_refl)
      as (_ & q & a & sources & Hpay & Hconvs).
    + intros c [<-|[]] _ H. vm_compute in H. discriminate.
    + exact Hreply.
    + reflexivity.
    + inversion Hpay; subst q a sources. split; [exact Hconvs|].
      vm_compute. reflexivity.
Defined.

(* ------------------------------------------------------------------ *)
(** *** Deleting and uploading, run *)
(* ------------------------------------------------------------------ *)

(** Deleting the second chunk of the uploaded document leaves its
    parent, and its siblings too. *)
Lemma deleteDocument_keeps_unrelated_run :
  In (hd sampleDoc (documents afterUpload))
     (documents (snd (deleteDocument envUp (mkDeleteRequest (Some sampleUser) 2)
                        afterUpload)))
  /\ map _id (documents (snd (deleteDocument envUp (mkDeleteRequest (Some sampleUser) 2)
                                afterUpload)))
     = [0; 1; 3].
Proof.
  destruct (deleteDocument_keeps_unrelated envUp (mkDeleteRequest (Some sampleUser) 2)
              afterUpload
              (snd (deleteDocument envUp (mkDeleteRequest (Some sampleUser) 2) afterUpload))
              (fst (deleteDocument envUp (mkDeleteRequest (Some sampleUser) 2) afterUpload))
              (surjective_pairing _)) as (Hkeep & _).
  split; [|vm_compute; reflexivity].
  apply Hkeep.
  - vm_compute. now left.
  - vm_compute. discriminate.
  - vm_compute. discriminate.
Defined.

(** Upload into an empty store, delete what was uploaded: the store is
    empty again. *)
Lemma upload_then_delete_restores_documents_run :
  exists r w1 w2,
    runUpload envUp (js "Handbook") largeBody (js "admin") None None emptyWorld = (Ok r, w1)
    /\ deleteDocument envUp (mkDeleteRequest (Some sampleUser) (result_id r)) w1
       = (Ok (mkResponse 200 true (Done (js "Document deleted successfully"))), w2)
    /\ documents w2 = [].
Proof.
  exact (upload_then_delete_restores_documents sampleToFixed sampleClean sampleChunkText
           sampleTruncate envUp (js "Handbook") largeBody (js "admin") None None
           sampleUser emptyWorld (after_start _ _ _ _ _ emptyWorld) (fun _ => eq_refl)).
Defined.

(** The database takes the parent of a document of 2001 code units and
    then goes away: the upload throws and the parent stays, alone. *)
Lemma ingestion_is_not_rolled_back_run :
  exists e w',
    runUpload envWritesFailAfterFirst (js "Handbook") largeBody (js "admin") None None
              emptyWorld = (Throw e, w')
    /\ map (fun d => (_id d, isChunk d, chunkCount d)) (documents w')
       = [(0, false, Some 3)].
Proof.
  destruct (ingestion_is_not_rolled_back sampleClean sampleChunkText
              envWritesFailAfterFirst (js "Handbook") largeBody (js "admin") None None
              emptyWorld) as (e & w' & E & Hdocs).
  - apply Nat.ltb_lt. vm_compute. reflexivity.
  - vm_compute. discriminate.
  - reflexivity.
  - intros [|t] Ht; [inversion Ht | discriminate].
  - exists e, w'. split; [exact E|]. rewrite Hdocs. vm_compute. reflexivity.
Defined.

(* ------------------------------------------------------------------ *)
(** *** Revision 20260214100540, run *)
(* ------------------------------------------------------------------ *)

(** The provider is out of quota for the one generation call of the
    request: the earlier revision answers with status 200 and the
    provider's message inside the answer, and files that text. *)
Lemma askQuestion_rev100540_answers_with_the_error_run :
  exists cid w',
    runAsk_rev100540 envQuotaOnce (ask shortQuestion) emptyWorld
    = (Ok (mkResponse 200 true
             (Answered shortQuestion
                (js "(DEBUG MODE) Error generating response: 429 quota exceeded. Please check backend logs for details.")
                cid [toSource (scored (sampleDoc, 0.875%float))])), w')
    /\ chats w'
       = exchange (js "u1") cid shortQuestion
           (js "(DEBUG MODE) Error generating response: 429 quota exceeded. Please check backend logs for details.").
Proof.
  pose (w1 := snd (generateEmbedding_rev100540 envQuotaOnce shortQuestion emptyWorld)).
  pose (w2 := snd (findRelevantDocumentsByEmbedding envQuotaOnce
                     [1%float; 2%float; 3%float] 3 w1)).
  destruct (askQuestion_rev100540_answers_with_the_error sampleToFixed sampleTruncate
              envQuotaOnce (ask shortQuestion) sampleUser shortQuestion
              (newError (js "429 quota exceeded")) (Some [1%float; 2%float; 3%float])
              [scored (sampleDoc, 0.875%float)] emptyWorld w1 w2
              eq_refl eq_refl eq_refl eq_refl eq_refl)
    as (events & _ & _ & Hdb).
  - vm_compute. reflexivity.
  - vm_compute. reflexivity.
  - vm_compute. reflexivity.
  - destruct (Hdb (fun _ => eq_refl)) as (cid & w' & E & Hchats).
    exists cid, w'. split; [exact E | exact Hchats].
Defined.

(** Vector search finds nothing: the earlier revision answers without
    sources and never runs the text search. *)
Lemma askQuestion_rev100540_no_text_fallback_run :
  Forall notTextSearch
    (trace (snd (runAsk_rev100540 envVectorEmpty (ask shortQuestion) emptyWorld)))
  /\ fst (runAsk_rev100540 envVectorEmpty (ask shortQuestion) emptyWorld)
     = Ok (mkResponse 200 true (Answered shortQuestion (js "Call 0911.") (Some 0) [])).
Proof.
  destruct (askQuestion_rev100540_no_text_fallback sampleToFixed sampleTruncate
              envVectorEmpty (ask shortQuestion) sampleUser shortQuestion threeNumbers
              1%float [2%float; 3%float] emptyWorld
              (snd (runAsk_rev100540 envVectorEmpty (ask shortQuestion) emptyWorld))
              (fst (runAsk_rev100540 envVectorEmpty (ask shortQuestion) emptyWorld))
              eq_refl eq_refl eq_refl eq_refl eq_refl eq_refl (surjective_pairing _))
    as (Htrace & _).
  split; [exact Htrace|]. vm_compute. reflexivity.
Defined.

(* ------------------------------------------------------------------ *)
(** *** The other handlers, run *)
(* ------------------------------------------------------------------ *)

Abbreviation runUploadDocument := (uploadDocument sampleClean sampleChunkText).
Abbreviation runUploadFile := (uploadFile sampleClean sampleChunkText).

(** An upload of 2001 code units while the embedding provider is down:
    status 201 all the same. *)
Lemma uploadDocument_replies_run :
  exists resp w',
    runUploadDocument envEmbeddingDown uploadHandbook emptyWorld = (Ok resp, w')
    /\ reply_status resp = 201.
Proof.
  destruct (uploadDocument_replies sampleClean sampleChunkText envEmbeddingDown
              uploadHandbook sampleUser emptyWorld eq_refl)
    as (resp & docs & w' & E & _ & _ & Hvalid).
  destruct (Hvalid eq_refl) as (_ & _ & Hok).
  exists resp, w'. split; [exact E|]. apply Hok. intro t. reflexivity.
Defined.

(** A text file without a title in the request is stored under its own
    name. *)
Lemma uploadFile_replies_run :
  exists resp d rest w',
    runUploadFile envUp sampleExtract uploadNotes emptyWorld = (Ok resp, w')
    /\ reply_status resp = 201
    /\ documents w' = d :: rest
    /\ title d = js "notes.txt" /\ content d = js "Fire".
Proof.
  destruct (uploadFile_replies sampleClean sampleChunkText envUp sampleExtract
              uploadNotes sampleUser notesFile emptyWorld eq_refl eq_refl)
    as (resp & docs & w' & E & Hdocs & _ & Htext).
  destruct (Htext (js "Fire") eq_refl) as (_ & Hgood).
  destruct (Hgood eq_refl) as (_ & Hstored & Hok).
  assert (Hstatus : reply_status resp = 201) by (apply Hok; intro t; reflexivity).
  destruct (Hstored Hstatus) as (r & d & rest & _ & Hd & _ & _ & Htitle & Hcontent & _).
  exists resp, d, rest, w'. split; [exact E|]. split; [exact Hstatus|].
  split; [rewrite Hdocs, Hd; reflexivity|]. split; [exact Htitle | exact Hcontent].
Defined.

(** Two users in the store: the first one's history holds the first
    one's two messages. *)
Lemma reads_return_the_callers_own_run :
  exists resp events,
    getChatHistory noQueryError inStoreOrder (Some sampleUser) twoUsers
      = (Ok resp, logged events twoUsers)
    /\ reply_data resp
       = Some [mkMessageView user_role (js "Where is the clinic?");
               mkMessageView model_role (js "Block B.")].
Proof.
  destruct (reads_return_the_callers_own noQueryError inStoreOrder inStoreOrder
              (fun _ _ H => H) (fun _ _ H => H) sampleUser twoUsers)
    as ((resp & events & E & _) & _).
  exists resp, events. split; [exact E|].
  assert (Hresp : fst (getChatHistory noQueryError inStoreOrder (Some sampleUser) twoUsers)
                  = Ok resp) by now rewrite E.
  vm_compute in Hresp. inversion Hresp. reflexivity.
Defined.

(** The first user asks for the messages of the second user's
    conversation: status 404 and no message. *)
Lemma getConversationMessages_owner_only_run :
  exists resp events,
    getConversationMessages envUp noQueryError inStoreOrder
      (mkConversationRequest (Some sampleUser) 1) twoUsers
      = (Ok resp, logged events twoUsers)
    /\ reply_data resp = None /\ reply_status resp = 404.
Proof.
  destruct (getConversationMessages_owner_only envUp noQueryError inStoreOrder
              (fun _ _ H => H) (mkConversationRequest (Some sampleUser) 1) sampleUser
              twoUsers eq_refl) as (resp & events & E & _ & Hother).
  exists resp, events. split; [exact E|].
  destruct Hother as (Hnone & _).
  - intros c [<-|[<-|[]]] Hid Hu; [discriminate Hid|].
    vm_compute in Hu. discriminate Hu.
  - split; [exact Hnone|].
    assert (Hresp : fst (getConversationMessages envUp noQueryError inStoreOrder
                           (mkConversationRequest (Some sampleUser) 1) twoUsers)
                    = Ok resp) by now rewrite E.
    vm_compute in Hresp. inversion Hresp. reflexivity.
Defined.



(** A body whose question is the number 42: the test of the question
    throws inside the handler's [try], and the reply is status 500 with
    the TypeError's message. *)
Lemma askQuestion_always_replies_run :
  fst (runAsk envUp askNumber emptyWorld)
  = Ok (mkResponse 500 false
          (Failure (js "Error processing your question")
                   (Some (js "question.trim is not a function")))).
Proof.
  destruct (askQuestion_always_replies sampleToFixed sampleTruncate envUp askNumber
              emptyWorld) as (resp & w' & E & _ & Hsuccess & _ & Hnumber).
  destruct (Hnumber (JsonNumber 42%float)) as (Hstatus & Hpayload).
  - discriminate.
  - reflexivity.
  - discriminate.
  - reflexivity.
  - rewrite E. cbn [fst]. destruct resp as [st ok pl]. cbn in *. subst st pl.
    destruct ok; [|reflexivity].
    destruct Hsuccess as [H _]. specialize (H eq_refl). discriminate.
Defined.

(* ------------------------------------------------------------------ *)
(** *** Earlier revisions of the service, run *)
(* ------------------------------------------------------------------ *)

(** The provider does not know the model: the service of revision
    20260214193255 throws its own error, and revision 20260214184200 of
    the pipeline answers with the apology. *)
Lemma processQuestion_rev184200_run :
  fst (GeminiService_generateContent envModelUnknown shortQuestion emptyWorld)
  = Throw (newError (js "Model gemini-2.5-flash not found. Ensure your API Key supports it."))
  /\ fst (processQuestion_rev184200 sampleToFixed sampleTruncate envModelUnknown
            (GeminiService_generateContent envModelUnknown) shortQuestion emptyWorld)
     = Ok (mkRAGResponse apology_rev184200 [scored (sampleDoc, 0.875%float)]).
Proof. split; vm_compute; reflexivity. Qed.
